(** * Climatological estimator: a shallow embedding and its properties

    The development follows [src/src/climatological_analyzer.py], class
    [ClimatologicalAnalyzer].  Observations are IEEE-754 binary64 numbers
    (Python's [float], numpy's [float64]); they are modelled by Rocq's
    primitive floats, whose operations are specified by [SpecFloat].
    Methods are functions in a small state-and-exception monad over the
    analyzer object ([self]); results that the source builds as dictionaries
    are finite maps from strings to Python values. *)

From Stdlib Require Import ZArith QArith Floats Lia Lqa.
From stdpp Require Import base strings gmap pretty list sorting.

(* Decimal literals such as 0.1 denote the nearest binary64 value, as in
   Python; the nested map type below needs no extra induction scheme. *)
Set Warnings "-inexact-float,-register-all".

(** ** Python values and exceptions *)

Inductive pyobj :=
  | PFloat (f : float)
  | PInt (z : Z)
  | PBool (b : bool)
  | PStr (s : string)
  | PNone
  | PTuple (items : list pyobj)
  | PDict (entries : gmap string pyobj).

(** An exception carries its class and the message that [str(e)] returns.
    [LibraryError] stands for whatever a numpy/scipy routine raises. *)
Inductive exn :=
  | ValueError (msg : string)
  | TypeError (msg : string)
  | KeyError (msg : string)
  | OverflowError (msg : string)
  | ZeroDivisionError (msg : string)
  | LibraryError (msg : string).

Definition str (e : exn) : string :=
  match e with
  | ValueError m | TypeError m | KeyError m
  | OverflowError m | ZeroDivisionError m | LibraryError m => m
  end.

Inductive outcome (A : Type) :=
  | Returned (a : A)
  | Raised (e : exn).
Arguments Returned {A} a.
Arguments Raised {A} e.

(** ** The analyzer object and the method monad *)

Record Analyzer := { data : list float; n_years : nat }.

Definition Method (A : Type) : Type := Analyzer → Analyzer * outcome A.

Definition method_ret {A} (a : A) : Method A := λ self, (self, Returned a).

Definition method_bind {A B} (k : A → Method B) (m : Method A) : Method B :=
  λ self,
    match m self with
    | (self', Returned a) => k a self'
    | (self', Raised e) => (self', Raised e)
    end.

Definition raise {A} (e : exn) : Method A := λ self, (self, Raised e).

(** [try: body except Exception as e: handler e] *)
Definition try_except {A} (body : Method A) (handler : exn → Method A) : Method A :=
  λ self,
    match body self with
    | (self', Returned a) => (self', Returned a)
    | (self', Raised e) => handler e self'
    end.

Definition self_data : Method (list float) := λ self, (self, Returned (data self)).
Definition self_n_years : Method nat := λ self, (self, Returned (n_years self)).

(** Lifting of a library call that either returns or raises. *)
Definition call {A} (r : outcome A) : Method A := λ self, (self, r).

#[global] Instance Method_ret : MRet Method := @method_ret.
#[global] Instance Method_bind : MBind Method := @method_bind.

(** ** Numbers *)

(** Conversion of an integer to the nearest binary64 number, as numpy does
    when an integer takes part in a true division. *)
Definition float_of_Z (z : Z) : float :=
  SF2Prim (binary_normalize prec emax z 0 false).

Definition float_of_nat (n : nat) : float := float_of_Z (Z.of_nat n).

(** [np.isnan] *)
Definition np_isnan (x : float) : bool := PrimFloat.is_nan x.

(** [np.sum] of a boolean array: the number of [True] entries. *)
Definition np_sum_bool (mask : list bool) : Z :=
  fold_left (λ acc (b : bool), if b then (acc + 1)%Z else acc) mask 0%Z.

(** ** Construction: [__init__] *)

Definition few_years_warning (n : nat) : string :=
  "Only " +:+ pretty n +:+ " years of data available. Results may be less reliable.".

(** Returns the constructed object together with the warnings emitted
    through [warnings.warn]. *)
Definition __init__ (historical_data : list float) : outcome (Analyzer * list string) :=
  let data := List.filter (λ x, negb (np_isnan x)) historical_data in
  let n_years := length data in
  if (n_years =? 0)%nat then
    Raised (ValueError "No valid data points provided")
  else
    let self := {| data := data; n_years := n_years |} in
    if (n_years <? 10)%nat then Returned (self, [few_years_warning n_years])
    else Returned (self, []).

(** ** Threshold probabilities *)

Definition calculate_probability (threshold : float) (condition : string) : Method float :=
  count ←
    (if String.eqb condition "exceeds" then
       d ← self_data; mret (np_sum_bool ((λ x, (threshold <? x)%float) <$> d))
     else if String.eqb condition "below" then
       d ← self_data; mret (np_sum_bool ((λ x, (x <? threshold)%float) <$> d))
     else raise (ValueError "Condition must be 'exceeds' or 'below'"));
  n ← self_n_years;
  mret (float_of_Z count / float_of_nat n)%float.

Definition get_comfortable_probability (min_comfortable max_comfortable : float) : Method float :=
  d ← self_data;
  let comfortable_count :=
    np_sum_bool ((λ x, (min_comfortable <=? x)%float && (x <=? max_comfortable)%float) <$> d) in
  n ← self_n_years;
  mret (float_of_Z comfortable_count / float_of_nat n)%float.

Definition calculate_return_period (threshold : float) (condition : string) : Method float :=
  probability ← calculate_probability threshold condition;
  if (probability =? 0)%float then mret infinity
  else mret (1 / probability)%float.

(** ** Descriptive statistics *)

(** Modelled from the spec: numpy's [np.sum], [np.mean] and [np.std] are not
    part of the repository.  The mean is the sum divided by the count and the
    standard deviation is the square root of the mean squared deviation, with
    the count reduced by [ddof] (numpy clamps the reduced count at zero).
    Sums are taken from left to right, starting from the first element. *)
Definition np_sum (a : list float) : float :=
  match a with
  | [] => 0%float
  | x :: rest => fold_left PrimFloat.add rest x
  end.

Definition np_mean (a : list float) : float :=
  (np_sum a / float_of_nat (length a))%float.

Definition np_std (ddof : Z) (a : list float) : float :=
  let arrmean := np_mean a in
  let x := (λ v, ((v - arrmean) * (v - arrmean))%float) <$> a in
  let rcount := Z.max (Z.of_nat (length a) - ddof) 0 in
  PrimFloat.sqrt (np_sum x / float_of_Z rcount)%float.

(** Modelled from the spec: scipy's [stats.sem], the Bessel-corrected
    standard deviation divided by the square root of the sample size. *)
Definition stats_sem (a : list float) : float :=
  (np_std 1 a / PrimFloat.sqrt (float_of_nat (length a)))%float.

(** ** Exact linear-interpolation percentiles *)


#[global] Instance Qle_decision (x y : Q) : Decision (x <= y)%Q.
Proof.
  destruct (Qlt_le_dec y x) as [Hlt | Hle].
  - right. apply Qlt_not_le, Hlt.
  - left. exact Hle.
Defined.


(** [get_percentiles] is written over the percentile routine it calls, so
    that it can be read both with numpy's binary64 routine and with the
    exact interpolation above. *)
Definition get_percentiles {V} (np_percentile : list float → Z → V) : Method (gmap string V) :=
  d ← self_data;
  mret (list_to_map
    [ ("p10", np_percentile d 10%Z);
      ("p25", np_percentile d 25%Z);
      ("p50", np_percentile d 50%Z);
      ("p75", np_percentile d 75%Z);
      ("p90", np_percentile d 90%Z);
      ("p95", np_percentile d 95%Z);
      ("p99", np_percentile d 99%Z) ]).

(** ** Python operations used on dictionary entries *)

(** A dictionary display [{k1: v1, ...}] with distinct keys. *)
Definition dict (items : list (string * pyobj)) : gmap string pyobj :=
  list_to_map items.

(** [o[key]] for a string key. *)
Definition py_getitem (o : pyobj) (key : string) : outcome pyobj :=
  match o with
  | PDict d =>
      match d !! key with
      | Some v => Returned v
      | None => Raised (KeyError ("'" +:+ key +:+ "'"))
      end
  | PStr _ => Raised (TypeError "string indices must be integers")
  | PTuple _ => Raised (TypeError "tuple indices must be integers or slices")
  | _ => Raised (TypeError "object is not subscriptable")
  end.

Inductive pynum :=
  | NFloat (f : float)
  | NInt (z : Z).

(** Booleans are integers in Python. *)
Definition as_number (o : pyobj) : option pynum :=
  match o with
  | PFloat f => Some (NFloat f)
  | PInt z => Some (NInt z)
  | PBool b => Some (NInt (if b then 1 else 0))
  | _ => None
  end.

(** [o != 0]: a value that is not a number differs from 0. *)
Definition py_ne_zero (o : pyobj) : bool :=
  match as_number o with
  | Some (NFloat f) => negb (f =? 0)%float
  | Some (NInt z) => negb (z =? 0)%Z
  | None => true
  end.

(** [abs(o)] *)
Definition py_abs (o : pyobj) : outcome pynum :=
  match as_number o with
  | Some (NFloat f) => Returned (NFloat (PrimFloat.abs f))
  | Some (NInt z) => Returned (NInt (Z.abs z))
  | None => Raised (TypeError "bad operand type for abs()")
  end.

(** [float(z)] for an integer [z]. *)
Definition py_float (z : Z) : outcome float :=
  let f := float_of_Z z in
  if PrimFloat.is_infinity f then Raised (OverflowError "int too large to convert to float")
  else Returned f.

(** [a / b] for two integers: the correctly rounded quotient. *)
Definition int_truediv (a b : Z) : outcome float :=
  if (b =? 0)%Z then Raised (ZeroDivisionError "division by zero")
  else
    let s := xorb (a <? 0)%Z (b <? 0)%Z in
    let f :=
      if (a =? 0)%Z then SF2Prim (S754_zero s)
      else
        let '(q, e, l) := SFdiv_core_binary prec emax (Z.abs a) 0 (Z.abs b) 0 in
        SF2Prim (binary_round_aux prec emax s q e l) in
    if PrimFloat.is_infinity f then
      Raised (OverflowError "integer division result too large for a float")
    else Returned f.

(** [a / b], true division.  A binary64 division by zero follows numpy
    (it yields an infinity or NaN rather than raising). *)
Definition py_truediv (a : pyobj) (b : pynum) : outcome float :=
  match as_number a, b with
  | None, _ => Raised (TypeError "unsupported operand type(s) for /")
  | Some (NFloat x), NFloat y => Returned (x / y)%float
  | Some (NFloat x), NInt zb =>
      match py_float zb with
      | Returned y => Returned (x / y)%float
      | Raised e => Raised e
      end
  | Some (NInt za), NFloat y =>
      match py_float za with
      | Returned x => Returned (x / y)%float
      | Raised e => Raised e
      end
  | Some (NInt za), NInt zb => int_truediv za zb
  end.

(** ** Library routines that are outside the repository *)

Record LinregressResult := {
  slope : float;
  intercept : float;
  r_value : float;
  p_value : float;
  std_err : float }.

(** The numpy and scipy routines whose results the class only passes on.
    A routine that may raise returns an [outcome]. *)
Record Library := {
  np_median : list float → float;
  np_min : list float → float;
  np_max : list float → float;
  np_percentile : list float → Z → float;
  np_log : float → float;
  stats_linregress : list Z → list float → outcome LinregressResult;
  stats_gumbel_r_fit : list float → outcome (float * float);
  stats_gumbel_r_cdf : float → float → float → float;
  stats_kstest : list float → (float → float) → outcome (float * float);
  stats_t_ppf : float → Z → float;
  stats_norm_ppf : float → float }.

(** [np.arange(n)] *)
Definition np_arange (n : nat) : list Z := Z.of_nat <$> seq 0 n.

Definition return_periods : list Z := [2; 5; 10; 20; 50; 100]%Z.

(** The threshold configuration: any subset of [hot], [cold] and
    [comfortable] (a [min], [max] pair) may be present. *)
Record ThresholdSet := {
  hot : option float;
  cold : option float;
  comfortable : option (float * float) }.

Section Methods.
Variable L : Library.

(** ** Trend detection *)

Definition detect_trend : Method (gmap string pyobj) :=
  n ← self_n_years;
  let years := np_arange n in
  try_except
    (d ← self_data;
     r ← call (stats_linregress L years d);
     mret (dict
       [ ("slope", PFloat (slope r));
         ("intercept", PFloat (intercept r));
         ("r_value", PFloat (r_value r));
         ("p_value", PFloat (p_value r));
         ("std_err", PFloat (std_err r));
         ("significant", PBool (p_value r <? 0.05)%float);
         ("direction", PStr (if (0 <? slope r)%float then "increasing" else "decreasing"));
         ("trend_strength", PFloat (PrimFloat.abs (r_value r))) ]))
    (λ e,
     mret (dict
       [ ("slope", PInt 0);
         ("p_value", PInt 1);
         ("significant", PBool false);
         ("direction", PStr "no trend");
         ("error", PStr (str e)) ])).

(** ** Extreme value analysis *)

(** Modelled from the spec: scipy's [stats.gumbel_r.ppf] is not part of
    the repository; the quantile at probability [q] of the Gumbel
    distribution with location [loc] and scale [scale] is
    [loc - scale * ln(-ln q)], with [np_log] the library's logarithm. *)
Definition stats_gumbel_r_ppf (q loc scale : float) : float :=
  (loc - scale * np_log L (- np_log L q))%float.

Definition _gumbel_goodness_of_fit (params : float * float) : Method (gmap string pyobj) :=
  try_except
    (d ← self_data;
     ks ← call (stats_kstest L d (λ x, stats_gumbel_r_cdf L x params.1 params.2));
     let ks_stat := ks.1 in
     let ks_p_value := ks.2 in
     mret (dict
       [ ("ks_statistic", PFloat ks_stat);
         ("ks_p_value", PFloat ks_p_value);
         ("fit_quality", PStr (if (0.05 <? ks_p_value)%float then "good" else "poor")) ]))
    (λ _, mret (dict [ ("fit_quality", PStr "unknown") ])).

Definition get_extreme_value_analysis : Method (gmap string pyobj) :=
  try_except
    (d ← self_data;
     params ← call (stats_gumbel_r_fit L d);
     let return_values :=
       fold_left
         (λ (acc : gmap string pyobj) (period : Z),
            let probability := (1 - 1 / float_of_Z period)%float in
            let return_value := stats_gumbel_r_ppf probability params.1 params.2 in
            <[pretty period +:+ "_year" := PFloat return_value]> acc)
         return_periods ∅ in
     goodness ← _gumbel_goodness_of_fit params;
     mret (dict
       [ ("distribution_params", PTuple [PFloat params.1; PFloat params.2]);
         ("return_values", PDict return_values);
         ("goodness_of_fit", PDict goodness) ]))
    (λ e, mret (dict [ ("error", PStr (str e)) ])).

(** ** Risk categorization *)

(** The statements guarded by [try] in [_categorize_risk]. *)
Definition _categorize_risk_body (assessment : pyobj) : Method string :=
  stats1 ← call (py_getitem assessment "basic_stats");
  std_dev ← call (py_getitem stats1 "std_dev");
  stats2 ← call (py_getitem assessment "basic_stats");
  mean ← call (py_getitem stats2 "mean");
  cv ←
    (if py_ne_zero mean then
       a ← call (py_abs mean); call (py_truediv std_dev a)
     else mret infinity);
  if (cv <? 0.1)%float then mret "Low"
  else if (cv <? 0.3)%float then mret "Moderate"
  else if (cv <? 0.5)%float then mret "High"
  else mret "Very High".

Definition _categorize_risk (assessment : pyobj) : Method string :=
  try_except (_categorize_risk_body assessment) (λ _, mret "Unknown").

(** ** The composite assessment *)

Definition generate_risk_assessment (thresholds : ThresholdSet) : Method (gmap string pyobj) :=
  d ← self_data;
  n ← self_n_years;
  percentiles ← get_percentiles (np_percentile L);
  trend ← detect_trend;
  let assessment0 := dict
    [ ("basic_stats", PDict (dict
        [ ("mean", PFloat (np_mean d));
          ("median", PFloat (np_median L d));
          ("std_dev", PFloat (np_std 0 d));
          ("min_recorded", PFloat (np_min L d));
          ("max_recorded", PFloat (np_max L d));
          ("data_years", PInt (Z.of_nat n)) ]));
      ("percentiles", PDict (PFloat <$> percentiles));
      ("trend_analysis", PDict trend) ] in
  assessment1 ←
    match hot thresholds with
    | Some t =>
        p ← calculate_probability t "exceeds";
        rp ← calculate_return_period t "exceeds";
        mret (<["hot_return_period" := PFloat rp]>
                (<["very_hot_probability" := PFloat p]> assessment0))
    | None => mret assessment0
    end;
  assessment2 ←
    match cold thresholds with
    | Some t =>
        p ← calculate_probability t "below";
        rp ← calculate_return_period t "below";
        mret (<["cold_return_period" := PFloat rp]>
                (<["very_cold_probability" := PFloat p]> assessment1))
    | None => mret assessment1
    end;
  assessment3 ←
    match comfortable thresholds with
    | Some comfort =>
        p ← get_comfortable_probability comfort.1 comfort.2;
        mret (<["comfortable_probability" := PFloat p]> assessment2)
    | None => mret assessment2
    end;
  extreme ← get_extreme_value_analysis;
  let assessment4 := <["extreme_values" := PDict extreme]> assessment3 in
  risk ← _categorize_risk (PDict assessment4);
  mret (<["risk_category" := PStr risk]> assessment4).

(** ** Confidence interval of the mean *)

Definition confidence_interval (confidence_level : float) : Method (float * float) :=
  d ← self_data;
  n ← self_n_years;
  let alpha := (1 - confidence_level)%float in
  let mean := np_mean d in
  let std_err := stats_sem d in
  let margin_error :=
    if (n <? 30)%nat then
      (stats_t_ppf L (1 - alpha / 2) (Z.of_nat n - 1) * std_err)%float
    else
      (stats_norm_ppf L (1 - alpha / 2) * std_err)%float in
  mret ((mean - margin_error)%float, (mean + margin_error)%float).

End Methods.

(** ** Notions used in the statements *)

(** The number of observations strictly above, strictly below and equal
    to a threshold, and the number inside a closed interval. *)
Definition count_above (t : float) (sample : list float) : nat :=
  length (List.filter (λ x, (t <? x)%float) sample).

Definition count_below (t : float) (sample : list float) : nat :=
  length (List.filter (λ x, (x <? t)%float) sample).

Definition ties (t : float) (sample : list float) : list float :=
  List.filter (λ x, (x =? t)%float) sample.

Definition count_within (lo hi : float) (sample : list float) : nat :=
  length (List.filter (λ x, (lo <=? x)%float && (x <=? hi)%float) sample).

(** The binary64 number just below 1, that is [1 - 2^-53]. *)
Definition one_minus_half_ulp : float := 0x1.fffffffffffffp-1%float.

(** The binary64 numbers [1 - 2^-52] and [1 + 2^-52]; the second is the
    number just above 1. *)
Definition one_minus_ulp : float := 0x1.ffffffffffffep-1%float.
Definition one_plus_ulp : float := 0x1.0000000000001p+0%float.

(** A check that the quotient [p] of two binary64 numbers is zero or has
    [(1 / p) * p] equal to 1 or to the number just below 1; its iteration
    over all pairs of a table, each entry against itself and the earlier
    ones; and the table of the counts up to [bound]. *)
Definition product_ok (fc fn : float) : bool :=
  let p := (fc / fn)%float in
  let product := ((1 / p) * p)%float in
  (p =? 0)%float || PrimFloat.Leibniz.eqb product 1%float
    || PrimFloat.Leibniz.eqb product one_minus_half_ulp.

Fixpoint pairs_ok (smaller rest : list float) : bool :=
  match rest with
  | [] => true
  | fn :: rest' =>
      forallb (λ fc, product_ok fc fn) (fn :: smaller) && pairs_ok (fn :: smaller) rest'
  end.

Definition products_ok_upto (bound : nat) : bool :=
  pairs_ok [float_of_nat 0] (float_of_nat <$> seq 1 bound).

(** ** Binary64 rounding *)

(** The exponent function of binary64. *)
Definition fexp64 (e : Z) : Z := Z.max (e - 53) (-1074).

(** A mantissa and exponent in the canonical form of the format. *)
Definition canonical64 (m : positive) (e : Z) : Prop :=
  fexp64 (Z.pos (digits2_pos m) + e) = e.

(** The value of a mantissa and exponent, as a multiple of the smallest
    positive binary64 number. *)
Definition scaled (m e : Z) : Z := (m * 2 ^ (e + 1074))%Z.

(** ** Sample inputs *)

(** Twenty years of which nineteen exceed 25 degrees. *)
Definition nineteen_of_twenty : list float := 20%float :: replicate 19 30%float.

(** The scenario of the specification: five years, threshold 25. *)
Definition five_years : list float := [10; 20; 30; 40; 50]%float.

Definition five_years_analyzer : Analyzer := {| data := five_years; n_years := 5 |}.

(** An assessment whose statistics give a coefficient of variation of
    exactly 0.1, and one without statistics. *)
Definition assessment_cv_tenth : pyobj :=
  PDict (dict [ ("basic_stats",
    PDict (dict [ ("std_dev", PFloat 0.1); ("mean", PFloat 1) ])) ]).

Definition assessment_without_stats : pyobj := PDict (dict [ ("risk_category", PNone) ]).

(** Library routines for the sample evaluations: a regression that always
    fails, as on an empty input, and one that fits a fixed line; the other
    routines return fixed values. *)
Definition failing_library : Library := {|
  np_median := λ _, 30%float;
  np_min := λ _, 10%float;
  np_max := λ _, 50%float;
  np_percentile := λ _ _, 30%float;
  np_log := λ x, x;
  stats_linregress := λ _ _, Raised (ValueError "Inputs must not be empty.");
  stats_gumbel_r_fit := λ _, Raised (LibraryError "fit failed");
  stats_gumbel_r_cdf := λ _ _ _, 0.5%float;
  stats_kstest := λ _ _, Raised (LibraryError "test failed");
  stats_t_ppf := λ _ _, 2.7764451051977987%float;
  stats_norm_ppf := λ _, 1.959963984540054%float |}.

Definition fitting_library : Library := {|
  np_median := λ _, 30%float;
  np_min := λ _, 10%float;
  np_max := λ _, 50%float;
  np_percentile := λ _ _, 30%float;
  np_log := λ x, x;
  stats_linregress := λ _ _,
    Returned {| slope := 10; intercept := 10; r_value := 1; p_value := 0; std_err := 0 |};
  stats_gumbel_r_fit := λ _, Returned (25%float, 10%float);
  stats_gumbel_r_cdf := λ _ _ _, 0.5%float;
  stats_kstest := λ _ _, Returned (0.2%float, 0.9%float);
  stats_t_ppf := λ _ _, 2.7764451051977987%float;
  stats_norm_ppf := λ _, 1.959963984540054%float |}.

Definition no_thresholds : ThresholdSet := {| hot := None; cold := None; comfortable := None |}.

(** A sample with a single year. *)
Definition single_year : list float := [5%float].
Definition single_year_analyzer : Analyzer := {| data := single_year; n_years := 1 |}.

(** Thirty years with the same value. *)
Definition constant_years : list float := replicate 30 20%float.

(** A library whose Gumbel fit succeeds while the goodness-of-fit test
    fails. *)
Definition untestable_library : Library := {|
  np_median := λ _, 30%float;
  np_min := λ _, 10%float;
  np_max := λ _, 50%float;
  np_percentile := λ _ _, 30%float;
  np_log := λ x, x;
  stats_linregress := λ _ _,
    Returned {| slope := 10; intercept := 10; r_value := 1; p_value := 0; std_err := 0 |};
  stats_gumbel_r_fit := λ _, Returned (25%float, 10%float);
  stats_gumbel_r_cdf := λ _ _ _, 0.5%float;
  stats_kstest := λ _ _, Raised (LibraryError "test failed");
  stats_t_ppf := λ _ _, 2.7764451051977987%float;
  stats_norm_ppf := λ _, 1.959963984540054%float |}.

(** A threshold configuration with all three entries. *)
Definition all_thresholds : ThresholdSet :=
  {| hot := Some 32%float; cold := Some 15%float; comfortable := Some (20%float, 28%float) |}.

(** ** Monthly statistics *)

(** The pandas routines that [get_monthly_statistics] calls.  [pd_months]
    stands for [pd.to_datetime(dates)] followed by [.dt.month]: it raises
    on a date string that does not parse, and a missing date (NaT) has no
    month.  The other routines are the statistics of a pandas series. *)
Record Pandas := {
  pd_months : list string → outcome (list (option Z));
  series_mean : list float → float;
  series_std : list float → float;
  series_min : list float → float;
  series_max : list float → float }.

(** [df[df['month'] == month]['value']]: the values of the rows with the
    given month. *)
Definition month_values (months : list (option Z)) (values : list float) (month : Z)
    : list float :=
  snd <$> List.filter (λ row, bool_decide (row.1 = Some month)) (zip months values).

(** [range(1, 13)] *)
Definition month_range : list Z := Z.of_nat <$> seq 1 12.

Section MonthlyStatistics.
Variable P : Pandas.

(** The result is paired with the lines that the method prints. *)
Definition get_monthly_statistics (dates : option (list string))
    : Method (gmap Z (gmap string pyobj) * list string) :=
  d ← self_data;
  match dates with
  | None => mret (∅, [])
  | Some dates =>
      if negb (length dates =? length d)%nat then mret (∅, [])
      else
        try_except
          (months ← call (pd_months P dates);
           (* the data frame needs columns of one length *)
           if negb (length months =? length d)%nat then
             raise (ValueError "All arrays must be of the same length")
           else
             mret
               (fold_left
                  (λ (monthly_stats : gmap Z (gmap string pyobj)) (month : Z),
                     let month_data := month_values months d month in
                     if (0 <? length month_data)%nat then
                       <[month := dict
                          [ ("mean", PFloat (series_mean P month_data));
                            ("std", PFloat (series_std P month_data));
                            ("min", PFloat (series_min P month_data));
                            ("max", PFloat (series_max P month_data));
                            ("count", PInt (Z.of_nat (length month_data))) ]]> monthly_stats
                     else monthly_stats)
                  month_range ∅,
                []))
          (λ e, mret (∅, ["Error calculating monthly statistics: " +:+ str e]))
  end.

End MonthlyStatistics.

(** The number of dates that fall in a month, and the count that a table
    of monthly statistics records for a month (0 when the month has no
    entry). *)
Definition dates_in_month (months : list (option Z)) (month : Z) : nat :=
  length (List.filter (λ o, bool_decide (o = Some month)) months).

Definition recorded_count (stats : gmap Z (gmap string pyobj)) (month : Z) : Z :=
  match stats !! month with
  | Some record =>
      match record !! "count" with
      | Some (PInt c) => c
      | _ => 0%Z
      end
  | None => 0%Z
  end.

(** Pandas routines for the sample evaluations: one that places five
    dates in January and July alternately, and one that fails to parse;
    the statistics return fixed values. *)
Definition sample_pandas : Pandas := {|
  pd_months := λ _, Returned [Some 1; Some 7; Some 1; Some 7; Some 1]%Z;
  series_mean := λ _, 30%float;
  series_std := λ _, 10%float;
  series_min := λ _, 10%float;
  series_max := λ _, 50%float |}.

Definition failing_pandas : Pandas := {|
  pd_months := λ _, Raised (ValueError "Unknown datetime string format");
  series_mean := λ _, 30%float;
  series_std := λ _, 10%float;
  series_min := λ _, 10%float;
  series_max := λ _, 50%float |}.

Definition five_dates : list string :=
  ["2019-01-15"; "2019-07-15"; "2020-01-15"; "2020-07-15"; "2021-01-15"].

(** * The query processor

    The class [WeatherQueryProcessor] of [src/src/weather_query_processor.py]
    calls the analyzer for every requested parameter.  Its dictionaries
    are finite maps from strings to Python values; where the order of
    insertion matters they are association lists.  A function that
    returns an [option] is defined on the values that the processor
    itself builds: [None] stands for a value of another type, on which the
    behaviour of the source is not modelled. *)

(** ** Text *)

(** [needle in hay] for two strings. *)
Fixpoint str_contains (needle hay : string) : bool :=
  String.prefix needle hay ||
  match hay with
  | EmptyString => false
  | String _ rest => str_contains needle rest
  end.

(** [s.split(sep)] for a separator of one character: the first part and
    the list of the further parts. *)
Fixpoint str_split (sep : Ascii.ascii) (s : string) : string * list string :=
  match s with
  | EmptyString => (EmptyString, [])
  | String c rest =>
      let parts := str_split sep rest in
      if Ascii.eqb c sep then (EmptyString, parts.1 :: parts.2)
      else (String c parts.1, parts.2)
  end.

(** The character [:]. *)
Definition colon : Ascii.ascii := Ascii.ascii_of_nat 58.

(** [s.lower()] on ASCII text: the letters A to Z are replaced by a to z
    and every other character is kept. *)
Definition ascii_lower (c : Ascii.ascii) : Ascii.ascii :=
  let n := Ascii.nat_of_ascii c in
  if (65 <=? n)%nat && (n <=? 90)%nat then Ascii.ascii_of_nat (n + 32) else c.

Fixpoint str_lower (s : string) : string :=
  match s with
  | EmptyString => EmptyString
  | String c rest => String (ascii_lower c) (str_lower rest)
  end.

(** Text of ASCII characters only. *)
Fixpoint ascii_only (s : string) : bool :=
  match s with
  | EmptyString => true
  | String c rest => (Ascii.nat_of_ascii c <? 128)%nat && ascii_only rest
  end.

(** The truth value of a Python value. *)
Definition py_bool (o : pyobj) : bool :=
  match o with
  | PBool b => b
  | PInt z => negb (z =? 0)%Z
  | PFloat f => negb (f =? 0)%float
  | PStr s => negb (String.eqb s "")
  | PNone => false
  | PTuple items => negb (bool_decide (items = []))
  | PDict entries => negb (bool_decide (size entries = 0))
  end.

(** The text that an f-string inserts for a string value. *)
Definition format_text (o : pyobj) : option string :=
  match o with
  | PStr s => Some s
  | _ => None
  end.

(** A dictionary that keeps the order of insertion: [d[key] = v]. *)
Fixpoint odict_set {V} (key : string) (v : V) (d : list (string * V)) : list (string * V) :=
  match d with
  | [] => [(key, v)]
  | (k, w) :: rest =>
      if String.eqb k key then (k, v) :: rest else (k, w) :: odict_set key v rest
  end.

(** ** Parameter codes *)

(** [get_available_parameters] of the data client. *)
Definition get_available_parameters : list (string * string) :=
  [ ("t_2m:C", "Temperature at 2m (Celsius)");
    ("t_max_2m_24h:C", "Maximum Temperature 24h (Celsius)");
    ("t_min_2m_24h:C", "Minimum Temperature 24h (Celsius)");
    ("precip_24h:mm", "Precipitation 24h (mm)");
    ("wind_speed_10m:ms", "Wind Speed at 10m (m/s)");
    ("wind_gusts_10m_24h:ms", "Wind Gusts 24h (m/s)");
    ("relative_humidity_2m:p", "Relative Humidity at 2m (%)");
    ("msl_pressure:hPa", "Mean Sea Level Pressure (hPa)");
    ("sunshine_duration_24h:h", "Sunshine Duration 24h (hours)") ].

(** The table [PARAMETER_THRESHOLDS] of [src/config.py]. *)
Definition PARAMETER_THRESHOLDS : gmap string (gmap string pyobj) :=
  list_to_map
    [ ("t_2m", dict
        [ ("hot", PInt 32); ("cold", PInt 0);
          ("comfortable", PDict (dict [ ("min", PInt 18); ("max", PInt 24) ]));
          ("extreme_hot", PInt 40); ("extreme_cold", PInt (-10)) ]);
      ("t_max_2m_24h", dict
        [ ("hot", PInt 35); ("cold", PInt 5);
          ("comfortable", PDict (dict [ ("min", PInt 20); ("max", PInt 28) ]));
          ("extreme_hot", PInt 45); ("extreme_cold", PInt (-5)) ]);
      ("t_min_2m_24h", dict
        [ ("hot", PInt 25); ("cold", PInt (-5));
          ("comfortable", PDict (dict [ ("min", PInt 10); ("max", PInt 20) ]));
          ("extreme_hot", PInt 30); ("extreme_cold", PInt (-15)) ]);
      ("precip_24h", dict
        [ ("wet", PInt 25); ("dry", PFloat 0.1);
          ("comfortable", PDict (dict [ ("min", PInt 0); ("max", PInt 5) ]));
          ("extreme_wet", PInt 50); ("extreme_dry", PInt 0) ]);
      ("wind_speed_10m", dict
        [ ("windy", PInt 40); ("calm", PInt 10);
          ("comfortable", PDict (dict [ ("min", PInt 0); ("max", PInt 25) ]));
          ("extreme_windy", PInt 70); ("extreme_calm", PInt 5) ]);
      ("relative_humidity_2m", dict
        [ ("humid", PInt 80); ("dry", PInt 30);
          ("comfortable", PDict (dict [ ("min", PInt 40); ("max", PInt 60) ]));
          ("extreme_humid", PInt 95); ("extreme_dry", PInt 15) ]) ].

Definition _get_thresholds (parameter_thresholds : gmap string (gmap string pyobj))
    (parameter : string) : gmap string pyobj :=
  let param_key := str_lower (str_split colon parameter).1 in
  default ∅ (parameter_thresholds !! param_key).

Definition parameter_descriptions : gmap string string :=
  list_to_map
    [ ("t_2m:C", "Temperature at 2 meters above ground");
      ("t_max_2m_24h:C", "Maximum temperature in 24 hours");
      ("t_min_2m_24h:C", "Minimum temperature in 24 hours");
      ("precip_24h:mm", "Precipitation in 24 hours");
      ("wind_speed_10m:ms", "Wind speed at 10 meters height");
      ("wind_gusts_10m_24h:ms", "Maximum wind gusts in 24 hours");
      ("relative_humidity_2m:p", "Relative humidity at 2 meters");
      ("msl_pressure:hPa", "Mean sea level pressure");
      ("sunshine_duration_24h:h", "Sunshine duration in 24 hours") ].

Definition _get_parameter_description (parameter : string) : string :=
  default parameter (parameter_descriptions !! parameter).

(** [None] stands for the IndexError of [parameter.split(':')[1]]. *)
Definition _get_parameter_units (parameter : string) : option string :=
  if str_contains ":" parameter then head (str_split colon parameter).2
  else Some EmptyString.

(** ** The thresholds as the analyzer reads them *)

(** A threshold value in a comparison with the sample: a binary64 number
    is used as it is and an integer is converted to binary64. *)
Definition threshold_level (o : pyobj) : option float :=
  match as_number o with
  | Some (NFloat f) => Some f
  | Some (NInt z) => Some (float_of_Z z)
  | None => None
  end.

(** What [generate_risk_assessment] reads from the dictionary of
    thresholds: the entries 'hot' and 'cold', when present, and the
    entries 'min' and 'max' of the entry 'comfortable', when present.  A
    comfortable range without 'min' or 'max' raises the KeyError. *)
Definition read_thresholds (thresholds : gmap string pyobj) : option (outcome ThresholdSet) :=
  hot ← match thresholds !! "hot" with
        | None => Some None
        | Some o => Some <$> threshold_level o
        end;
  cold ← match thresholds !! "cold" with
         | None => Some None
         | Some o => Some <$> threshold_level o
         end;
  match thresholds !! "comfortable" with
  | None => Some (Returned {| hot := hot; cold := cold; comfortable := None |})
  | Some (PDict comfort) =>
      match comfort !! "min" with
      | None => Some (Raised (KeyError "'min'"))
      | Some lo =>
          match comfort !! "max" with
          | None => Some (Raised (KeyError "'max'"))
          | Some hi =>
              lo ← threshold_level lo;
              hi ← threshold_level hi;
              Some (Returned {| hot := hot; cold := cold; comfortable := Some (lo, hi) |})
          end
      end
  | Some _ => None
  end.

(** ** Interpretation of an assessment *)

Definition interpretation_error (e : exn) : gmap string string :=
  {[ "error" := "Could not generate interpretation: " +:+ str e ]}.

Definition _interpret_results (parameter : string) (assessment : gmap string pyobj)
    : option (gmap string string) :=
  match assessment !! "basic_stats" with
  | None => Some (interpretation_error (KeyError "'basic_stats'"))
  | Some (PDict basic_stats) =>
      match basic_stats !! "mean" with
      | None => Some (interpretation_error (KeyError "'mean'"))
      | Some (PFloat mean_val) =>
          match basic_stats !! "std_dev" with
          | None => Some (interpretation_error (KeyError "'std_dev'"))
          | Some (PFloat std_val) =>
              let param_key := str_lower (str_split colon parameter).1 in
              (* the integer 0 of the source compares as the binary64 zero *)
              let cv :=
                if negb (mean_val =? 0)%float then (std_val / PrimFloat.abs mean_val)%float
                else 0%float in
              let interpretation1 : gmap string string :=
                {[ "variability" :=
                     if (cv <? 0.1)%float then "Very consistent conditions"
                     else if (cv <? 0.2)%float then "Fairly consistent conditions"
                     else if (cv <? 0.3)%float then "Moderate variability"
                     else "High variability" ]} in
              trend ← match assessment !! "trend_analysis" with
                      | None => Some ∅
                      | Some (PDict trend) => Some trend
                      | Some _ => None
                      end;
              trend_text ←
                (if py_bool (default (PBool false) (trend !! "significant")) then
                   direction ← format_text (default (PStr "unknown") (trend !! "direction"));
                   Some ("Significant " +:+ direction +:+ " trend detected")
                 else Some "No significant trend detected");
              let interpretation2 := <["trend" := trend_text]> interpretation1 in
              let interpretation3 :=
                if str_contains "t_2m" param_key then
                  <["typical_conditions" :=
                      if (mean_val <? 10)%float then "Typically cold conditions"
                      else if (25 <? mean_val)%float then "Typically warm conditions"
                      else "Typically mild conditions"]> interpretation2
                else if str_contains "precip" param_key then
                  <["typical_conditions" :=
                      if (mean_val <? 1)%float then "Typically dry conditions"
                      else if (10 <? mean_val)%float then "Typically wet conditions"
                      else "Typically moderate precipitation"]> interpretation2
                else if str_contains "wind" param_key then
                  <["typical_conditions" :=
                      if (mean_val <? 15)%float then "Typically calm conditions"
                      else if (30 <? mean_val)%float then "Typically windy conditions"
                      else "Typically moderate wind"]> interpretation2
                else interpretation2 in
              risk_category ← format_text (default (PStr "Unknown") (assessment !! "risk_category"));
              Some (<["risk_level" := "Risk level: " +:+ risk_category]> interpretation3)
          | Some _ => None
          end
      | Some _ => None
      end
  | Some _ => None
  end.

(** ** Summary of a query *)

Record Summary := {
  total_parameters : nat;
  successful_analyses : nat;
  failed_analyses : nat;
  overall_risk_levels : list string;
  key_findings : list string;
  (** the entry is absent when no analysis succeeded *)
  dominant_risk_level : option string }.

(** [risk_counts[risk] = risk_counts.get(risk, 0) + 1], keeping the order
    in which the levels are first seen. *)
Fixpoint count_risk (risk : string) (risk_counts : list (string * nat)) : list (string * nat) :=
  match risk_counts with
  | [] => [(risk, 1)]
  | (k, c) :: rest =>
      if String.eqb k risk then (k, S c) :: rest else (k, c) :: count_risk risk rest
  end.

(** [max(risk_counts, key=risk_counts.get)]: the first key with the
    largest count. *)
Definition max_by_count (risk_counts : list (string * nat)) : option string :=
  fst <$>
    fold_left
      (λ (best : option (string * nat)) (entry : string * nat),
         match best with
         | None => Some entry
         | Some b => if (b.2 <? entry.2)%nat then Some entry else best
         end)
      risk_counts None.

(** The loop of [_generate_summary] over the analyses, on the numbers of
    successes and failures, the risk levels and the key findings. *)
Fixpoint summarize (parameters : list (string * gmap string pyobj))
    (successful failed : nat) (risk_levels findings : list string)
    : option (nat * nat * list string * list string) :=
  match parameters with
  | [] => Some (successful, failed, risk_levels, findings)
  | (param, analysis) :: rest =>
      match analysis !! "error" with
      | Some _ => summarize rest successful (S failed) risk_levels findings
      | None =>
          risk_level ← format_text (default (PStr "Unknown") (analysis !! "risk_category"));
          interpretation ← match analysis !! "interpretation" with
                           | None => Some ∅
                           | Some (PDict i) => Some i
                           | Some _ => None
                           end;
          findings' ← match interpretation !! "trend" with
                      | None => Some findings
                      | Some (PStr trend) =>
                          if str_contains "significant" (str_lower trend)
                          then Some (findings ++ [param +:+ ": " +:+ trend])
                          else Some findings
                      | Some _ => None
                      end;
          summarize rest (S successful) failed (risk_levels ++ [risk_level]) findings'
      end
  end.

(** The entries that count as failed analyses. *)
Definition is_failed (entry : string * gmap string pyobj) : bool :=
  bool_decide (is_Some (entry.2 !! "error")).

Definition _generate_summary (parameters : list (string * gmap string pyobj)) : option Summary :=
  '(successful, failed, risk_levels, findings) ← summarize parameters 0 0 [] [];
  Some {|
    total_parameters := length parameters;
    successful_analyses := successful;
    failed_analyses := failed;
    overall_risk_levels := risk_levels;
    key_findings := findings;
    dominant_risk_level :=
      match risk_levels with
      | [] => None
      | _ => max_by_count (fold_left (λ counts risk, count_risk risk counts) risk_levels [])
      end |}.

(** ** Processing a query *)

(** What the processor obtains from outside: the day of the year of a
    date string in the format YYYY-MM-DD ([None] when [strptime] rejects
    the string), and the historical data of the data client, which may
    raise. *)
Record Services := {
  day_of_year : string → option Z;
  get_historical_data : pyobj → pyobj → string → Z → Z → outcome (list float) }.

(** The entry 'location' is called [query_location] here. *)
Record QueryResults := {
  query_location : gmap string pyobj;
  query_date : string;
  analysis_years : Z;
  parameters : list (string * gmap string pyobj);
  summary : Summary }.

Definition error_entry (message : string) : gmap string pyobj :=
  dict [ ("error", PStr message) ].

Section Processor.
Variable services : Services.
Variable L : Library.
Variable parameter_thresholds : gmap string (gmap string pyobj).

(** The body of the loop of [process_query] for one parameter: the entry
    stored for the parameter, with the warnings that the construction of
    the analyzer emits. *)
Definition analyse_parameter (location : gmap string pyobj) (param : string)
    (day analysis_years : Z) : option (gmap string pyobj * list string) :=
  match location !! "lat" with
  | None => Some (error_entry "'lat'", [])
  | Some lat =>
      match location !! "lon" with
      | None => Some (error_entry "'lon'", [])
      | Some lon =>
          match get_historical_data services lat lon param day analysis_years with
          | Raised e => Some (error_entry (str e), [])
          | Returned historical_data =>
              if (0 <? length historical_data)%nat then
                match __init__ historical_data with
                | Raised e => Some (error_entry (str e), [])
                | Returned (analyzer, warnings) =>
                    let thresholds := _get_thresholds parameter_thresholds param in
                    reading ← read_thresholds thresholds;
                    match reading with
                    | Raised e => Some (error_entry (str e), warnings)
                    | Returned threshold_set =>
                        match (generate_risk_assessment L threshold_set analyzer).2 with
                        | Raised e => Some (error_entry (str e), warnings)
                        | Returned assessment =>
                            match _get_parameter_units param with
                            | None => Some (error_entry "list index out of range", warnings)
                            | Some units =>
                                let assessment1 :=
                                  <["parameter_info" := PDict (dict
                                     [ ("code", PStr param);
                                       ("description", PStr (_get_parameter_description param));
                                       ("units", PStr units);
                                       ("thresholds_used", PDict thresholds) ])]> assessment in
                                interpretation ← _interpret_results param assessment1;
                                Some (<["interpretation" := PDict (PStr <$> interpretation)]>
                                        assessment1,
                                      warnings)
                            end
                        end
                    end
                end
              else Some (error_entry "No historical data available", [])
          end
      end
  end.

(** One round of the loop: the entry of the parameter is stored and the
    warnings are collected. *)
Definition store_parameter (location : gmap string pyobj) (day analysis_years : Z)
    (state : option (list (string * gmap string pyobj) * list string)) (param : string)
    : option (list (string * gmap string pyobj) * list string) :=
  '(entries, warnings) ← state;
  '(entry, emitted) ← analyse_parameter location param day analysis_years;
  Some (odict_set param entry entries, warnings ++ emitted).

(** The result is paired with the warnings emitted. *)
Definition process_query (location : gmap string pyobj) (date : string)
    (parameters : list string) (analysis_years : Z)
    : option (outcome QueryResults * list string) :=
  match day_of_year services date with
  | None => Some (Raised (ValueError "Date must be in format YYYY-MM-DD"), [])
  | Some day =>
      '(entries, warnings) ←
        foldl (store_parameter location day analysis_years) (Some ([], [])) parameters;
      summary ← _generate_summary entries;
      Some (Returned {|
              query_location := location;
              query_date := date;
              analysis_years := analysis_years;
              parameters := entries;
              summary := summary |},
            warnings)
  end.

End Processor.

(** The number of times that a risk level occurs in a list of levels. *)
Definition occurrences (risk : string) (levels : list string) : nat :=
  length (List.filter (String.eqb risk) levels).

(** Entries for the sample evaluations: an analysis without significant
    trend, one with an increasing trend and a failed one. *)
Definition sample_entries : list (string * gmap string pyobj) :=
  [ ("t_2m:C", dict
      [ ("risk_category", PStr "Low");
        ("interpretation", PDict (dict [ ("trend", PStr "No significant trend detected") ])) ]);
    ("precip_24h:mm", error_entry "No historical data available");
    ("wind_speed_10m:ms", dict
      [ ("risk_category", PStr "High");
        ("interpretation", PDict (dict [ ("trend", PStr "Significant increasing trend detected") ])) ]);
    ("t_max_2m_24h:C", dict
      [ ("risk_category", PStr "Low");
        ("interpretation", PDict (dict [ ("trend", PStr "No significant trend detected") ])) ]) ].

Definition sample_summary : Summary := {|
  total_parameters := 4;
  successful_analyses := 3;
  failed_analyses := 1;
  overall_risk_levels := ["Low"; "High"; "Low"];
  key_findings :=
    [ "t_2m:C: No significant trend detected";
      "wind_speed_10m:ms: Significant increasing trend detected";
      "t_max_2m_24h:C: No significant trend detected" ];
  dominant_risk_level := Some "Low" |}.

(** The entries that [process_query] stores for an analysed parameter: no
    'error', a risk category, and an interpretation whose trend text
    contains the word 'significant'. *)
Definition is_analysis (entry : gmap string pyobj) : Prop :=
  entry !! "error" = None ∧
  (∃ category, entry !! "risk_category" = Some (PStr category)) ∧
  ∃ (interpretation : gmap string pyobj) (text : string),
    entry !! "interpretation" = Some (PDict interpretation) ∧
    interpretation !! "trend" = Some (PStr text) ∧
    str_contains "significant" (str_lower text) = true.

(** Services for the sample evaluations: every date is the 196th day of
    its year, and the data client returns five years for temperature,
    nothing for precipitation and fails for every other parameter. *)
Definition sample_services : Services := {|
  day_of_year := λ date, if String.eqb date "" then None else Some 196%Z;
  get_historical_data := λ _ _ param _ _,
    if String.eqb param "t_2m:C" then Returned five_years
    else if String.eqb param "precip_24h:mm" then Returned []
    else Raised (LibraryError "no data for this parameter") |}.

Definition sample_location : gmap string pyobj :=
  dict [ ("lat", PFloat 40.7128); ("lon", PFloat (-74.006)) ].

(** The result of the sample query for precipitation and pressure, for
    which the sample services have no data. *)
Definition sample_results : QueryResults := {|
  query_location := sample_location;
  query_date := "2024-07-14";
  analysis_years := 30;
  parameters :=
    [ ("precip_24h:mm", error_entry "No historical data available");
      ("msl_pressure:hPa", error_entry "no data for this parameter") ];
  summary := {|
    total_parameters := 2;
    successful_analyses := 0;
    failed_analyses := 2;
    overall_risk_levels := [];
    key_findings := [];
    dominant_risk_level := None |} |}.

(** ** Validation of the inputs *)

(** [float(o)].  The conversion of a string parses its text, which is not
    modelled: the result is [None] for a string.  The TypeError is that of
    a value that is neither a string nor a number (its message ends in the
    name of the type of the value, which is left out). *)
Definition float_of_pyobj (o : pyobj) : option (outcome float) :=
  match o with
  | PFloat f => Some (Returned f)
  | PInt z => Some (py_float z)
  | PBool b => Some (Returned (if b then 1 else 0)%float)
  | PStr _ => None
  | PNone | PTuple _ | PDict _ =>
      Some (Raised (TypeError "float() argument must be a string or a real number"))
  end.

(** The two range tests on the converted coordinates. *)
Definition coordinate_errors (lat lon : float) : list string :=
  (if (-90 <=? lat)%float && (lat <=? 90)%float then []
   else ["Latitude must be between -90 and 90"]) ++
  (if (-180 <=? lon)%float && (lon <=? 180)%float then []
   else ["Longitude must be between -180 and 180"]).

(** [except (ValueError, TypeError)] around the conversions: every other
    exception leaves [validate_inputs]. *)
Definition numeric_handler (e : exn) : outcome (list string) :=
  match e with
  | ValueError _ | TypeError _ => Returned ["Latitude and longitude must be numeric"]
  | _ => Raised e
  end.

(** The errors of the location. *)
Definition location_errors (location : pyobj) : option (outcome (list string)) :=
  match location with
  | PDict d =>
      match d !! "lat", d !! "lon" with
      | Some lat_value, Some lon_value =>
          lat ← float_of_pyobj lat_value;
          match lat with
          | Raised e => Some (numeric_handler e)
          | Returned lat =>
              lon ← float_of_pyobj lon_value;
              match lon with
              | Raised e => Some (numeric_handler e)
              | Returned lon => Some (Returned (coordinate_errors lat lon))
              end
          end
      | _, _ => Some (Returned ["Location must contain 'lat' and 'lon' keys"])
      end
  | _ => Some (Returned ["Location must be a dictionary"])
  end.

(** [param not in available_params] *)
Definition is_available (param : string) : bool :=
  bool_decide (param ∈ fst <$> get_available_parameters).

Definition validate_inputs (services : Services) (location : pyobj) (date : string)
    (parameters : list string) : option (outcome (list string)) :=
  located ← location_errors location;
  match located with
  | Raised e => Some (Raised e)
  | Returned errors =>
      let errors :=
        match day_of_year services date with
        | Some _ => errors
        | None => errors ++ ["Date must be in format YYYY-MM-DD"]
        end in
      let errors :=
        match parameters with
        | [] => errors ++ ["At least one parameter must be selected"]
        | _ => errors
        end in
      Some (Returned
        (foldl (λ errors param,
                  if is_available param then errors
                  else errors ++ ["Unknown parameter: " +:+ param])
               errors parameters))
  end.

(** * Properties *)

(** ** Facts about binary64 comparison and arithmetic *)

Lemma SFcompare_swap (x y : spec_float) :
  SFcompare y x = CompOpp <$> SFcompare x y.
Proof.
  destruct x as [sx | sx | | sx mx ex], y as [sy | sy | | sy my ey];
    try (destruct sx); try (destruct sy); try reflexivity;
    simpl; rewrite (Z.compare_antisym ey ex);
    destruct (ey ?= ex)%Z; simpl; try reflexivity;
    rewrite (Pos.compare_cont_antisym mx my Eq); reflexivity.
Qed.

Lemma float_eqb_not_ltb (x y : float) :
  (x =? y)%float = true → (y <? x)%float = false ∧ (x <? y)%float = false.
Proof.
  rewrite FloatAxioms.eqb_spec, !FloatAxioms.ltb_spec. unfold SFeqb, SFltb.
  rewrite (SFcompare_swap (Prim2SF x) (Prim2SF y)).
  destruct (SFcompare (Prim2SF x) (Prim2SF y)) as [[]|]; simpl; intros; try discriminate; auto.
Qed.

Lemma float_leb_not_ltb (x y : float) :
  (x <=? y)%float = true → (y <? x)%float = false.
Proof.
  rewrite FloatAxioms.leb_spec, FloatAxioms.ltb_spec. unfold SFleb, SFltb.
  rewrite (SFcompare_swap (Prim2SF x) (Prim2SF y)).
  destruct (SFcompare (Prim2SF x) (Prim2SF y)) as [[]|]; simpl; intros; try discriminate; auto.
Qed.

Lemma SFltb_trans (x y z : spec_float) :
  SFltb x y = true → SFltb y z = true → SFltb x z = true.
Proof.
  unfold SFltb.
  destruct x as [sx | sx | | sx mx ex], y as [sy | sy | | sy my ey], z as [sz | sz | | sz mz ez];
    try (destruct sx); try (destruct sy); try (destruct sz);
    simpl; try discriminate; try reflexivity;
    change (Pos.compare_cont Eq) with Pos.compare;
    destruct (Z.compare_spec ex ey); try discriminate;
    destruct (Z.compare_spec ey ez); try discriminate;
    destruct (Z.compare_spec ex ez); try reflexivity; try lia;
    destruct (Pos.compare_spec mx my); try discriminate;
    destruct (Pos.compare_spec my mz); try discriminate;
    destruct (Pos.compare_spec mx mz); try reflexivity; try lia.
Qed.

Lemma float_ltb_trans (x y z : float) :
  (x <? y)%float = true → (y <? z)%float = true → (x <? z)%float = true.
Proof. rewrite !FloatAxioms.ltb_spec. apply SFltb_trans. Qed.

Lemma SFcompare_refl (x : spec_float) : x ≠ S754_nan → SFcompare x x = Some Eq.
Proof.
  destruct x as [s | s | | s m e]; intros H; try (destruct s); try reflexivity;
    try contradiction; simpl; rewrite Z.compare_refl;
    change (Pos.compare_cont Eq m m) with (Pos.compare m m); rewrite Pos.compare_refl;
    reflexivity.
Qed.

Lemma float_is_nan_eq (x : float) : PrimFloat.is_nan x = true → x = nan.
Proof.
  unfold PrimFloat.is_nan. rewrite FloatAxioms.eqb_spec. unfold SFeqb. intros H.
  apply Prim2SF_inj. change (Prim2SF nan) with S754_nan.
  destruct (Prim2SF x) as [s | s | | s m e] eqn:E; try reflexivity;
    rewrite SFcompare_refl in H by discriminate; discriminate.
Qed.

Lemma float_mul_nan_r (x : float) : (x * nan)%float = nan.
Proof.
  apply Prim2SF_inj. rewrite mul_spec.
  change (Prim2SF nan) with S754_nan.
  destruct (Prim2SF x); reflexivity.
Qed.

Lemma float_sub_nan_r (x : float) : (x - nan)%float = nan.
Proof.
  apply Prim2SF_inj. rewrite sub_spec.
  change (Prim2SF nan) with S754_nan.
  destruct (Prim2SF x); reflexivity.
Qed.

Lemma float_add_nan_r (x : float) : (x + nan)%float = nan.
Proof.
  apply Prim2SF_inj. rewrite add_spec.
  change (Prim2SF nan) with S754_nan.
  destruct (Prim2SF x); reflexivity.
Qed.

(** ** Rounding in binary64 *)

(** Number of binary digits. *)
Lemma digits2_pos_bounds (m : positive) :
  (2 ^ (Z.pos (digits2_pos m) - 1) <= Z.pos m < 2 ^ Z.pos (digits2_pos m))%Z.
Proof.
  induction m as [m IH | m IH |]; cbn [digits2_pos].
  - rewrite Pos2Z.inj_succ.
    replace (Z.succ (Z.pos (digits2_pos m)) - 1)%Z with (Z.succ (Z.pos (digits2_pos m) - 1)) by lia.
    rewrite !Z.pow_succ_r by lia. lia.
  - rewrite Pos2Z.inj_succ.
    replace (Z.succ (Z.pos (digits2_pos m)) - 1)%Z with (Z.succ (Z.pos (digits2_pos m) - 1)) by lia.
    rewrite !Z.pow_succ_r by lia. lia.
  - simpl. lia.
Qed.

(** [iter_pos] is iteration. *)
Lemma iter_pos_nat {A} (f : A → A) (p : positive) (x : A) :
  SpecFloat.iter_pos f p x = Nat.iter (Pos.to_nat p) f x.
Proof.
  revert x. induction p as [p IH | p IH |]; intros x; cbn [SpecFloat.iter_pos].
  - rewrite !IH, Pos2Nat.inj_xI, Nat.iter_succ_r.
    replace (2 * Pos.to_nat p) with (Pos.to_nat p + Pos.to_nat p) by lia.
    rewrite Nat.iter_add. reflexivity.
  - rewrite !IH, Pos2Nat.inj_xO.
    replace (2 * Pos.to_nat p) with (Pos.to_nat p + Pos.to_nat p) by lia.
    rewrite Nat.iter_add. reflexivity.
  - reflexivity.
Qed.

(** One step of the right shift halves the mantissa and keeps the record
    of whether the dropped bits were all zero. *)
Lemma shr_1_spec (mrs : shr_record) :
  (0 <= shr_m mrs)%Z →
  shr_m (shr_1 mrs) = (shr_m mrs / 2)%Z ∧
  (shr_r (shr_1 mrs) || shr_s (shr_1 mrs) = false ↔
     (shr_m mrs mod 2 = 0)%Z ∧ shr_r mrs || shr_s mrs = false).
Proof.
  destruct mrs as [m r s]. simpl. intros Hm.
  destruct m as [| [p | p |] | p]; try lia; simpl.
  - split; [reflexivity |]. destruct r, s; simpl; intuition congruence.
  - split; [rewrite Pos2Z.inj_xI; apply (Z.div_unique _ 2 _ 1); lia |].
    rewrite Pos2Z.inj_xI.
    assert ((2 * Z.pos p + 1) mod 2 = 1)%Z as -> by (symmetry; apply (Z.mod_unique _ 2 (Z.pos p) 1); lia).
    split; [discriminate | intros [? _]; lia].
  - split; [rewrite Pos2Z.inj_xO; apply (Z.div_unique _ 2 _ 0); lia |].
    rewrite Pos2Z.inj_xO.
    assert ((2 * Z.pos p) mod 2 = 0)%Z as -> by (symmetry; apply (Z.mod_unique _ 2 (Z.pos p) 0); lia).
    destruct r, s; simpl; intuition congruence.
  - split; [reflexivity |].
    change (1 mod 2)%Z with 1%Z. split; [discriminate | intros [? _]; lia].
Qed.

Lemma shr_iter_spec (n : nat) (M : Z) (r0 s0 : bool) :
  (0 <= M)%Z →
  let mrs := Nat.iter n shr_1 {| shr_m := M; shr_r := r0; shr_s := s0 |} in
  shr_m mrs = (M / 2 ^ Z.of_nat n)%Z ∧
  (shr_r mrs || shr_s mrs = false ↔ (M mod 2 ^ Z.of_nat n = 0)%Z ∧ r0 || s0 = false).
Proof.
  intros HM. induction n as [| n IH].
  - simpl. split; [rewrite Z.div_1_r; reflexivity |].
    rewrite Z.mod_1_r. intuition.
  - cbv zeta in *. rewrite Nat.iter_succ.
    destruct IH as [IHm IHl].
    set (prev := Nat.iter n shr_1 {| shr_m := M; shr_r := r0; shr_s := s0 |}) in *.
    assert (0 <= shr_m prev)%Z as Hprev by (rewrite IHm; apply Z.div_pos; lia).
    destruct (shr_1_spec prev Hprev) as [Hm Hl].
    rewrite Nat2Z.inj_succ, Z.pow_succ_r by lia.
    split.
    + rewrite Hm, IHm, Z.div_div by lia. f_equal. lia.
    + rewrite Hl, IHl, IHm.
      assert (0 < 2 ^ Z.of_nat n)%Z as Hpow by (apply Z.pow_pos_nonneg; lia).
      pose proof (Z.div_mod M (2 ^ Z.of_nat n) ltac:(lia)) as Hdm.
      pose proof (Z.mod_pos_bound M (2 ^ Z.of_nat n) Hpow) as Hb.
      set (q := (M / 2 ^ Z.of_nat n)%Z) in *. set (r := (M mod 2 ^ Z.of_nat n)%Z) in *.
      split.
      * intros [Hq [Hr Hflags]]. split; [| exact Hflags]. apply Z.mod_divide; [lia |].
        apply Z.mod_divide in Hq; [| lia]. destruct Hq as [c Hc].
        exists c. lia.
      * intros [H Hflags]. apply Z.mod_divide in H; [| lia]. destruct H as [c Hc].
        assert (r = 0)%Z as Hr0.
        { assert (r = 2 ^ Z.of_nat n * (2 * c - q))%Z as Hr by lia.
          assert (2 * c - q = 0)%Z as E by nia.
          rewrite E in Hr. lia. }
        split; [| split; [exact Hr0 | exact Hflags]].
        apply Z.mod_divide; [lia |]. exists c. nia.
Qed.

Lemma fexp64_eq (e : Z) : fexp prec emax e = fexp64 e.
Proof. reflexivity. Qed.

(** A right shift to the exponent required by the format: the mantissa
    is divided by the power of two, and the location is exact just when
    it was exact before and nothing was lost. *)
Lemma shr_fexp_spec (m e : Z) (l : location) :
  (0 <= m)%Z →
  let k := Z.max (fexp64 (Zdigits2 m + e) - e) 0 in
  ∃ mrs : shr_record,
    shr_fexp prec emax m e l = (mrs, (e + k)%Z) ∧
    shr_m mrs = (m / 2 ^ k)%Z ∧
    (loc_of_shr_record mrs = loc_Exact ↔ (m mod 2 ^ k = 0)%Z ∧ l = loc_Exact).
Proof.
  intros Hm k. unfold shr_fexp. rewrite fexp64_eq.
  unfold shr. subst k.
  assert (∀ mrs : shr_record,
            loc_of_shr_record mrs = loc_Exact ↔ shr_r mrs || shr_s mrs = false) as Hflags.
  { intros [m' [|] [|]]; simpl; intuition congruence. }
  assert (shr_m (shr_record_of_loc m l) = m ∧
          (shr_r (shr_record_of_loc m l) || shr_s (shr_record_of_loc m l) = false ↔
             l = loc_Exact)) as [Hm0 Hl0].
  { destruct l as [| []]; simpl; intuition congruence. }
  destruct (fexp64 (Zdigits2 m + e) - e)%Z as [| p | p] eqn:Hk.
  - eexists. split; [rewrite Z.add_0_r; reflexivity |].
    rewrite Hflags, Hl0, Hm0. simpl. rewrite Z.div_1_r, Z.mod_1_r. intuition.
  - rewrite iter_pos_nat.
    destruct (shr_record_of_loc m l) as [m0 r0 s0] eqn:Hrec. simpl in Hm0, Hl0. subst m0.
    destruct (shr_iter_spec (Pos.to_nat p) m r0 s0 Hm) as [Hdiv Hloc].
    rewrite positive_nat_Z in Hdiv, Hloc.
    eexists. split; [reflexivity |].
    replace (Z.max (Z.pos p) 0) with (Z.pos p) by lia.
    split; [exact Hdiv |].
    rewrite Hflags, Hloc, Hl0. reflexivity.
  - eexists. split; [rewrite Z.add_0_r; reflexivity |].
    rewrite Hflags, Hl0, Hm0. simpl. rewrite Z.div_1_r, Z.mod_1_r. intuition.
Qed.

Lemma round_nearest_even_bounds (m : Z) (l : location) :
  ∃ delta : Z, round_nearest_even m l = (m + delta)%Z ∧ (0 <= delta <= 1)%Z ∧
    (l = loc_Exact → delta = 0%Z).
Proof.
  destruct l as [| []]; simpl.
  - exists 0%Z. split; [lia |]. split; [lia | reflexivity].
  - exists (if Z.even m then 0 else 1)%Z. destruct (Z.even m); repeat split; try lia; discriminate.
  - exists 0%Z. repeat split; try lia; discriminate.
  - exists 1%Z. repeat split; try lia; discriminate.
Qed.

(** The rounding of a positive integer mantissa with its location, in
    terms of integer arithmetic: a first shift to the target exponent, an
    increment of at most one that is zero when the value was exact and the
    shift lost nothing, and a second shift that renormalizes. *)
Lemma binary_round_aux_normal_form (s : bool) (M e : Z) (l : location) :
  (0 < M)%Z →
  let k1 := Z.max (fexp64 (Zdigits2 M + e) - e) 0 in
  let m1 := (M / 2 ^ k1)%Z in
  let e1 := (e + k1)%Z in
  ∃ delta : Z, (0 <= delta <= 1)%Z ∧
    ((M mod 2 ^ k1 = 0)%Z → l = loc_Exact → delta = 0%Z) ∧
    let m1' := (m1 + delta)%Z in
    let k2 := Z.max (fexp64 (Zdigits2 m1' + e1) - e1) 0 in
    let m2 := (m1' / 2 ^ k2)%Z in
    let e2 := (e1 + k2)%Z in
    binary_round_aux prec emax s M e l =
      match m2 with
      | Z0 => S754_zero s
      | Z.pos m => if (e2 <=? 971)%Z then S754_finite s m e2 else S754_infinity s
      | Z.neg _ => S754_nan
      end.
Proof.
  intros HM k1 m1 e1. unfold binary_round_aux.
  destruct (shr_fexp_spec M e l ltac:(lia)) as (mrs1 & -> & Hm1 & Hl1).
  fold k1 in Hm1, Hl1. fold m1 in Hm1.
  destruct (round_nearest_even_bounds (shr_m mrs1) (loc_of_shr_record mrs1))
    as (delta & Hrne & Hdelta & Hexact).
  exists delta. split; [exact Hdelta |].
  split; [intros H Hl; apply Hexact, Hl1; split; assumption |].
  cbv zeta. rewrite Hrne, Hm1.
  assert (0 <= m1)%Z as Hm1pos by (apply Z.div_pos; [lia | apply Z.pow_pos_nonneg; lia]).
  destruct (shr_fexp_spec (m1 + delta) e1 loc_Exact ltac:(lia)) as (mrs2 & Hrun2 & Hm2 & _).
  unfold m1, e1, k1 in Hrun2 |- *. rewrite Hrun2.
  unfold m1, e1, k1 in Hm2. rewrite Hm2. reflexivity.
Qed.

(** ** Powers of two and digit counts *)

Lemma pow2_pos (j : Z) : (0 <= j)%Z → (0 < 2 ^ j)%Z.
Proof. intros. apply Z.pow_pos_nonneg; lia. Qed.

Lemma pow2_add (a b : Z) : (0 <= a)%Z → (0 <= b)%Z → (2 ^ (a + b) = 2 ^ a * 2 ^ b)%Z.
Proof. intros. apply Z.pow_add_r; lia. Qed.

Lemma pow2_le (a b : Z) : (0 <= a <= b)%Z → (2 ^ a <= 2 ^ b)%Z.
Proof. intros. apply Z.pow_le_mono_r; lia. Qed.

Lemma pow2_lt (a b : Z) : (0 <= a < b)%Z → (2 ^ a < 2 ^ b)%Z.
Proof. intros. apply Z.pow_lt_mono_r; lia. Qed.

Lemma Zdigits2_bounds (m : Z) :
  (0 < m)%Z → (1 <= Zdigits2 m)%Z ∧ (2 ^ (Zdigits2 m - 1) <= m < 2 ^ Zdigits2 m)%Z.
Proof.
  destruct m as [| p | p]; try lia. intros _. simpl. split; [lia |].
  apply digits2_pos_bounds.
Qed.

Lemma Zdigits2_unique (m a : Z) :
  (0 < m)%Z → (1 <= a)%Z → (2 ^ (a - 1) <= m < 2 ^ a)%Z → Zdigits2 m = a.
Proof.
  intros Hm Ha Hb. destruct (Zdigits2_bounds m Hm) as [Hd Hdb].
  destruct (Z.lt_trichotomy (Zdigits2 m) a) as [Hlt | [Heq | Hgt]]; [| exact Heq |].
  - pose proof (pow2_le (Zdigits2 m) (a - 1) ltac:(lia)). lia.
  - pose proof (pow2_le a (Zdigits2 m - 1) ltac:(lia)). lia.
Qed.

Lemma Zdigits2_mono (m m' : Z) : (0 < m <= m')%Z → (Zdigits2 m <= Zdigits2 m')%Z.
Proof.
  intros H. destruct (Zdigits2_bounds m ltac:(lia)) as [Hd Hb].
  destruct (Zdigits2_bounds m' ltac:(lia)) as [Hd' Hb'].
  destruct (Z.le_gt_cases (Zdigits2 m) (Zdigits2 m')) as [| Hgt]; [assumption |].
  pose proof (pow2_le (Zdigits2 m') (Zdigits2 m - 1) ltac:(lia)). lia.
Qed.

Lemma Zdigits2_shl (m j : Z) :
  (0 < m)%Z → (0 <= j)%Z → Zdigits2 (m * 2 ^ j) = (Zdigits2 m + j)%Z.
Proof.
  intros Hm Hj. destruct (Zdigits2_bounds m Hm) as [Hd Hb].
  pose proof (pow2_pos j Hj).
  apply Zdigits2_unique; [nia | lia |].
  replace (Zdigits2 m + j - 1)%Z with ((Zdigits2 m - 1) + j)%Z by lia.
  rewrite !pow2_add by lia. nia.
Qed.

Lemma Zdigits2_shr (m k : Z) :
  (0 < m)%Z → (0 <= k < Zdigits2 m)%Z → Zdigits2 (m / 2 ^ k) = (Zdigits2 m - k)%Z.
Proof.
  intros Hm Hk. destruct (Zdigits2_bounds m Hm) as [Hd Hb].
  pose proof (pow2_pos k ltac:(lia)) as Hp.
  assert (2 ^ (Zdigits2 m - 1) = 2 ^ (Zdigits2 m - k - 1) * 2 ^ k)%Z as E1.
  { rewrite <- pow2_add by lia. f_equal. lia. }
  assert (2 ^ Zdigits2 m = 2 ^ (Zdigits2 m - k) * 2 ^ k)%Z as E2.
  { rewrite <- pow2_add by lia. f_equal. lia. }
  assert (2 ^ (Zdigits2 m - k - 1) <= m / 2 ^ k)%Z as Hlo.
  { apply Z.div_le_lower_bound; lia. }
  assert (m / 2 ^ k < 2 ^ (Zdigits2 m - k))%Z as Hhi.
  { apply Z.div_lt_upper_bound; lia. }
  pose proof (pow2_pos (Zdigits2 m - k - 1) ltac:(lia)).
  apply Zdigits2_unique; [lia | lia | split; [exact Hlo | exact Hhi]].
Qed.

Lemma fexp64_mono (a b : Z) : (a <= b)%Z → (fexp64 a <= fexp64 b)%Z.
Proof. unfold fexp64. lia. Qed.


Lemma bounded_canonical (m : positive) (e : Z) :
  bounded prec emax m e = true ↔ canonical64 m e ∧ (e <= 971)%Z.
Proof.
  unfold bounded, canonical_mantissa, canonical64. rewrite fexp64_eq.
  rewrite andb_true_iff, Z.eqb_eq, Z.leb_le. reflexivity.
Qed.

Lemma canonical64_facts (m : positive) (e : Z) :
  canonical64 m e →
  (-1074 <= e)%Z ∧ (Z.pos (digits2_pos m) <= 53)%Z ∧
  (-1074 < e → Z.pos (digits2_pos m) = 53)%Z.
Proof. unfold canonical64, fexp64. lia. Qed.


(** For canonical mantissas the comparison of the pairs is the comparison
    of the values. *)
Lemma SFcompare_canonical (ma mb : positive) (ea eb : Z) :
  canonical64 ma ea → canonical64 mb eb →
  SFcompare (S754_finite false ma ea) (S754_finite false mb eb) =
    Some (scaled (Z.pos ma) ea ?= scaled (Z.pos mb) eb)%Z.
Proof.
  intros Ha Hb. unfold scaled. simpl. f_equal.
  destruct (canonical64_facts ma ea Ha) as (Hea & Hda & Hna).
  destruct (canonical64_facts mb eb Hb) as (Heb & Hdb & Hnb).
  pose proof (digits2_pos_bounds ma) as Hma. pose proof (digits2_pos_bounds mb) as Hmb.
  destruct (Z.compare_spec ea eb) as [-> | Hlt | Hgt].
  - change (Pos.compare_cont Eq ma mb) with (Z.pos ma ?= Z.pos mb)%Z.
    pose proof (pow2_pos (eb + 1074) ltac:(lia)).
    destruct (Z.compare_spec (Z.pos ma) (Z.pos mb)); symmetry;
      [apply Z.compare_eq_iff | apply Z.compare_lt_iff | apply Z.compare_gt_iff]; nia.
  - symmetry. apply Z.compare_lt_iff.
    rewrite (Hnb ltac:(lia)) in Hmb.
    assert (2 ^ (eb + 1074) = 2 ^ (eb - ea) * 2 ^ (ea + 1074))%Z as E.
    { rewrite <- pow2_add by lia. f_equal. lia. }
    pose proof (pow2_pos (ea + 1074) ltac:(lia)).
    pose proof (pow2_le (Z.pos (digits2_pos ma)) 53 ltac:(lia)).
    pose proof (pow2_le 1 (eb - ea) ltac:(lia)).
    change (2 ^ (53 - 1))%Z with 4503599627370496%Z in Hmb.
    change (2 ^ 53)%Z with 9007199254740992%Z in *.
    change (2 ^ 1)%Z with 2%Z in *.
    rewrite E. nia.
  - symmetry. apply Z.compare_gt_iff.
    rewrite (Hna ltac:(lia)) in Hma.
    assert (2 ^ (ea + 1074) = 2 ^ (ea - eb) * 2 ^ (eb + 1074))%Z as E.
    { rewrite <- pow2_add by lia. f_equal. lia. }
    pose proof (pow2_pos (eb + 1074) ltac:(lia)).
    pose proof (pow2_le (Z.pos (digits2_pos mb)) 53 ltac:(lia)).
    pose proof (pow2_le 1 (ea - eb) ltac:(lia)).
    change (2 ^ (53 - 1))%Z with 4503599627370496%Z in Hma.
    change (2 ^ 53)%Z with 9007199254740992%Z in *.
    change (2 ^ 1)%Z with 2%Z in *.
    rewrite E. nia.
Qed.

(** ** Truncation against a representable number *)

Section Truncation.
Variables (m e k : Z) (mm : positive) (em : Z).
Hypothesis Hm : (0 < m)%Z.
Hypothesis He : (-1074 <= e)%Z.
Hypothesis Hk : k = (fexp64 (Zdigits2 m + e) - e)%Z.
Hypothesis Hk0 : (0 <= k)%Z.
Hypothesis Hcanon : canonical64 mm em.

Lemma scaled_shift (q : Z) : scaled q (e + k) = (q * 2 ^ k * 2 ^ (e + 1074))%Z.
Proof.
  unfold scaled. replace (e + k + 1074)%Z with (k + (e + 1074))%Z by lia.
  rewrite pow2_add by lia. ring.
Qed.

(** A representable number above the given exponent is a multiple of the
    unit at that exponent. *)
Lemma canonical_multiple :
  (e + k <= em)%Z →
  scaled (Z.pos mm) em = (Z.pos mm * 2 ^ (em - (e + k)) * 2 ^ k * 2 ^ (e + 1074))%Z.
Proof.
  intros Hle. unfold scaled.
  replace (em + 1074)%Z with ((em - (e + k)) + (k + (e + 1074)))%Z by lia.
  rewrite !pow2_add by lia. ring.
Qed.

(** A representable number with a smaller exponent is below the binade of
    the truncated one. *)
Lemma canonical_below :
  (em < e + k)%Z →
  (scaled (Z.pos mm) em < 2 ^ (Zdigits2 m + e - 1 + 1074))%Z ∧ (-1074 < e + k)%Z.
Proof.
  intros Hlt. destruct (canonical64_facts mm em Hcanon) as (Hem & Hdm & _).
  assert (Z.pos (digits2_pos mm) + em < Zdigits2 m + e)%Z as Hmag.
  { destruct (Z.lt_ge_cases (Z.pos (digits2_pos mm) + em) (Zdigits2 m + e)) as [| Hge];
      [assumption |].
    pose proof (fexp64_mono _ _ Hge) as Hmono. unfold canonical64 in Hcanon. lia. }
  split; [| lia].
  unfold scaled. pose proof (digits2_pos_bounds mm) as [_ Hmm].
  pose proof (pow2_pos (em + 1074) ltac:(lia)).
  assert (2 ^ Z.pos (digits2_pos mm) * 2 ^ (em + 1074) <= 2 ^ (Zdigits2 m + e - 1 + 1074))%Z.
  { rewrite <- pow2_add by lia. apply pow2_le. lia. }
  nia.
Qed.

Lemma floor_ge_canonical :
  (scaled (Z.pos mm) em <= scaled m e)%Z →
  (scaled (Z.pos mm) em <= scaled (m / 2 ^ k) (e + k))%Z.
Proof.
  intros Hle. rewrite scaled_shift.
  pose proof (pow2_pos k Hk0) as HQ. pose proof (pow2_pos (e + 1074) ltac:(lia)) as HP.
  pose proof (Z.div_mod m (2 ^ k) ltac:(lia)) as Hdm.
  pose proof (Z.mod_pos_bound m (2 ^ k) HQ) as Hr.
  destruct (Z.le_gt_cases (e + k) em) as [Hcase | Hcase].
  - rewrite canonical_multiple by exact Hcase.
    rewrite (canonical_multiple Hcase) in Hle. unfold scaled in Hle.
    set (c := (Z.pos mm * 2 ^ (em - (e + k)))%Z) in *.
    assert (c * 2 ^ k <= m)%Z as Hc by nia.
    assert (c <= m / 2 ^ k)%Z as Hq by (apply Z.div_le_lower_bound; lia).
    apply Z.mul_le_mono_nonneg_r; [lia |]. apply Z.mul_le_mono_nonneg_r; lia.
  - destruct (canonical_below Hcase) as [Hbelow Hnorm].
    destruct (Zdigits2_bounds m Hm) as [Hd Hb].
    assert (k < Zdigits2 m)%Z as Hkd by (unfold fexp64 in Hk; lia).
    assert (2 ^ (Zdigits2 m - 1) = 2 ^ (Zdigits2 m - 1 - k) * 2 ^ k)%Z as E1.
    { rewrite <- pow2_add by lia. f_equal. lia. }
    assert (2 ^ (Zdigits2 m - 1 - k) <= m / 2 ^ k)%Z as Hlo.
    { apply Z.div_le_lower_bound; lia. }
    assert (2 ^ (Zdigits2 m + e - 1 + 1074) =
            2 ^ (Zdigits2 m - 1 - k) * 2 ^ k * 2 ^ (e + 1074))%Z as E2.
    { rewrite <- !pow2_add by lia. f_equal. lia. }
    pose proof (pow2_pos (Zdigits2 m - 1 - k) ltac:(lia)).
    rewrite E2 in Hbelow. nia.
Qed.

Lemma ceil_le_canonical :
  (scaled m e <= scaled (Z.pos mm) em)%Z →
  (m mod 2 ^ k ≠ 0)%Z ∨ (scaled m e < scaled (Z.pos mm) em)%Z →
  (scaled (m / 2 ^ k + 1) (e + k) <= scaled (Z.pos mm) em)%Z.
Proof.
  intros Hle Hstrict. rewrite scaled_shift.
  pose proof (pow2_pos k Hk0) as HQ. pose proof (pow2_pos (e + 1074) ltac:(lia)) as HP.
  pose proof (Z.div_mod m (2 ^ k) ltac:(lia)) as Hdm.
  pose proof (Z.mod_pos_bound m (2 ^ k) HQ) as Hr.
  destruct (Z.le_gt_cases (e + k) em) as [Hcase | Hcase].
  - rewrite canonical_multiple by exact Hcase.
    rewrite (canonical_multiple Hcase) in Hle, Hstrict. unfold scaled in Hle, Hstrict.
    set (c := (Z.pos mm * 2 ^ (em - (e + k)))%Z) in *.
    assert (m <= c * 2 ^ k)%Z as Hc by nia.
    assert (m / 2 ^ k < c)%Z as Hq.
    { destruct Hstrict as [Hrem | Hlt]; [nia |].
      assert (m < c * 2 ^ k)%Z by nia. nia. }
    apply Z.mul_le_mono_nonneg_r; [lia |]. apply Z.mul_le_mono_nonneg_r; lia.
  - exfalso. destruct (canonical_below Hcase) as [Hbelow _].
    destruct (Zdigits2_bounds m Hm) as [Hd Hb].
    assert (2 ^ (Zdigits2 m + e - 1 + 1074) = 2 ^ (Zdigits2 m - 1) * 2 ^ (e + 1074))%Z as E2.
    { rewrite <- pow2_add by lia. f_equal. lia. }
    unfold scaled in Hle. rewrite E2 in Hbelow. unfold scaled in Hbelow. nia.
Qed.

End Truncation.

(** ** The rounded result *)

(** After the first shift and the increment, the exponent required by the
    format is not below the current one, and the second shift leaves a
    positive mantissa. *)
Lemma second_shift_range (M e delta : Z) :
  (0 < M)%Z → (-1074 <= e)%Z →
  let k1 := (fexp64 (Zdigits2 M + e) - e)%Z in
  (0 <= k1)%Z → (0 <= delta <= 1)%Z → (0 < M / 2 ^ k1 + delta)%Z →
  let d' := Zdigits2 (M / 2 ^ k1 + delta) in
  (0 <= fexp64 (d' + (e + k1)) - (e + k1) < d')%Z.
Proof.
  intros HM He k1 Hk1 Hdelta Hpos d'.
  destruct (Zdigits2_bounds M HM) as [HdM HbM].
  destruct (Zdigits2_bounds _ Hpos) as [Hd' Hb']. fold d' in Hd', Hb'.
  pose proof (pow2_pos k1 Hk1) as HQ.
  assert (0 <= M / 2 ^ k1)%Z as Hm1 by (apply Z.div_pos; lia).
  assert (fexp64 (Zdigits2 M + e) = e + k1)%Z as HE1 by (unfold k1; lia).
  split; [| unfold fexp64 in *; lia].
  destruct (Z.eq_dec (M / 2 ^ k1)%Z 0%Z) as [Hzero | Hnz].
  - assert (d' = 1)%Z as ->.
    { unfold d'. rewrite Hzero. replace (0 + delta)%Z with 1%Z by lia. reflexivity. }
    assert (Zdigits2 M <= k1)%Z as Hdk.
    { destruct (Z.le_gt_cases (Zdigits2 M) k1) as [| Hgt]; [assumption |].
      pose proof (pow2_le k1 (Zdigits2 M - 1) ltac:(lia)).
      assert (1 <= M / 2 ^ k1)%Z by (apply Z.div_le_lower_bound; lia). lia. }
    unfold fexp64 in *. lia.
  - assert (k1 < Zdigits2 M)%Z as Hkd.
    { destruct (Z.lt_ge_cases k1 (Zdigits2 M)) as [| Hge]; [assumption |].
      pose proof (pow2_le (Zdigits2 M) k1 ltac:(lia)).
      rewrite Z.div_small in Hnz by lia. contradiction. }
    pose proof (Zdigits2_shr M k1 HM ltac:(lia)) as Hshr.
    pose proof (Zdigits2_mono (M / 2 ^ k1)%Z (M / 2 ^ k1 + delta)%Z ltac:(lia)) as Hmono.
    fold d' in Hmono.
    pose proof (fexp64_mono (Zdigits2 M + e)%Z (d' + (e + k1))%Z ltac:(lia)). lia.
Qed.

Lemma binary_round_aux_vs_canonical (M e : Z) (l : location) (mm : positive) (em : Z) :
  (0 < M)%Z → (-1074 <= e)%Z → (e <= fexp64 (Zdigits2 M + e))%Z →
  canonical64 mm em → (em <= 971)%Z →
  let R := binary_round_aux prec emax false M e l in
  (R = S754_zero false ∨ (∃ m2 e2, R = S754_finite false m2 e2) ∨ R = S754_infinity false) ∧
  ((scaled M e <= scaled (Z.pos mm) em)%Z →
   (l ≠ loc_Exact → (scaled M e < scaled (Z.pos mm) em)%Z) →
   SFleb R (S754_finite false mm em) = true) ∧
  ((scaled (Z.pos mm) em <= scaled M e)%Z → SFleb (S754_finite false mm em) R = true).
Proof.
  intros HM He Hexp Hcanon Hem R.
  destruct (binary_round_aux_normal_form false M e l HM) as (delta & Hdelta & Hexact & Hrun).
  cbv zeta in Hrun. fold R in Hrun.
  set (k1 := (fexp64 (Zdigits2 M + e) - e)%Z) in *.
  assert (0 <= k1)%Z as Hk1 by (unfold k1; lia).
  replace (Z.max k1 0) with k1 in * by lia.
  set (m1 := (M / 2 ^ k1)%Z) in *.
  set (m1' := (m1 + delta)%Z) in *.
  set (e1 := (e + k1)%Z) in *.
  set (k2 := Z.max (fexp64 (Zdigits2 m1' + e1) - e1) 0) in *.
  set (m2 := (m1' / 2 ^ k2)%Z) in *.
  set (e2 := (e1 + k2)%Z) in *.
  pose proof (pow2_pos k1 Hk1) as HQ1.
  assert (0 <= k2)%Z as Hk2 by (unfold k2; lia).
  pose proof (pow2_pos k2 Hk2) as HQ2.
  assert (0 <= m1)%Z as Hm1 by (apply Z.div_pos; lia).
  assert (0 <= m1')%Z as Hm1' by (unfold m1'; lia).
  assert (0 <= m2)%Z as Hm2 by (apply Z.div_pos; lia).
  pose proof (Z.div_mod M (2 ^ k1) ltac:(lia)) as Hdm1. fold m1 in Hdm1.
  pose proof (Z.mod_pos_bound M (2 ^ k1) HQ1) as Hr1.
  pose proof (Z.div_mod m1' (2 ^ k2) ltac:(lia)) as Hdm2. fold m2 in Hdm2.
  pose proof (Z.mod_pos_bound m1' (2 ^ k2) HQ2) as Hr2.
  assert (-1074 <= e1)%Z as He1 by (unfold e1; lia).
  pose proof (pow2_pos (e + 1074) ltac:(lia)) as HP.
  pose proof (pow2_pos (em + 1074) ltac:(destruct (canonical64_facts _ _ Hcanon); lia)) as HPm.
  assert (0 < scaled (Z.pos mm) em)%Z as HV by (unfold scaled; nia).
  (* the value after the first shift and the increment *)
  assert (scaled m1' e1 = (m1' * 2 ^ k1 * 2 ^ (e + 1074))%Z) as Hy.
  { unfold scaled, e1. replace (e + k1 + 1074)%Z with (k1 + (e + 1074))%Z by lia.
    rewrite pow2_add by lia. ring. }
  assert (scaled m2 e2 = (m2 * 2 ^ k2 * 2 ^ k1 * 2 ^ (e + 1074))%Z) as Hz.
  { unfold scaled, e2, e1.
    replace (e + k1 + k2 + 1074)%Z with (k2 + (k1 + (e + 1074)))%Z by lia.
    rewrite !pow2_add by lia. ring. }
  assert ((scaled M e <= scaled (Z.pos mm) em)%Z →
          (l ≠ loc_Exact → (scaled M e < scaled (Z.pos mm) em)%Z) →
          (scaled m2 e2 <= scaled (Z.pos mm) em)%Z) as Hle.
  { intros H Hinexact.
    assert (scaled m1' e1 <= scaled (Z.pos mm) em)%Z as Hy1.
    { destruct (Z.eq_dec delta 0%Z) as [-> | Hd1].
      - rewrite Hy. unfold m1'. rewrite Z.add_0_r. unfold scaled in H.
        assert (m1 * 2 ^ k1 <= M)%Z by lia.
        apply Z.le_trans with (M * 2 ^ (e + 1074))%Z; [| exact H].
        apply Z.mul_le_mono_nonneg_r; lia.
      - assert (delta = 1)%Z as -> by lia.
        apply (ceil_le_canonical M e k1 mm em HM He eq_refl Hk1 Hcanon H).
        destruct (Z.eq_dec (M mod 2 ^ k1)%Z 0%Z) as [Hrem | Hrem]; [| left; exact Hrem].
        right. apply Hinexact. intros Hl. specialize (Hexact Hrem Hl). lia. }
    rewrite Hz. rewrite Hy in Hy1.
    assert (m2 * 2 ^ k2 <= m1')%Z by lia.
    assert (m2 * 2 ^ k2 * 2 ^ k1 * 2 ^ (e + 1074) <= m1' * 2 ^ k1 * 2 ^ (e + 1074))%Z; [| lia].
    apply Z.mul_le_mono_nonneg_r; [lia |]. apply Z.mul_le_mono_nonneg_r; lia. }
  assert ((scaled (Z.pos mm) em <= scaled M e)%Z →
          (0 < m1')%Z ∧ (scaled (Z.pos mm) em <= scaled m2 e2)%Z) as Hge.
  { intros H.
    pose proof (floor_ge_canonical M e k1 mm em HM He eq_refl Hk1 Hcanon H) as Hy1.
    fold m1 e1 in Hy1.
    assert (scaled m1 e1 <= scaled m1' e1)%Z as Hstep.
    { unfold scaled. pose proof (pow2_pos (e1 + 1074) ltac:(lia)). unfold m1'. nia. }
    assert (0 < m1')%Z as Hpos.
    { destruct (Z.eq_dec m1' 0%Z) as [E | E]; [| lia].
      rewrite E in Hstep. unfold scaled at 2 in Hstep. lia. }
    split; [exact Hpos |].
    destruct (second_shift_range M e delta HM He Hk1 Hdelta Hpos) as [Hlo Hhi].
    fold k1 m1 m1' e1 in Hlo, Hhi.
    assert (k2 = fexp64 (Zdigits2 m1' + e1) - e1)%Z as Hk2eq by (unfold k2; lia).
    apply (floor_ge_canonical m1' e1 k2 mm em Hpos He1 Hk2eq Hk2 Hcanon). lia. }
  destruct m2 as [| p | p] eqn:Em2; [| | lia].
  - (* the result is zero *)
    rewrite Hrun. split; [left; reflexivity |]. split; [intros _ _; reflexivity |].
    intros H. destruct (Hge H) as [_ Hcontra]. unfold scaled at 2 in Hcontra. lia.
  - (* the result has mantissa [p] *)
    assert (0 < m1')%Z as Hpos.
    { destruct (Z.eq_dec m1' 0%Z) as [E | E]; [| lia].
      unfold m2 in Em2. rewrite E, Z.div_0_l in Em2 by lia. discriminate. }
    destruct (second_shift_range M e delta HM He Hk1 Hdelta Hpos) as [Hlo Hhi].
    fold k1 m1 m1' e1 in Hlo, Hhi.
    assert (k2 = fexp64 (Zdigits2 m1' + e1) - e1)%Z as Hk2eq by (unfold k2; lia).
    assert (canonical64 p e2) as Hcp.
    { unfold canonical64. change (Z.pos (digits2_pos p)) with (Zdigits2 (Z.pos p)).
      rewrite <- Em2. unfold m2. rewrite Zdigits2_shr by lia.
      unfold e2. replace (Zdigits2 m1' - k2 + (e1 + k2))%Z with (Zdigits2 m1' + e1)%Z by lia.
      lia. }
    destruct (canonical64_facts p e2 Hcp) as (_ & _ & Hnormal).
    destruct (canonical64_facts mm em Hcanon) as (Hem0 & Hdmm & _).
    pose proof (digits2_pos_bounds p) as Hpb. pose proof (digits2_pos_bounds mm) as Hmb.
    destruct (Z.leb_spec e2 971) as [Hfin | Hinf]; rewrite Hrun.
    + split; [right; left; eauto |].
      unfold SFleb. split; [intros H Hinexact | intros H].
      * rewrite (SFcompare_canonical p mm e2 em Hcp Hcanon).
        pose proof (Hle H Hinexact) as H'. clear H. rename H' into H. destruct (Z.compare_spec (scaled (Z.pos p) e2) (scaled (Z.pos mm) em));
          try reflexivity. lia.
      * rewrite (SFcompare_canonical mm p em e2 Hcanon Hcp).
        apply Hge in H as [_ H].
        destruct (Z.compare_spec (scaled (Z.pos mm) em) (scaled (Z.pos p) e2));
          try reflexivity. lia.
    + split; [right; right; reflexivity |]. split; [| intros _; reflexivity].
      intros H Hinexact. exfalso. pose proof (Hle H Hinexact) as H'. clear H. rename H' into H.
      rewrite (Hnormal ltac:(lia)) in Hpb.
      change (2 ^ (53 - 1))%Z with 4503599627370496%Z in Hpb.
      pose proof (pow2_le (Z.pos (digits2_pos mm)) 53 ltac:(lia)) as Hm53.
      change (2 ^ 53)%Z with 9007199254740992%Z in *.
      unfold scaled in H.
      assert (2 ^ (e2 + 1074) = 2 ^ (e2 - em) * 2 ^ (em + 1074))%Z as E.
      { rewrite <- pow2_add by lia. f_equal. lia. }
      pose proof (pow2_le 1 (e2 - em) ltac:(lia)) as H2. change (2 ^ 1)%Z with 2%Z in H2.
      rewrite E in H. nia.
Qed.

(** ** Rounding of an integer at a given exponent *)

Lemma pos_iter_xO (m d : positive) : Z.pos (Pos.iter xO m d) = (Z.pos m * 2 ^ Z.pos d)%Z.
Proof.
  induction d as [| d IH] using Pos.peano_ind.
  - simpl. lia.
  - rewrite Pos.iter_succ, Pos2Z.inj_xO, IH, Pos2Z.inj_succ, Z.pow_succ_r by lia. ring.
Qed.

Lemma shl_align_spec (m : positive) (e e' : Z) :
  let '(mz, ez) := shl_align m e e' in
  ez = Z.min e e' ∧ Z.pos mz = (Z.pos m * 2 ^ (e - ez))%Z.
Proof.
  unfold shl_align. destruct (e' - e)%Z as [| d | d] eqn:Hd; cbv beta iota.
  - split; [lia |]. replace (e - e)%Z with 0%Z by lia. simpl. lia.
  - split; [lia |]. replace (e - e)%Z with 0%Z by lia. simpl. lia.
  - split; [lia |]. rewrite pos_iter_xO. f_equal. f_equal. lia.
Qed.

Lemma binary_round_aux_opp (m e : Z) (l : location) :
  binary_round_aux prec emax true m e l = SFopp (binary_round_aux prec emax false m e l).
Proof.
  unfold binary_round_aux.
  destruct (shr_fexp prec emax m e l) as [mrs' e'].
  destruct (shr_fexp prec emax _ e' loc_Exact) as [mrs'' e''].
  destruct (shr_m mrs''); try reflexivity.
  destruct (e'' <=? emax - prec)%Z; reflexivity.
Qed.

Lemma binary_round_opp (m : positive) (e : Z) :
  binary_round prec emax true m e = SFopp (binary_round prec emax false m e).
Proof.
  unfold binary_round. destruct (shl_align m e _) as [mz ez]. apply binary_round_aux_opp.
Qed.

Lemma binary_round_vs_canonical (M0 : positive) (ez : Z) (mm : positive) (em : Z) :
  (-1074 <= ez)%Z → canonical64 mm em → (em <= 971)%Z →
  let R := binary_round prec emax false M0 ez in
  (R = S754_zero false ∨ (∃ m2 e2, R = S754_finite false m2 e2) ∨ R = S754_infinity false) ∧
  ((scaled (Z.pos M0) ez <= scaled (Z.pos mm) em)%Z → SFleb R (S754_finite false mm em) = true) ∧
  ((scaled (Z.pos mm) em <= scaled (Z.pos M0) ez)%Z → SFleb (S754_finite false mm em) R = true).
Proof.
  intros Hez Hcanon Hem R. unfold R, binary_round. rewrite fexp64_eq.
  pose proof (shl_align_spec M0 ez (fexp64 (Z.pos (digits2_pos M0) + ez))) as Halign.
  destruct (shl_align M0 ez _) as [mz e]. destruct Halign as [He Hmz].
  assert (-1074 <= e)%Z as He0 by (unfold fexp64 in He; lia).
  assert (Zdigits2 (Z.pos mz) + e = Z.pos (digits2_pos M0) + ez)%Z as Hmag.
  { rewrite Hmz, Zdigits2_shl by lia. simpl. lia. }
  assert (scaled (Z.pos mz) e = scaled (Z.pos M0) ez) as Hval.
  { unfold scaled. rewrite Hmz.
    replace (ez + 1074)%Z with ((ez - e) + (e + 1074))%Z by lia.
    rewrite (pow2_add (ez - e) (e + 1074)) by lia. ring. }
  rewrite <- Hval.
  destruct (binary_round_aux_vs_canonical (Z.pos mz) e loc_Exact mm em
              ltac:(lia) He0 ltac:(rewrite Hmag; lia) Hcanon Hem) as (Hshape & Hle & Hge).
  split; [exact Hshape |]. split; [| exact Hge].
  intros H. apply Hle; [exact H | intros Hl; contradiction].
Qed.

Lemma SFcompare_opp (a b : spec_float) :
  SFcompare (SFopp a) (SFopp b) = SFcompare b a.
Proof.
  destruct a as [sa | sa | | sa ma ea], b as [sb | sb | | sb mb eb];
    try (destruct sa); try (destruct sb); try reflexivity;
    simpl; change (Pos.compare_cont Eq) with Pos.compare;
    destruct (Z.compare_spec ea eb); destruct (Z.compare_spec eb ea);
    try lia; try reflexivity;
    destruct (Pos.compare_spec ma mb); destruct (Pos.compare_spec mb ma);
    try lia; try reflexivity.
Qed.

Lemma SFleb_opp (a b : spec_float) : SFleb (SFopp a) (SFopp b) = SFleb b a.
Proof. unfold SFleb. rewrite SFcompare_opp. reflexivity. Qed.

Lemma binary_normalize_vs_canonical (S ez : Z) (sm : bool) (mm : positive) (em : Z) :
  (-1074 <= ez <= em)%Z → canonical64 mm em → (em <= 971)%Z →
  let X := cond_Zopp sm (Z.pos mm * 2 ^ (em - ez)) in
  let R := binary_normalize prec emax S ez false in
  ((S <= X)%Z → SFleb R (S754_finite sm mm em) = true) ∧
  ((X <= S)%Z → SFleb (S754_finite sm mm em) R = true).
Proof.
  intros Hez Hcanon Hem X R.
  pose proof (pow2_pos (em - ez) ltac:(lia)) as HPd.
  pose proof (pow2_pos (ez + 1074) ltac:(lia)) as HPz.
  assert (scaled (Z.pos mm) em = (Z.pos mm * 2 ^ (em - ez) * 2 ^ (ez + 1074))%Z) as HV.
  { unfold scaled. replace (em + 1074)%Z with ((em - ez) + (ez + 1074))%Z by lia.
    rewrite (pow2_add (em - ez) (ez + 1074)) by lia. ring. }
  assert (∀ p : positive,
            ((Z.pos p <= Z.pos mm * 2 ^ (em - ez))%Z →
               (scaled (Z.pos p) ez <= scaled (Z.pos mm) em)%Z) ∧
            ((Z.pos mm * 2 ^ (em - ez) <= Z.pos p)%Z →
               (scaled (Z.pos mm) em <= scaled (Z.pos p) ez)%Z)) as Hscale.
  { intros p. rewrite HV. unfold scaled.
    split; intros H; apply Z.mul_le_mono_nonneg_r; lia. }
  destruct S as [| p | p]; unfold R; cbn [binary_normalize].
  - destruct sm; unfold X; cbn [cond_Zopp]; split; intros H; try reflexivity; lia.
  - destruct (binary_round_vs_canonical p ez mm em ltac:(lia) Hcanon Hem)
      as (Hshape & Hle & Hge).
    destruct (Hscale p) as [Hs1 Hs2].
    destruct sm; unfold X; cbn [cond_Zopp]; split; intros H; try lia; auto.
    destruct Hshape as [-> | [(m2 & e2 & ->) | ->]]; reflexivity.
  - rewrite binary_round_opp.
    destruct (binary_round_vs_canonical p ez mm em ltac:(lia) Hcanon Hem)
      as (Hshape & Hle & Hge).
    destruct (Hscale p) as [Hs1 Hs2].
    destruct sm; unfold X; cbn [cond_Zopp]; split; intros H; try lia.
    + change (S754_finite true mm em) with (SFopp (S754_finite false mm em)).
      rewrite SFleb_opp. apply Hge, Hs2. lia.
    + change (S754_finite true mm em) with (SFopp (S754_finite false mm em)).
      rewrite SFleb_opp. apply Hle, Hs1. lia.
    + destruct Hshape as [-> | [(m2 & e2 & ->) | ->]]; reflexivity.
Qed.

(** ** Subtracting or adding a non-negative number *)


Lemma shl_align_fst (m : positive) (e ez : Z) :
  (ez <= e)%Z → Z.pos (fst (shl_align m e ez)) = (Z.pos m * 2 ^ (e - ez))%Z.
Proof.
  intros Hle. pose proof (shl_align_spec m e ez) as H.
  destruct (shl_align m e ez) as [mz ez']. destruct H as [Hez Hmz]. simpl.
  rewrite Hmz, Hez. f_equal. f_equal. lia.
Qed.

Section NonNegativeOffset.
Variables (sx : bool) (mx : positive) (ex : Z) (my : positive) (ey : Z).
Hypothesis Hx : bounded prec emax mx ex = true.
Hypothesis Hy : bounded prec emax my ey = true.

Lemma SFsub_finite_le :
  SFleb (SFsub prec emax (S754_finite sx mx ex) (S754_finite false my ey))
        (S754_finite sx mx ex) = true.
Proof.
  apply bounded_canonical in Hx as [Hcx Hex]. apply bounded_canonical in Hy as [Hcy Hey].
  destruct (canonical64_facts _ _ Hcx) as (Hx0 & _). destruct (canonical64_facts _ _ Hcy) as (Hy0 & _).
  cbn [SFsub]. set (ez := Z.min ex ey).
  rewrite !shl_align_fst by (unfold ez; lia). cbn [cond_Zopp].
  destruct (binary_normalize_vs_canonical
              (cond_Zopp sx (Z.pos mx * 2 ^ (ex - ez)) - Z.pos my * 2 ^ (ey - ez))
              ez sx mx ex ltac:(unfold ez; lia) Hcx Hex) as [Hle _].
  apply Hle. pose proof (pow2_pos (ey - ez) ltac:(unfold ez; lia)). nia.
Qed.

Lemma SFadd_finite_ge :
  SFleb (S754_finite sx mx ex)
        (SFadd prec emax (S754_finite sx mx ex) (S754_finite false my ey)) = true.
Proof.
  apply bounded_canonical in Hx as [Hcx Hex]. apply bounded_canonical in Hy as [Hcy Hey].
  destruct (canonical64_facts _ _ Hcx) as (Hx0 & _). destruct (canonical64_facts _ _ Hcy) as (Hy0 & _).
  cbn [SFadd]. set (ez := Z.min ex ey).
  rewrite !shl_align_fst by (unfold ez; lia). cbn [cond_Zopp].
  destruct (binary_normalize_vs_canonical
              (cond_Zopp sx (Z.pos mx * 2 ^ (ex - ez)) + Z.pos my * 2 ^ (ey - ez))
              ez sx mx ex ltac:(unfold ez; lia) Hcx Hex) as [_ Hge].
  apply Hge. pose proof (pow2_pos (ey - ez) ltac:(unfold ez; lia)). nia.
Qed.

End NonNegativeOffset.

Lemma SFsub_nonneg_le (x g : spec_float) :
  valid_binary x = true → valid_binary g = true →
  (∃ s, x = S754_zero s) ∨ (∃ s m e, x = S754_finite s m e) →
  SFleb (S754_zero false) g = true →
  SFleb (SF64sub x g) x = true.
Proof.
  intros Hvx Hvg Hfin Hg. unfold SF64sub.
  destruct g as [sg | [|] | | [|] mg eg]; try discriminate.
  - destruct Hfin as [[s ->] | (s & m & e & ->)].
    + destruct s, sg; reflexivity.
    + cbn [SFsub]. unfold SFleb. rewrite SFcompare_refl by discriminate. reflexivity.
  - destruct Hfin as [[s ->] | (s & m & e & ->)]; destruct s; reflexivity.
  - destruct Hfin as [[s ->] | (s & m & e & ->)].
    + destruct s; reflexivity.
    + apply SFsub_finite_le; assumption.
Qed.

Lemma SFadd_nonneg_ge (x g : spec_float) :
  valid_binary x = true → valid_binary g = true →
  (∃ s, x = S754_zero s) ∨ (∃ s m e, x = S754_finite s m e) →
  SFleb (S754_zero false) g = true →
  SFleb x (SF64add x g) = true.
Proof.
  intros Hvx Hvg Hfin Hg. unfold SF64add.
  destruct g as [sg | [|] | | [|] mg eg]; try discriminate.
  - destruct Hfin as [[s ->] | (s & m & e & ->)].
    + destruct s, sg; reflexivity.
    + cbn [SFadd]. unfold SFleb. rewrite SFcompare_refl by discriminate. reflexivity.
  - destruct Hfin as [[s ->] | (s & m & e & ->)]; destruct s; reflexivity.
  - destruct Hfin as [[s ->] | (s & m & e & ->)].
    + destruct s; reflexivity.
    + apply SFadd_finite_ge; assumption.
Qed.

Lemma is_finite_shape (x : float) :
  PrimFloat.is_finite x = true →
  (∃ s, Prim2SF x = S754_zero s) ∨ (∃ s m e, Prim2SF x = S754_finite s m e).
Proof.
  unfold PrimFloat.is_finite, PrimFloat.is_nan, PrimFloat.is_infinity.
  rewrite !FloatAxioms.eqb_spec, abs_spec. change (Prim2SF infinity) with (S754_infinity false).
  destruct (Prim2SF x) as [s | s | | s m e]; eauto;
    try (destruct s); simpl; intros H; discriminate.
Qed.

(** Subtracting a non-negative number from a finite one does not increase
    it, and adding it does not decrease it. *)
Lemma float_sub_nonneg_le (x g : float) :
  PrimFloat.is_finite x = true → (0 <=? g)%float = true → (x - g <=? x)%float = true.
Proof.
  intros Hfin Hg. rewrite FloatAxioms.leb_spec in *. rewrite sub_spec.
  apply SFsub_nonneg_le; auto using Prim2SF_valid, is_finite_shape.
Qed.

Lemma float_add_nonneg_ge (x g : float) :
  PrimFloat.is_finite x = true → (0 <=? g)%float = true → (x <=? x + g)%float = true.
Proof.
  intros Hfin Hg. rewrite FloatAxioms.leb_spec in *. rewrite add_spec.
  apply SFadd_nonneg_ge; auto using Prim2SF_valid, is_finite_shape.
Qed.

(** ** The value of a rounded result *)

Lemma canonical64_unique (ma mb : positive) (ea eb : Z) :
  canonical64 ma ea → canonical64 mb eb →
  scaled (Z.pos ma) ea = scaled (Z.pos mb) eb → ma = mb ∧ ea = eb.
Proof.
  intros Ha Hb Hval.
  pose proof (SFcompare_canonical ma mb ea eb Ha Hb) as Hcmp.
  rewrite Hval, Z.compare_refl in Hcmp. simpl in Hcmp.
  destruct (Z.compare_spec ea eb) as [-> | |]; try discriminate.
  split; [| reflexivity].
  change (Pos.compare_cont Eq ma mb) with (Pos.compare ma mb) in Hcmp.
  apply Pos.compare_eq. congruence.
Qed.

(** When the first shift leaves a positive mantissa and the exponent is
    below the largest one, the result is a canonical finite number whose
    value is the shifted mantissa, incremented or not. *)
Lemma binary_round_aux_value (sgn : bool) (M e : Z) (l : location) :
  (0 < M)%Z → (-1074 <= e)%Z →
  let k1 := (fexp64 (Zdigits2 M + e) - e)%Z in
  (0 <= k1)%Z → (0 < M / 2 ^ k1)%Z → (e + k1 < 971)%Z →
  ∃ (delta : Z) (m2 : positive) (e2 : Z),
    (0 <= delta <= 1)%Z ∧
    ((M mod 2 ^ k1 = 0)%Z → l = loc_Exact → delta = 0%Z) ∧
    binary_round_aux prec emax sgn M e l = S754_finite sgn m2 e2 ∧
    canonical64 m2 e2 ∧ (e2 <= 971)%Z ∧
    scaled (Z.pos m2) e2 = scaled (M / 2 ^ k1 + delta) (e + k1).
Proof.
  intros HM He k1 Hk1 Hm1 He1.
  destruct (binary_round_aux_normal_form sgn M e l HM) as (delta & Hdelta & Hexact & Hrun).
  cbv zeta in Hrun. fold k1 in Hexact, Hrun.
  replace (Z.max k1 0) with k1 in * by lia.
  set (m1 := (M / 2 ^ k1)%Z) in *.
  set (m1' := (m1 + delta)%Z) in *.
  set (e1 := (e + k1)%Z) in *.
  assert (m1' = m1 + delta)%Z as Hm1' by reflexivity.
  assert (0 < m1')%Z as Hpos by lia.
  destruct (second_shift_range M e delta HM He Hk1 Hdelta Hpos) as [Hlo Hhi].
  fold k1 m1 m1' e1 in Hlo, Hhi.
  set (k2 := Z.max (fexp64 (Zdigits2 m1' + e1) - e1) 0) in *.
  assert (k2 = fexp64 (Zdigits2 m1' + e1) - e1)%Z as Hk2eq by (unfold k2; lia).
  pose proof (pow2_pos k1 Hk1) as HQ1.
  (* the digits of the shifted mantissa *)
  assert (k1 < Zdigits2 M)%Z as Hkd.
  { destruct (Z.lt_ge_cases k1 (Zdigits2 M)) as [| Hge]; [assumption |].
    destruct (Zdigits2_bounds M HM) as [HdM Hb].
    pose proof (pow2_le (Zdigits2 M) k1 ltac:(lia)).
    unfold m1 in Hm1. rewrite Z.div_small in Hm1 by lia. lia. }
  pose proof (Zdigits2_shr M k1 HM ltac:(lia)) as Hd1. fold m1 in Hd1.
  destruct (Zdigits2_bounds m1 Hm1) as [Hd1pos Hb1].
  destruct (Zdigits2_bounds m1' Hpos) as [Hd'pos Hb'].
  assert (fexp64 (Zdigits2 m1 + e1) = e1) as Hcan1.
  { rewrite Hd1. replace (Zdigits2 M - k1 + e1)%Z with (Zdigits2 M + e)%Z by (unfold e1; lia).
    unfold e1, k1. lia. }
  assert (Zdigits2 m1' <= Zdigits2 m1 + 1)%Z as Hd'.
  { destruct (Z.le_gt_cases (Zdigits2 m1') (Zdigits2 m1 + 1)) as [| Hgt]; [assumption |].
    pose proof (pow2_le (Zdigits2 m1 + 1) (Zdigits2 m1' - 1) ltac:(lia)) as Hp.
    rewrite (pow2_add (Zdigits2 m1) 1) in Hp by lia. change (2 ^ 1)%Z with 2%Z in Hp.
    lia. }
  assert (0 <= k2 <= 1)%Z as Hk2 by (unfold fexp64 in *; lia).
  assert (m1' mod 2 ^ k2 = 0)%Z as Hdiv.
  { destruct (Z.eq_dec k2 0%Z) as [-> | Hk21]; [apply Z.mod_1_r |].
    assert (k2 = 1)%Z as -> by lia.
    assert (Zdigits2 m1' = Zdigits2 m1 + 1)%Z as Hd'eq.
    { destruct (Z.eq_dec (Zdigits2 m1') (Zdigits2 m1 + 1)%Z) as [| Hne]; [assumption |].
      pose proof (Zdigits2_mono m1 m1' ltac:(lia)).
      assert (Zdigits2 m1' = Zdigits2 m1) as E by lia. rewrite E in Hk2eq. lia. }
    rewrite Hd'eq in Hb'. replace (Zdigits2 m1 + 1 - 1)%Z with (Zdigits2 m1) in Hb' by lia.
    assert (m1' = 2 ^ Zdigits2 m1)%Z as -> by lia.
    replace (Zdigits2 m1) with (1 + (Zdigits2 m1 - 1))%Z by lia.
    rewrite (pow2_add 1 (Zdigits2 m1 - 1)) by lia. change (2 ^ 1)%Z with 2%Z.
    rewrite Z.mul_comm. apply Z.mod_mul. lia. }
  pose proof (pow2_pos k2 ltac:(lia)) as HQ2.
  pose proof (Z.div_mod m1' (2 ^ k2) ltac:(lia)) as Hdm2. rewrite Hdiv, Z.add_0_r in Hdm2.
  set (m2 := (m1' / 2 ^ k2)%Z) in *.
  assert (0 < m2)%Z as Hm2 by nia.
  destruct m2 as [| p | p] eqn:Em2; try lia.
  exists delta, p, (e1 + k2)%Z.
  assert (canonical64 p (e1 + k2)) as Hcp.
  { unfold canonical64. change (Z.pos (digits2_pos p)) with (Zdigits2 (Z.pos p)).
    rewrite <- Em2. unfold m2. rewrite Zdigits2_shr by lia.
    replace (Zdigits2 m1' - k2 + (e1 + k2))%Z with (Zdigits2 m1' + e1)%Z by lia. lia. }
  assert (e1 + k2 <= 971)%Z as He2 by lia.
  split; [exact Hdelta |]. split; [exact Hexact |].
  split; [rewrite Hrun; destruct (Z.leb_spec (e1 + k2) 971); [reflexivity | lia] |].
  split; [exact Hcp |]. split; [exact He2 |].
  unfold scaled. change (M / 2 ^ k1 + delta)%Z with (m1 + delta)%Z.
  change (e + k1)%Z with e1. rewrite <- Hm1', Hdm2.
  replace (e1 + k2 + 1074)%Z with (k2 + (e1 + 1074))%Z by lia.
  rewrite (pow2_add k2 (e1 + 1074)) by (unfold e1; lia). ring.
Qed.

(** ** Division *)

Lemma SFdiv_core_binary_spec (m1 m2 : positive) (e1 e2 : Z) :
  let e' := Z.min (fexp64 (Z.pos (digits2_pos m1) + e1 - (Z.pos (digits2_pos m2) + e2)))
                  (e1 - e2) in
  let s := (e1 - e2 - e')%Z in
  ∃ l : location,
    SFdiv_core_binary prec emax (Z.pos m1) e1 (Z.pos m2) e2 =
      ((Z.pos m1 * 2 ^ s / Z.pos m2)%Z, e', l) ∧
    (l = loc_Exact ↔ (Z.pos m1 * 2 ^ s mod Z.pos m2 = 0)%Z).
Proof.
  intros e' s. unfold SFdiv_core_binary. rewrite fexp64_eq. cbn [Zdigits2]. fold e'. fold s.
  assert (0 <= s)%Z as Hs by (unfold s, e'; lia).
  assert (match s with
          | 0%Z => Z.pos m1
          | Z.pos _ => Z.shiftl (Z.pos m1) s
          | Z.neg _ => 0%Z
          end = (Z.pos m1 * 2 ^ s)%Z) as ->.
  { destruct s as [| p | p]; [simpl; lia | apply Z.shiftl_mul_pow2; lia | lia]. }
  unfold Z.div, Z.modulo.
  destruct (Z.div_eucl (Z.pos m1 * 2 ^ s) (Z.pos m2)) as [q r].
  eexists. split; [reflexivity |].
  unfold new_location, new_location_even, new_location_odd.
  destruct (Z.even (Z.pos m2)); destruct (Z.eqb_spec r 0); split; intros H;
    try reflexivity; try discriminate; try contradiction; try assumption.
Qed.

(** ** Conversion of integers below [2^53] *)

Lemma binary_normalize_small (c : positive) :
  (Z.pos c < 2 ^ 53)%Z →
  ∃ (m : positive) (e : Z),
    binary_normalize prec emax (Z.pos c) 0 false = S754_finite false m e ∧
    canonical64 m e ∧ (-52 <= e <= 0)%Z ∧ scaled (Z.pos m) e = scaled (Z.pos c) 0.
Proof.
  intros Hc. unfold binary_normalize, binary_round. rewrite fexp64_eq.
  pose proof (digits2_pos_bounds c) as Hb.
  set (dc := Z.pos (digits2_pos c)) in *.
  assert (1 <= dc <= 53)%Z as Hdc.
  { split; [unfold dc; lia |].
    destruct (Z.le_gt_cases dc 53) as [| Hgt]; [assumption |].
    pose proof (pow2_le 53 (dc - 1) ltac:(lia)). lia. }
  pose proof (shl_align_spec c 0 (fexp64 (dc + 0))) as Hs.
  destruct (shl_align c 0 (fexp64 (dc + 0))) as [mz ez]. destruct Hs as [Hez Hmz].
  assert (ez = dc - 53)%Z as Eez by (unfold fexp64 in Hez; lia).
  assert (Zdigits2 (Z.pos mz) = 53)%Z as Hdz.
  { rewrite Hmz, Zdigits2_shl by lia. change (Zdigits2 (Z.pos c)) with dc. lia. }
  assert (canonical64 mz ez) as Hcz.
  { unfold canonical64. change (Z.pos (digits2_pos mz)) with (Zdigits2 (Z.pos mz)).
    rewrite Hdz. unfold fexp64. lia. }
  assert (fexp64 (Zdigits2 (Z.pos mz) + ez) - ez = 0)%Z as Hk1 by (rewrite Hdz; unfold fexp64; lia).
  destruct (binary_round_aux_value false (Z.pos mz) ez loc_Exact)
    as (delta & m2 & e2 & Hdelta & Hexact & Hrun & Hc2 & He2 & Hval);
    try (rewrite Hk1; change (2 ^ 0)%Z with 1%Z; rewrite ?Z.div_1_r); try lia.
  rewrite Hk1 in Hexact, Hval. change (2 ^ 0)%Z with 1%Z in Hexact, Hval.
  rewrite Z.div_1_r in Hval. rewrite (Hexact (Z.mod_1_r _) eq_refl) in Hval.
  rewrite !Z.add_0_r in Hval.
  destruct (canonical64_unique m2 mz e2 ez Hc2 Hcz Hval) as [-> ->].
  exists mz, ez. split; [exact Hrun |]. split; [exact Hcz |]. split; [lia |].
  unfold scaled. rewrite Hmz.
  replace (0 + 1074)%Z with ((0 - ez) + (ez + 1074))%Z by lia.
  rewrite (pow2_add (0 - ez) (ez + 1074)) by lia. ring.
Qed.

(** ** Quotients of normal numbers *)

Lemma SFdiv_normal (m1 m2 : positive) (e1 e2 : Z) :
  Z.pos (digits2_pos m1) = 53%Z → Z.pos (digits2_pos m2) = 53%Z →
  (-1074 <= e1 - e2 - 53)%Z → (e1 - e2 - 53 + 1 < 971)%Z →
  let q := (Z.pos m1 * 2 ^ 53 / Z.pos m2)%Z in
  let k1 := (Zdigits2 q - 53)%Z in
  ∃ (delta : Z) (m : positive) (e : Z),
    (0 <= delta <= 1)%Z ∧
    ((Z.pos m1 * 2 ^ 53 mod Z.pos m2 = 0)%Z → (q mod 2 ^ k1 = 0)%Z → delta = 0%Z) ∧
    SFdiv prec emax (S754_finite false m1 e1) (S754_finite false m2 e2) = S754_finite false m e ∧
    canonical64 m e ∧ (e <= 971)%Z ∧
    (2 ^ 52 <= q < 2 ^ 54)%Z ∧ (0 <= k1 <= 1)%Z ∧ (2 ^ 52 <= q / 2 ^ k1 < 2 ^ 53)%Z ∧
    scaled (Z.pos m) e = scaled (q / 2 ^ k1 + delta) (e1 - e2 - 53 + k1).
Proof.
  intros Hd1 Hd2 Hlo Hhi q k1.
  pose proof (digits2_pos_bounds m1) as Hb1. pose proof (digits2_pos_bounds m2) as Hb2.
  rewrite Hd1 in Hb1. rewrite Hd2 in Hb2.
  change (53 - 1)%Z with 52%Z in Hb1, Hb2.
  change (2 ^ 52)%Z with 4503599627370496%Z in *.
  change (2 ^ 53)%Z with 9007199254740992%Z in *.
  change (2 ^ 54)%Z with 18014398509481984%Z in *.
  assert (4503599627370496 <= q < 18014398509481984)%Z as Hq.
  { unfold q. split.
    - apply Z.div_le_lower_bound; lia.
    - apply Z.div_lt_upper_bound; lia. }
  assert (53 <= Zdigits2 q <= 54)%Z as Hdq.
  { destruct (Zdigits2_bounds q ltac:(lia)) as [Hd Hb].
    split.
    - destruct (Z.le_gt_cases 53 (Zdigits2 q)) as [| Hgt]; [assumption |].
      pose proof (pow2_le (Zdigits2 q) 52 ltac:(lia)) as Hp.
      change (2 ^ 52)%Z with 4503599627370496%Z in Hp. lia.
    - destruct (Z.le_gt_cases (Zdigits2 q) 54) as [| Hgt]; [assumption |].
      pose proof (pow2_le 54 (Zdigits2 q - 1) ltac:(lia)) as Hp.
      change (2 ^ 54)%Z with 18014398509481984%Z in Hp. lia. }
  assert (0 <= k1 <= 1)%Z as Hk1 by (unfold k1; lia).
  pose proof (Zdigits2_shr q k1 ltac:(lia) ltac:(lia)) as Hshr.
  replace (Zdigits2 q - k1)%Z with 53%Z in Hshr by (unfold k1; lia).
  assert (4503599627370496 <= q / 2 ^ k1 < 9007199254740992)%Z as Hm.
  { assert (0 < q / 2 ^ k1)%Z as Hpos.
    { pose proof (pow2_pos k1 ltac:(lia)).
      apply Z.div_str_pos. split; [lia |].
      pose proof (pow2_le k1 1 ltac:(lia)) as Hp. change (2 ^ 1)%Z with 2%Z in Hp. lia. }
    destruct (Zdigits2_bounds _ Hpos) as [_ Hb]. rewrite Hshr in Hb.
    change (2 ^ (53 - 1))%Z with 4503599627370496%Z in Hb.
    change (2 ^ 53)%Z with 9007199254740992%Z in Hb. exact Hb. }
  destruct (SFdiv_core_binary_spec m1 m2 e1 e2) as (l & Hcore & Hl).
  cbv zeta in Hcore, Hl. rewrite Hd1, Hd2 in Hcore, Hl.
  replace (Z.min (fexp64 (53 + e1 - (53 + e2))) (e1 - e2)) with (e1 - e2 - 53)%Z in Hcore, Hl
    by (unfold fexp64; lia).
  replace (e1 - e2 - (e1 - e2 - 53))%Z with 53%Z in Hcore, Hl by lia.
  change (2 ^ 53)%Z with 9007199254740992%Z in Hcore, Hl.
  fold q in Hcore.
  assert (fexp64 (Zdigits2 q + (e1 - e2 - 53)) - (e1 - e2 - 53) = k1)%Z as Ek1
    by (unfold k1, fexp64; lia).
  destruct (binary_round_aux_value false q (e1 - e2 - 53) l)
    as (delta & m & e & Hdelta & Hexact & Hrun & Hc & He & Hval);
    try (rewrite Ek1); try lia.
  rewrite Ek1 in Hexact, Hval.
  exists delta, m, e.
  split; [exact Hdelta |].
  split; [intros Hrem Hmod; apply Hexact; [exact Hmod | apply Hl, Hrem] |].
  split; [cbn [SFdiv xorb]; rewrite Hcore; exact Hrun |].
  split; [exact Hc |]. split; [exact He |].
  split; [exact Hq |]. split; [exact Hk1 |]. split; [exact Hm |]. exact Hval.
Qed.

(** ** Exponents of canonical numbers *)

Lemma pow2_lt_inv (a b : Z) : (0 <= b)%Z → (2 ^ a < 2 ^ b)%Z → (a < b)%Z.
Proof. intros Hb H. apply (Z.pow_lt_mono_r_iff 2); lia. Qed.

Lemma canonical64_exponent_ge (m : positive) (e a : Z) :
  canonical64 m e → (0 <= a)%Z → (2 ^ a <= scaled (Z.pos m) e)%Z → (a - 1126 <= e)%Z.
Proof.
  intros Hc Ha Hle.
  destruct (canonical64_facts m e Hc) as (He & Hd & _).
  pose proof (digits2_pos_bounds m) as [_ Hb].
  pose proof (pow2_le (Z.pos (digits2_pos m)) 53 ltac:(lia)) as Hp.
  pose proof (pow2_pos (e + 1074) ltac:(lia)) as HP.
  assert (scaled (Z.pos m) e < 2 ^ (53 + (e + 1074)))%Z as Hlt.
  { unfold scaled. rewrite (pow2_add 53 (e + 1074)) by lia.
    apply Z.mul_lt_mono_pos_r; lia. }
  assert (a < 53 + (e + 1074))%Z by (apply pow2_lt_inv; lia).
  lia.
Qed.

Lemma canonical64_exponent_le (m : positive) (e a : Z) :
  canonical64 m e → (52 <= a)%Z → (scaled (Z.pos m) e <= 2 ^ a)%Z → (e <= a - 1126)%Z.
Proof.
  intros Hc Ha Hle.
  destruct (canonical64_facts m e Hc) as (He & Hd & Hn).
  destruct (Z.eq_dec e (-1074)%Z) as [-> | Hne]; [lia |].
  pose proof (digits2_pos_bounds m) as [Hb _].
  rewrite Hn in Hb by lia. change (53 - 1)%Z with 52%Z in Hb.
  pose proof (pow2_pos (e + 1074) ltac:(lia)) as HP.
  assert (2 ^ (52 + (e + 1074)) <= scaled (Z.pos m) e)%Z as Hge.
  { unfold scaled. rewrite (pow2_add 52 (e + 1074)) by lia.
    apply Z.mul_le_mono_nonneg_r; lia. }
  destruct (Z.le_gt_cases e (a - 1126)) as [| Hgt]; [assumption |].
  pose proof (pow2_lt a (52 + (e + 1074)) ltac:(lia)). lia.
Qed.

(** ** The quotient of two counts *)

Lemma SFdiv_fraction (mc mn : positive) (ec en : Z) :
  canonical64 mc ec → canonical64 mn en → (-52 <= ec <= 0)%Z → (-52 <= en <= 0)%Z →
  (scaled (Z.pos mc) ec <= scaled (Z.pos mn) en)%Z →
  ∃ (mp : positive) (ep : Z),
    SFdiv prec emax (S754_finite false mc ec) (S754_finite false mn en) =
      S754_finite false mp ep ∧
    canonical64 mp ep ∧ (-105 <= ep <= -52)%Z.
Proof.
  intros Hcc Hcn Hec Hen Hle.
  destruct (canonical64_facts mc ec Hcc) as (_ & _ & Hdc).
  destruct (canonical64_facts mn en Hcn) as (_ & _ & Hdn).
  destruct (SFdiv_normal mc mn ec en ltac:(lia) ltac:(lia) ltac:(lia) ltac:(lia))
    as (delta & mp & ep & Hdelta & Hexact & Hrun & Hcp & _ & Hq & Hk1 & Hx & Hval).
  set (q := (Z.pos mc * 2 ^ 53 / Z.pos mn)%Z) in *.
  set (k1 := (Zdigits2 q - 53)%Z) in *.
  set (x := (q / 2 ^ k1)%Z) in *.
  set (e' := (ec - en - 53)%Z) in *.
  assert (-105 <= e' <= -1)%Z as He' by (unfold e'; lia).
  exists mp, ep. split; [exact Hrun |]. split; [exact Hcp |].
  pose proof (pow2_pos (e' + k1 + 1074) ltac:(lia)) as HPe.
  split.
  - (* the quotient is at least 2^-53 *)
    assert (2 ^ (52 + (e' + k1 + 1074)) <= scaled (Z.pos mp) ep)%Z as Hlow.
    { rewrite Hval. unfold scaled. rewrite (pow2_add 52 (e' + k1 + 1074)) by lia.
      apply Z.mul_le_mono_nonneg_r; lia. }
    pose proof (canonical64_exponent_ge mp ep (52 + (e' + k1 + 1074)) Hcp ltac:(lia) Hlow). lia.
  - (* the quotient is at most 1 *)
    set (T := (2 ^ (- e' - k1))%Z).
    pose proof (pow2_pos (- e' - k1) ltac:(lia)) as HT. fold T in HT.
    pose proof (pow2_pos k1 ltac:(lia)) as HK.
    pose proof (pow2_pos (ec + 1074) ltac:(lia)) as HA.
    assert (2 ^ (en + 1074) * 2 ^ 53 = T * 2 ^ k1 * 2 ^ (ec + 1074))%Z as Hpow.
    { unfold T. rewrite <- !pow2_add by lia. f_equal. unfold e'. lia. }
    pose proof (Z.mul_div_le (Z.pos mc * 2 ^ 53) (Z.pos mn) ltac:(lia)) as Hfloor.
    fold q in Hfloor.
    unfold scaled in Hle.
    assert (Z.pos mn * q * 2 ^ (ec + 1074) <= Z.pos mn * (T * 2 ^ k1) * 2 ^ (ec + 1074))%Z
      as Hchain.
    { apply Z.le_trans with (Z.pos mc * 2 ^ 53 * 2 ^ (ec + 1074))%Z.
      - apply Z.mul_le_mono_nonneg_r; lia.
      - replace (Z.pos mn * (T * 2 ^ k1) * 2 ^ (ec + 1074))%Z
          with (Z.pos mn * 2 ^ (en + 1074) * 2 ^ 53)%Z
          by (rewrite <- !Z.mul_assoc; f_equal; rewrite Hpow; ring).
        replace (Z.pos mc * 2 ^ 53 * 2 ^ (ec + 1074))%Z
          with (Z.pos mc * 2 ^ (ec + 1074) * 2 ^ 53)%Z by ring.
        apply Z.mul_le_mono_nonneg_r; [lia | exact Hle]. }
    assert (q <= T * 2 ^ k1)%Z as HqT.
    { apply Z.mul_le_mono_pos_r in Hchain; [| lia].
      apply Z.mul_le_mono_pos_l in Hchain; lia. }
    assert (x <= T)%Z as HxT.
    { unfold x. apply Z.div_le_upper_bound; [lia |]. rewrite Z.mul_comm. exact HqT. }
    assert (x + delta <= T)%Z as Hsum.
    { destruct (Z.eq_dec x T) as [Heq | Hne]; [| lia].
      pose proof (Z.mul_div_le q (2 ^ k1) ltac:(lia)) as Hfl. fold x in Hfl.
      assert (q = T * 2 ^ k1)%Z as Eq by (rewrite Heq in Hfl; lia).
      assert (Z.pos mc * 2 ^ 53 = Z.pos mn * q)%Z as Erem.
      { apply Z.le_antisymm; [| exact Hfloor].
        apply (Z.mul_le_mono_pos_r _ _ (2 ^ (ec + 1074))); [lia |].
        rewrite Eq.
        replace (Z.pos mn * (T * 2 ^ k1) * 2 ^ (ec + 1074))%Z
          with (Z.pos mn * 2 ^ (en + 1074) * 2 ^ 53)%Z
          by (rewrite <- !Z.mul_assoc; f_equal; rewrite Hpow; ring).
        replace (Z.pos mc * 2 ^ 53 * 2 ^ (ec + 1074))%Z
          with (Z.pos mc * 2 ^ (ec + 1074) * 2 ^ 53)%Z by ring.
        apply Z.mul_le_mono_nonneg_r; [lia | exact Hle]. }
      rewrite Hexact; [lia | |].
      + rewrite Erem, Z.mul_comm. apply Z.mod_mul. lia.
      + rewrite Eq. apply Z.mod_mul. lia. }
    assert (scaled (Z.pos mp) ep <= 2 ^ 1074)%Z as Hup.
    { rewrite Hval. unfold scaled.
      replace 1074%Z with ((- e' - k1) + (e' + k1 + 1074))%Z at 2 by lia.
      rewrite (pow2_add (- e' - k1) (e' + k1 + 1074)) by lia. fold T.
      apply Z.mul_le_mono_nonneg_r; lia. }
    pose proof (canonical64_exponent_le mp ep 1074 Hcp ltac:(lia) Hup). lia.
Qed.

(** ** A reciprocal times its argument *)

(** For a normal [p] between [2^-53] and 1, the rounded reciprocal times
    [p], rounded, lies between [1 - 2^-52] and [1 + 2^-52]. *)
Lemma SFmul_reciprocal (mp : positive) (ep : Z) :
  canonical64 mp ep → (-105 <= ep <= -52)%Z →
  let p := S754_finite false mp ep in
  let r := SFdiv prec emax (S754_finite false 4503599627370496 (-52)) p in
  let product := SFmul prec emax r p in
  SFleb (S754_finite false 9007199254740990 (-53)) product = true ∧
  SFleb product (S754_finite false 4503599627370497 (-52)) = true.
Proof.
  intros Hcp Hep p r product.
  destruct (canonical64_facts mp ep Hcp) as (_ & _ & Hdp).
  pose proof (digits2_pos_bounds mp) as Hbp. rewrite Hdp in Hbp by lia.
  change (2 ^ (53 - 1))%Z with 4503599627370496%Z in Hbp.
  change (2 ^ 53)%Z with 9007199254740992%Z in Hbp.
  destruct (SFdiv_normal 4503599627370496 mp (-52) ep eq_refl ltac:(lia) ltac:(lia) ltac:(lia))
    as (delta & mr & er & Hdelta & Hexact & Hrun & Hcr & _ & Hq & Hk1 & Hx & Hval).
  change (Z.pos 4503599627370496 * 2 ^ 53)%Z with (2 ^ 105)%Z in *.
  set (a := (2 ^ 105)%Z) in *.
  set (q := (a / Z.pos mp)%Z) in *.
  set (k1 := (Zdigits2 q - 53)%Z) in *.
  set (x := (q / 2 ^ k1)%Z) in *.
  set (e' := (-52 - ep - 53)%Z) in *.
  assert (-53 <= e' <= 0)%Z as He' by (unfold e'; lia).
  assert (a = 40564819207303340847894502572032%Z) as Ea by reflexivity.
  change (2 ^ 52)%Z with 4503599627370496%Z in *.
  change (2 ^ 53)%Z with 9007199254740992%Z in *.
  change (2 ^ 54)%Z with 18014398509481984%Z in *.
  (* the integer whose scaling is the exact product *)
  assert (a - 9007199254740992 <= (x + delta) * 2 ^ k1 * Z.pos mp
            <= a + 9007199254740992)%Z as Hbounds.
  { pose proof (Z.div_mod a (Z.pos mp) ltac:(lia)) as Hdm. fold q in Hdm.
    pose proof (Z.mod_pos_bound a (Z.pos mp) ltac:(lia)) as Hrem.
    destruct (Z.eq_dec k1 0%Z) as [E0 | Hne].
    - unfold x. rewrite E0. change (2 ^ 0)%Z with 1%Z. rewrite Z.div_1_r, Z.mul_1_r. nia.
    - assert (k1 = 1)%Z as E1 by lia.
      assert (54 <= Zdigits2 q)%Z as Hd54 by (unfold k1 in E1; lia).
      destruct (Zdigits2_bounds q ltac:(lia)) as [_ [Hlow _]].
      pose proof (pow2_le 53 (Zdigits2 q - 1) ltac:(lia)) as Hp.
      change (2 ^ 53)%Z with 9007199254740992%Z in Hp.
      assert (q = 9007199254740992)%Z as Eq by nia.
      assert (Z.pos mp = 4503599627370496)%Z as Emp by nia.
      assert (a mod Z.pos mp = 0)%Z as Hrem0 by (rewrite Emp; reflexivity).
      assert (q mod 2 ^ k1 = 0)%Z as Hmod0 by (rewrite Eq, E1; reflexivity).
      rewrite (Hexact Hrem0 Hmod0). unfold x. rewrite Eq, E1, Emp, Ea. vm_compute.
      split; discriminate. }
  (* the reciprocal is normal *)
  pose proof (pow2_pos (e' + k1 + 1074) ltac:(lia)) as HPe.
  assert (-53 <= er)%Z as Her.
  { assert (2 ^ (52 + (e' + k1 + 1074)) <= scaled (Z.pos mr) er)%Z as Hlow.
    { rewrite Hval. unfold scaled. fold e'. rewrite (pow2_add 52 (e' + k1 + 1074)) by lia.
      change (2 ^ 52)%Z with 4503599627370496%Z.
      apply Z.mul_le_mono_nonneg_r; lia. }
    pose proof (canonical64_exponent_ge mr er (52 + (e' + k1 + 1074)) Hcr ltac:(lia) Hlow).
    lia. }
  destruct (canonical64_facts mr er Hcr) as (_ & _ & Hdr).
  pose proof (digits2_pos_bounds mr) as Hbr. rewrite Hdr in Hbr by lia.
  change (2 ^ (53 - 1))%Z with 4503599627370496%Z in Hbr.
  change (2 ^ 53)%Z with 9007199254740992%Z in Hbr.
  (* the exact product *)
  set (M := Z.pos (mr * mp)).
  assert (M = Z.pos mr * Z.pos mp)%Z as EM by (unfold M; lia).
  assert (105 <= Zdigits2 M)%Z as HdM.
  { assert (Zdigits2 (2 ^ 104) = 105)%Z as E104 by reflexivity.
    rewrite <- E104. apply Zdigits2_mono.
    change (2 ^ 104)%Z with (4503599627370496 * 4503599627370496)%Z. nia. }
  assert (scaled M (er + ep) = (x + delta) * 2 ^ k1 * Z.pos mp * 2 ^ 969)%Z as HvalM.
  { pose proof (pow2_pos (- ep) ltac:(lia)) as HPp.
    apply (Z.mul_reg_r _ _ (2 ^ (- ep))); [lia |].
    unfold scaled in Hval |- *. fold e' in Hval. rewrite EM.
    replace (Z.pos mr * Z.pos mp * 2 ^ (er + ep + 1074) * 2 ^ (- ep))%Z
      with (Z.pos mr * 2 ^ (er + 1074) * Z.pos mp)%Z.
    2:{ replace (er + 1074)%Z with ((er + ep + 1074) + (- ep))%Z at 1 by lia.
        rewrite (pow2_add (er + ep + 1074) (- ep)) by lia. ring. }
    rewrite Hval.
    replace (e' + k1 + 1074)%Z with (k1 + (969 + (- ep)))%Z by (unfold e'; lia).
    rewrite (pow2_add k1 (969 + (- ep))), (pow2_add 969 (- ep)) by lia. ring. }
  destruct (binary_round_aux_vs_canonical M (er + ep) loc_Exact
              9007199254740990 (-53) ltac:(lia) ltac:(lia)
              ltac:(unfold fexp64; lia) eq_refl ltac:(lia)) as (_ & _ & Hge).
  destruct (binary_round_aux_vs_canonical M (er + ep) loc_Exact
              4503599627370497 (-52) ltac:(lia) ltac:(lia)
              ltac:(unfold fexp64; lia) eq_refl ltac:(lia)) as (_ & Hle & _).
  assert (product = binary_round_aux prec emax false M (er + ep) loc_Exact) as ->.
  { unfold product, r. fold p in Hrun. rewrite Hrun. reflexivity. }
  pose proof (pow2_pos 969 ltac:(lia)) as HP969.
  assert (scaled 9007199254740990 (-53) = (a - 9007199254740992) * 2 ^ 969)%Z as Elo.
  { unfold scaled. change (-53 + 1074)%Z with (52 + 969)%Z.
    rewrite (pow2_add 52 969) by lia. change (2 ^ 52)%Z with 4503599627370496%Z.
    rewrite Ea. ring. }
  assert (scaled 4503599627370497 (-52) = (a + 9007199254740992) * 2 ^ 969)%Z as Ehi.
  { unfold scaled. change (-52 + 1074)%Z with (53 + 969)%Z.
    rewrite (pow2_add 53 969) by lia. change (2 ^ 53)%Z with 9007199254740992%Z.
    rewrite Ea. ring. }
  split.
  - apply Hge. rewrite HvalM, Elo. apply Z.mul_le_mono_nonneg_r; lia.
  - apply Hle; [| intros Hl; contradiction].
    rewrite HvalM, Ehi. apply Z.mul_le_mono_nonneg_r; lia.
Qed.

(** ** Counts as binary64 numbers *)

Lemma Prim2SF_float_of_Z_small (c : positive) :
  (Z.pos c < 2 ^ 53)%Z →
  ∃ (m : positive) (e : Z),
    Prim2SF (float_of_Z (Z.pos c)) = S754_finite false m e ∧
    canonical64 m e ∧ (-52 <= e <= 0)%Z ∧ scaled (Z.pos m) e = scaled (Z.pos c) 0.
Proof.
  intros Hc. destruct (binary_normalize_small c Hc) as (m & e & Hrun & Hcan & He & Hval).
  exists m, e. split; [| auto].
  unfold float_of_Z. rewrite Hrun. apply Prim2SF_SF2Prim.
  simpl. apply bounded_canonical. split; [exact Hcan | lia].
Qed.

(** The quotient [p] of a count by a larger one below [2^53] has
    [(1 / p) * p] between [1 - 2^-52] and [1 + 2^-52]. *)
Lemma float_reciprocal_product (c n : positive) :
  (Z.pos c <= Z.pos n)%Z → (Z.pos n < 2 ^ 53)%Z →
  let p := (float_of_Z (Z.pos c) / float_of_Z (Z.pos n))%float in
  (0x1.ffffffffffffep-1 <=? (1 / p) * p)%float = true ∧
  ((1 / p) * p <=? 0x1.0000000000001p+0)%float = true.
Proof.
  intros Hcn Hn p.
  destruct (Prim2SF_float_of_Z_small c ltac:(lia)) as (mc & ec & Hc & Hcc & Hec & Hvc).
  destruct (Prim2SF_float_of_Z_small n Hn) as (mn & en & Hn' & Hcn' & Hen & Hvn).
  destruct (SFdiv_fraction mc mn ec en Hcc Hcn' Hec Hen) as (mp & ep & Hp & Hcp & Hep).
  { rewrite Hvc, Hvn. unfold scaled. apply Z.mul_le_mono_nonneg_r; [| exact Hcn].
    apply Z.lt_le_incl, pow2_pos. lia. }
  assert (Prim2SF p = S754_finite false mp ep) as HP.
  { unfold p. rewrite FloatAxioms.div_spec, Hc, Hn'. exact Hp. }
  rewrite !FloatAxioms.leb_spec, FloatAxioms.mul_spec, FloatAxioms.div_spec, HP.
  exact (SFmul_reciprocal mp ep Hcp Hep).
Qed.

(** ** The method monad *)

Lemma np_sum_bool_from (mask : list bool) (acc : Z) :
  fold_left (λ a (b : bool), if b then (a + 1)%Z else a) mask acc =
  (acc + Z.of_nat (length (List.filter id mask)))%Z.
Proof.
  revert acc. induction mask as [| b mask IH]; intros acc; simpl.
  - lia.
  - rewrite IH. destruct b; simpl; lia.
Qed.

Lemma np_sum_bool_fmap {A} (f : A → bool) (l : list A) :
  np_sum_bool (f <$> l) = Z.of_nat (length (List.filter f l)).
Proof.
  unfold np_sum_bool. rewrite np_sum_bool_from.
  assert (length (List.filter id (f <$> l)) = length (List.filter f l)) as Hlen.
  { induction l as [| a l IH]; [reflexivity |].
    rewrite fmap_cons. cbn [List.filter]. unfold id at 1.
    destruct (f a); cbn [length]; rewrite IH; reflexivity. }
  lia.
Qed.

Ltac run_method :=
  unfold mbind, mret, Method_bind, Method_ret, method_bind, method_ret,
    self_data, self_n_years, call, raise, try_except; simpl.

Lemma init_inv (raw : list float) (self : Analyzer) (ws : list string) :
  __init__ raw = Returned (self, ws) →
  data self = List.filter (λ x, negb (np_isnan x)) raw ∧
  n_years self = length (data self) ∧ n_years self ≠ 0.
Proof.
  unfold __init__.
  destruct (Nat.eqb_spec (length (List.filter (λ x, negb (np_isnan x)) raw)) 0) as [| Hne];
    [discriminate |].
  destruct (_ <? 10)%nat; intros [= <- _]; simpl; auto.
Qed.

Lemma filter_length_le {A} (f : A → bool) (l : list A) :
  length (List.filter f l) ≤ length l.
Proof.
  induction l as [| a l IH]; simpl; [lia |]. destruct (f a); simpl; lia.
Qed.

(** ** Threshold probabilities (C1) *)

Lemma ties_not_above (t : float) (l : list float) : count_above t (ties t l) = 0.
Proof.
  unfold count_above, ties. induction l as [| x l IH]; simpl; [reflexivity |].
  destruct (x =? t)%float eqn:Heq; simpl; [| exact IH].
  destruct (float_eqb_not_ltb _ _ Heq) as [-> _]. exact IH.
Qed.

Lemma ties_not_below (t : float) (l : list float) : count_below t (ties t l) = 0.
Proof.
  unfold count_below, ties. induction l as [| x l IH]; simpl; [reflexivity |].
  destruct (x =? t)%float eqn:Heq; simpl; [| exact IH].
  destruct (float_eqb_not_ltb _ _ Heq) as [_ ->]. exact IH.
Qed.

(** C1. For a constructed analyzer with sample size [n], the probability
    of exceeding [t] is the number of observations strictly above [t]
    divided by [n], the probability of falling below [t] is the number
    strictly below divided by [n], observations equal to [t] are counted
    in neither, and the comfortable probability is the fraction of
    observations in the closed interval from [lo] to [hi]. *)
Theorem probability_is_strict_count_over_n
    (raw : list float) (self : Analyzer) (ws : list string) (t lo hi : float) :
  __init__ raw = Returned (self, ws) →
  let n := length (data self) in
  calculate_probability t "exceeds" self =
    (self, Returned (float_of_nat (count_above t (data self)) / float_of_nat n)%float) ∧
  calculate_probability t "below" self =
    (self, Returned (float_of_nat (count_below t (data self)) / float_of_nat n)%float) ∧
  count_above t (ties t (data self)) = 0 ∧
  count_below t (ties t (data self)) = 0 ∧
  get_comfortable_probability lo hi self =
    (self, Returned (float_of_nat (count_within lo hi (data self)) / float_of_nat n)%float).
Proof.
  intros Hinit n. destruct (init_inv _ _ _ Hinit) as (_ & Hn & _).
  unfold calculate_probability, get_comfortable_probability. run_method.
  rewrite !np_sum_bool_fmap, Hn. fold n.
  repeat split; try reflexivity.
  - apply ties_not_above.
  - apply ties_not_below.
Qed.

Lemma probability_is_strict_count_over_n_witness :
  __init__ five_years = Returned (five_years_analyzer, [few_years_warning 5]) ∧
  calculate_probability 25 "exceeds" five_years_analyzer =
    (five_years_analyzer, Returned 0.6%float) ∧
  get_comfortable_probability 20 40 five_years_analyzer =
    (five_years_analyzer, Returned 0.6%float).
Proof.
  split; [reflexivity |].
  destruct (probability_is_strict_count_over_n five_years five_years_analyzer
              [few_years_warning 5] 25 20 40 eq_refl) as (Habove & _ & _ & _ & Hin).
  rewrite Habove, Hin. split; vm_compute; reflexivity.
Defined.

(** ** Rejected conditions (C10) *)

(** C10. For every threshold and every condition string other than
    'exceeds' and 'below', [calculate_probability] raises the ValueError
    saying that the condition must be 'exceeds' or 'below' and returns no
    probability, [calculate_return_period] fails in the same way, and the
    analyzer (its sample and its count) is the same after the call. *)
Theorem unknown_condition_raises_value_error
    (self : Analyzer) (threshold : float) (condition : string) :
  condition ≠ "exceeds" → condition ≠ "below" →
  calculate_probability threshold condition self =
    (self, Raised (ValueError "Condition must be 'exceeds' or 'below'")) ∧
  calculate_return_period threshold condition self =
    (self, Raised (ValueError "Condition must be 'exceeds' or 'below'")).
Proof.
  intros Hexceeds Hbelow.
  assert (calculate_probability threshold condition self =
    (self, Raised (ValueError "Condition must be 'exceeds' or 'below'"))) as Hp.
  { unfold calculate_probability.
    destruct (String.eqb_spec condition "exceeds") as [| _]; [contradiction |].
    destruct (String.eqb_spec condition "below") as [| _]; [contradiction |].
    reflexivity. }
  split; [exact Hp |].
  unfold calculate_return_period, mbind, Method_bind, method_bind. rewrite Hp. reflexivity.
Qed.

Lemma unknown_condition_raises_value_error_witness :
  "above" ≠ "exceeds" ∧ "above" ≠ "below" ∧
  calculate_probability 25 "above" five_years_analyzer =
    (five_years_analyzer, Raised (ValueError "Condition must be 'exceeds' or 'below'")) ∧
  calculate_return_period 25 "above" five_years_analyzer =
    (five_years_analyzer, Raised (ValueError "Condition must be 'exceeds' or 'below'")).
Proof.
  assert ("above" ≠ "exceeds") as H1 by discriminate.
  assert ("above" ≠ "below") as H2 by discriminate.
  split; [exact H1 |]. split; [exact H2 |].
  exact (unknown_condition_raises_value_error five_years_analyzer 25 "above" H1 H2).
Defined.

(** ** Construction (C4) *)

Lemma is_infinity_not_nan (x : float) :
  PrimFloat.is_infinity x = true → np_isnan x = false.
Proof.
  unfold PrimFloat.is_infinity, np_isnan, PrimFloat.is_nan.
  rewrite !FloatAxioms.eqb_spec, abs_spec. change (Prim2SF infinity) with (S754_infinity false).
  destruct (Prim2SF x) as [s | s | | s m e]; try discriminate.
  intros _. destruct s; reflexivity.
Qed.

(** The claim that infinite entries are dropped fails: a sample whose only
    entry is infinite is accepted, and the entry is kept. *)
Lemma init_keeps_infinite_entries :
  __init__ [infinity] =
    Returned ({| data := [infinity]; n_years := 1 |},
              ["Only 1 years of data available. Results may be less reliable."]).
Proof. vm_compute. reflexivity. Qed.

(** C4 (amended). Construction drops exactly the NaN entries and keeps
    every other entry, infinite ones included, in their order; it fails,
    with the ValueError 'No valid data points provided', if and only if no
    entry is left; otherwise it returns the analyzer holding the cleaned
    sample and its size [n], and the warning issued when [n < 10] is the
    only difference to the construction from a longer sample. *)
Theorem init_drops_exactly_nan (raw : list float) :
  let cleaned := List.filter (λ x, negb (np_isnan x)) raw in
  (∀ x, In x cleaned ↔ In x raw ∧ np_isnan x = false) ∧
  (∀ x, In x raw → PrimFloat.is_infinity x = true → In x cleaned) ∧
  ((∃ e, __init__ raw = Raised e) ↔ cleaned = []) ∧
  (cleaned = [] → __init__ raw = Raised (ValueError "No valid data points provided")) ∧
  (cleaned ≠ [] →
     __init__ raw =
       Returned ({| data := cleaned; n_years := length cleaned |},
                 if (length cleaned <? 10)%nat then [few_years_warning (length cleaned)] else [])).
Proof.
  intros cleaned.
  assert (∀ x, In x cleaned ↔ In x raw ∧ np_isnan x = false) as Hin.
  { intros x. unfold cleaned. rewrite filter_In, negb_true_iff. reflexivity. }
  assert (cleaned = [] → __init__ raw = Raised (ValueError "No valid data points provided")) as Hempty.
  { intros E. unfold __init__. fold cleaned. rewrite E. reflexivity. }
  assert (cleaned ≠ [] →
     __init__ raw =
       Returned ({| data := cleaned; n_years := length cleaned |},
                 if (length cleaned <? 10)%nat then [few_years_warning (length cleaned)] else [])) as Hok.
  { intros Hne. unfold __init__. fold cleaned.
    destruct cleaned as [| x l]; [contradiction |].
    simpl length. simpl Nat.eqb. cbv iota. destruct (S (length l) <? 10)%nat; reflexivity. }
  split; [exact Hin |].
  split; [| split; [split | split; [exact Hempty | exact Hok]]].
  - intros x Hx Hinf. apply Hin. split; [exact Hx | apply is_infinity_not_nan, Hinf].
  - intros [e He]. destruct cleaned as [| x l] eqn:E; [reflexivity |].
    rewrite Hok in He; discriminate.
  - intros E. eexists. apply Hempty, E.
Qed.

(** ** Return periods (C2) *)

Lemma pairs_ok_sound (f : nat → float) (m : nat) :
  ∀ k, pairs_ok (f <$> rev (seq 0 (S k))) (f <$> seq (S k) m) = true →
  ∀ c n, c ≤ n → k < n ≤ k + m → product_ok (f c) (f n) = true.
Proof.
  induction m as [| m IH]; intros k Hok c n Hcn Hn; [lia |].
  change (seq (S k) (S m)) with (S k :: seq (S (S k)) m) in Hok.
  rewrite fmap_cons in Hok. cbn [pairs_ok] in Hok.
  apply andb_prop in Hok as [Hrow Hrest].
  assert (f (S k) :: (f <$> rev (seq 0 (S k))) = f <$> rev (seq 0 (S (S k)))) as Hrev.
  { rewrite (seq_S (S k) 0), rev_app_distr. reflexivity. }
  rewrite Hrev in Hrow, Hrest.
  destruct (decide (n = S k)) as [-> | Hne].
  - rewrite forallb_forall in Hrow. apply Hrow.
    apply in_map, in_rev. rewrite rev_involutive. apply in_seq. lia.
  - apply (IH (S k) Hrest c n Hcn). lia.
Qed.

Lemma products_ok_upto_sound (bound : nat) :
  products_ok_upto bound = true →
  ∀ c n, c ≤ n → 1 ≤ n ≤ bound → product_ok (float_of_nat c) (float_of_nat n) = true.
Proof.
  intros Hok c n Hcn Hn.
  apply (pairs_ok_sound float_of_nat bound 0 Hok c n Hcn). lia.
Qed.

Lemma products_ok_upto_2000 : products_ok_upto 2000 = true.
Proof. vm_compute. reflexivity. Qed.

Lemma product_ok_cases (fc fn : float) :
  product_ok fc fn = true →
  (fc / fn =? 0)%float = false →
  ((1 / (fc / fn)) * (fc / fn))%float = 1%float ∨
  ((1 / (fc / fn)) * (fc / fn))%float = one_minus_half_ulp.
Proof.
  unfold product_ok. intros Hok Hp. rewrite Hp in Hok. simpl in Hok.
  apply orb_prop in Hok as [H | H]; apply FloatAxioms.Leibniz.eqb_spec in H; auto.
Qed.

(** The product of a probability and its return period is not always 1:
    when nineteen of twenty years exceed the threshold the probability is
    0.95, the return period is 1.0526315789473684, and their product is
    0.9999999999999999. *)
Lemma return_period_product_not_one :
  ∃ self ws p rp,
    __init__ nineteen_of_twenty = Returned (self, ws) ∧
    calculate_probability 25 "exceeds" self = (self, Returned p) ∧
    calculate_return_period 25 "exceeds" self = (self, Returned rp) ∧
    (p =? 0)%float = false ∧
    (rp * p =? 1)%float = false.
Proof.
  exists {| data := nineteen_of_twenty; n_years := 20 |}, [], 0.95%float, 1.0526315789473684%float.
  repeat split; vm_compute; reflexivity.
Qed.

Lemma calculate_probability_value (self : Analyzer) (t : float) (d : string) (p : float) :
  calculate_probability t d self = (self, Returned p) →
  ∃ count : nat, count ≤ length (data self) ∧
    p = (float_of_nat count / float_of_nat (n_years self))%float.
Proof.
  unfold calculate_probability.
  destruct (String.eqb d "exceeds"); [| destruct (String.eqb d "below")];
    run_method; try discriminate; rewrite np_sum_bool_fmap; intros [= <-];
    eexists; (split; [apply filter_length_le | reflexivity]).
Qed.

(** The quotient of two counts, the first not above the second and the
    second below [2^53], is zero or has a reciprocal whose product with it
    is within [2^-52] of 1. *)
Lemma probability_reciprocal_bounds (count n : nat) :
  count ≤ n → 0 < n → (Z.of_nat n < 2 ^ 53)%Z →
  let p := (float_of_nat count / float_of_nat n)%float in
  (p =? 0)%float = false →
  (one_minus_ulp <=? (1 / p) * p)%float = true ∧ ((1 / p) * p <=? one_plus_ulp)%float = true.
Proof.
  intros Hle Hpos Hn p Hz.
  destruct n as [| n]; [lia |].
  destruct count as [| count].
  - exfalso. revert Hz. unfold p, float_of_nat.
    change (Z.of_nat (S n)) with (Z.pos (Pos.of_succ_nat n)) in *.
    destruct (Prim2SF_float_of_Z_small (Pos.of_succ_nat n) Hn) as (m & e & Hrun & _).
    rewrite FloatAxioms.eqb_spec, FloatAxioms.div_spec, Hrun.
    change (Prim2SF (float_of_Z (Z.of_nat 0))) with (S754_zero false). discriminate.
  - apply (float_reciprocal_product (Pos.of_succ_nat count) (Pos.of_succ_nat n)); [lia |].
    exact Hn.
Qed.

(** C2 (amended). For a constructed analyzer, a threshold and a direction
    with probability [p]: if [p] is not zero the return period is the
    binary64 quotient [1 / p], and if [p] is zero it is plus infinity.
    The product of the two is 1 only up to rounding: for samples of fewer
    than [2^53] observations it lies between [1 - 2^-52] and [1 + 2^-52],
    and for samples of at most 2000 observations it is either 1 or the
    binary64 number just below 1. *)
Theorem return_period_is_rounded_reciprocal
    (raw : list float) (self : Analyzer) (ws : list string)
    (t : float) (d : string) (p : float) :
  __init__ raw = Returned (self, ws) →
  calculate_probability t d self = (self, Returned p) →
  ((p =? 0)%float = false →
     calculate_return_period t d self = (self, Returned (1 / p)%float)) ∧
  ((p =? 0)%float = true →
     calculate_return_period t d self = (self, Returned infinity)) ∧
  ((Z.of_nat (n_years self) < 2 ^ 53)%Z → (p =? 0)%float = false →
     (one_minus_ulp <=? (1 / p) * p)%float = true ∧
     ((1 / p) * p <=? one_plus_ulp)%float = true) ∧
  (n_years self ≤ 2000 → (p =? 0)%float = false →
     ((1 / p) * p)%float = 1%float ∨ ((1 / p) * p)%float = one_minus_half_ulp).
Proof.
  intros Hinit Hp.
  destruct (init_inv _ _ _ Hinit) as (_ & Hn & Hpos).
  split; [| split; [| split]].
  - intros Hz. unfold calculate_return_period, mbind, Method_bind, method_bind.
    rewrite Hp, Hz. reflexivity.
  - intros Hz. unfold calculate_return_period, mbind, Method_bind, method_bind.
    rewrite Hp, Hz. reflexivity.
  - intros Hbound Hz.
    destruct (calculate_probability_value _ _ _ _ Hp) as (count & Hcount & ->).
    apply probability_reciprocal_bounds; [lia | lia | exact Hbound | exact Hz].
  - intros Hbound Hz.
    destruct (calculate_probability_value _ _ _ _ Hp) as (count & Hcount & ->).
    apply product_ok_cases; [| exact Hz].
    apply (products_ok_upto_sound 2000 products_ok_upto_2000); lia.
Qed.

Lemma return_period_is_rounded_reciprocal_witness :
  __init__ five_years = Returned (five_years_analyzer, [few_years_warning 5]) ∧
  calculate_probability 25 "exceeds" five_years_analyzer =
    (five_years_analyzer, Returned 0.6%float) ∧
  calculate_return_period 25 "exceeds" five_years_analyzer =
    (five_years_analyzer, Returned (1 / 0.6)%float) ∧
  ((1 / 0.6) * 0.6)%float = 1%float.
Proof.
  assert (calculate_probability 25 "exceeds" five_years_analyzer =
    (five_years_analyzer, Returned 0.6%float)) as Hp by (vm_compute; reflexivity).
  destruct (return_period_is_rounded_reciprocal five_years five_years_analyzer
              [few_years_warning 5] 25 "exceeds" 0.6%float eq_refl Hp) as (Hrp & _).
  split; [reflexivity |]. split; [exact Hp |]. split; [apply Hrp; reflexivity |].
  vm_compute. reflexivity.
Defined.

(** ** Risk categorization (C5) *)

Lemma categorize_risk_floats (self : Analyzer) (assessment stats : pyobj) (std_dev mean : float) :
  py_getitem assessment "basic_stats" = Returned stats →
  py_getitem stats "std_dev" = Returned (PFloat std_dev) →
  py_getitem stats "mean" = Returned (PFloat mean) →
  let cv := if (mean =? 0)%float then infinity else (std_dev / PrimFloat.abs mean)%float in
  _categorize_risk assessment self =
    (self, Returned
       (if (cv <? 0.1)%float then "Low"
        else if (cv <? 0.3)%float then "Moderate"
        else if (cv <? 0.5)%float then "High"
        else "Very High")).
Proof.
  intros Hstats Hstd Hmean cv.
  unfold _categorize_risk, _categorize_risk_body. run_method.
  rewrite Hstats, Hstd, Hmean. unfold py_ne_zero. simpl. fold cv.
  destruct (mean =? 0)%float; simpl; fold cv;
    destruct (cv <? 0.1)%float; [reflexivity | | reflexivity |];
    (destruct (cv <? 0.3)%float; [reflexivity |]);
    (destruct (cv <? 0.5)%float; reflexivity).
Qed.

Lemma categorize_risk_recovers (self self' : Analyzer) (assessment : pyobj) (e : exn) :
  _categorize_risk_body assessment self = (self', Raised e) →
  _categorize_risk assessment self = (self', Returned "Unknown").
Proof. intros H. unfold _categorize_risk, try_except. rewrite H. reflexivity. Qed.

(** C5. With the standard deviation and the mean read from the
    assessment's basic statistics, the coefficient of variation is
    [cv = std_dev / |mean|], taken as plus infinity when the mean equals
    zero, and the category is 'Low' when [cv < 0.1], 'Moderate' when
    [0.1 <= cv < 0.3], 'High' when [0.3 <= cv < 0.5] and 'Very High' when
    [cv >= 0.5], which includes a zero mean; so [cv] exactly 0.1 gives
    'Moderate', exactly 0.3 'High' and exactly 0.5 'Very High'.  Whenever
    the guarded computation fails, for instance because the statistics are
    missing, the category is 'Unknown'. *)
Theorem risk_category_bands
    (self : Analyzer) (assessment stats : pyobj) (std_dev mean : float) :
  py_getitem assessment "basic_stats" = Returned stats →
  py_getitem stats "std_dev" = Returned (PFloat std_dev) →
  py_getitem stats "mean" = Returned (PFloat mean) →
  let cv := if (mean =? 0)%float then infinity else (std_dev / PrimFloat.abs mean)%float in
  let category := _categorize_risk assessment self in
  ((cv <? 0.1)%float = true → category = (self, Returned "Low")) ∧
  ((0.1 <=? cv)%float = true → (cv <? 0.3)%float = true →
     category = (self, Returned "Moderate")) ∧
  ((0.3 <=? cv)%float = true → (cv <? 0.5)%float = true →
     category = (self, Returned "High")) ∧
  ((0.5 <=? cv)%float = true → category = (self, Returned "Very High")) ∧
  ((mean =? 0)%float = true → category = (self, Returned "Very High")) ∧
  (cv = 0.1%float → category = (self, Returned "Moderate")) ∧
  (cv = 0.3%float → category = (self, Returned "High")) ∧
  (cv = 0.5%float → category = (self, Returned "Very High")) ∧
  (∀ (other : pyobj) (self' : Analyzer) (e : exn),
     _categorize_risk_body other self = (self', Raised e) →
     _categorize_risk other self = (self', Returned "Unknown")) ∧
  (∀ (other : pyobj) (e : exn),
     py_getitem other "basic_stats" = Raised e →
     _categorize_risk other self = (self, Returned "Unknown")).
Proof.
  intros Hstats Hstd Hmean cv category.
  pose proof (categorize_risk_floats self assessment stats std_dev mean Hstats Hstd Hmean) as Hcat.
  cbv zeta in Hcat. fold cv in Hcat. fold category in Hcat.
  assert (∀ a b : float, (a <? b)%float = true → (b <=? cv)%float = true →
            (cv <? a)%float = false) as Hbelow.
  { intros a b Hab Hb. destruct (cv <? a)%float eqn:Hlt; [| reflexivity].
    pose proof (float_ltb_trans _ _ _ Hlt Hab) as Hcb.
    rewrite (float_leb_not_ltb _ _ Hb) in Hcb. discriminate. }
  assert ((0.1 <? 0.3)%float = true) as H13 by reflexivity.
  assert ((0.3 <? 0.5)%float = true) as H35 by reflexivity.
  assert ((0.1 <? 0.5)%float = true) as H15 by reflexivity.
  assert ((0.5 <=? cv)%float = true → category = (self, Returned "Very High")) as Hvh.
  { intros H. rewrite Hcat, (Hbelow 0.1%float 0.5%float H15 H), (Hbelow 0.3%float 0.5%float H35 H),
      (float_leb_not_ltb _ _ H).
    reflexivity. }
  split; [| split; [| split; [| split; [| split; [| split; [| split; [| split; [| split]]]]]]]].
  - intros H. rewrite Hcat, H. reflexivity.
  - intros H1 H3. rewrite Hcat, (float_leb_not_ltb _ _ H1), H3. reflexivity.
  - intros H3 H5. rewrite Hcat, (Hbelow 0.1%float 0.3%float H13 H3), (float_leb_not_ltb _ _ H3), H5. reflexivity.
  - exact Hvh.
  - intros Hzero. apply Hvh. unfold cv. rewrite Hzero. reflexivity.
  - intros E. rewrite Hcat, E. reflexivity.
  - intros E. rewrite Hcat, E. reflexivity.
  - intros E. rewrite Hcat, E. reflexivity.
  - intros other self' e. apply categorize_risk_recovers.
  - intros other e Hmissing. apply (categorize_risk_recovers _ _ _ e).
    unfold _categorize_risk_body. run_method. rewrite Hmissing. reflexivity.
Qed.

Lemma risk_category_bands_witness :
  py_getitem assessment_cv_tenth "basic_stats" =
    Returned (PDict (dict [ ("std_dev", PFloat 0.1); ("mean", PFloat 1) ])) ∧
  _categorize_risk assessment_cv_tenth five_years_analyzer =
    (five_years_analyzer, Returned "Moderate") ∧
  _categorize_risk assessment_without_stats five_years_analyzer =
    (five_years_analyzer, Returned "Unknown").
Proof.
  split; [reflexivity |].
  destruct (risk_category_bands five_years_analyzer assessment_cv_tenth
              (PDict (dict [ ("std_dev", PFloat 0.1); ("mean", PFloat 1) ]))
              0.1 1 eq_refl eq_refl eq_refl)
    as (_ & _ & _ & _ & _ & Htenth & _ & _ & _ & Hmissing).
  split.
  - apply Htenth. reflexivity.
  - apply (Hmissing assessment_without_stats (KeyError "'basic_stats'")). reflexivity.
Defined.

(** ** Trend detection (C7, C8) *)

Lemma detect_trend_success (L : Library) (self : Analyzer) (r : LinregressResult) :
  stats_linregress L (np_arange (n_years self)) (data self) = Returned r →
  detect_trend L self =
    (self, Returned (dict
       [ ("slope", PFloat (slope r));
         ("intercept", PFloat (intercept r));
         ("r_value", PFloat (r_value r));
         ("p_value", PFloat (p_value r));
         ("std_err", PFloat (std_err r));
         ("significant", PBool (p_value r <? 0.05)%float);
         ("direction", PStr (if (0 <? slope r)%float then "increasing" else "decreasing"));
         ("trend_strength", PFloat (PrimFloat.abs (r_value r))) ])).
Proof. intros H. unfold detect_trend. run_method. rewrite H. reflexivity. Qed.

Lemma detect_trend_failure (L : Library) (self : Analyzer) (e : exn) :
  stats_linregress L (np_arange (n_years self)) (data self) = Raised e →
  detect_trend L self =
    (self, Returned (dict
       [ ("slope", PInt 0);
         ("p_value", PInt 1);
         ("significant", PBool false);
         ("direction", PStr "no trend");
         ("error", PStr (str e)) ])).
Proof. intros H. unfold detect_trend. run_method. rewrite H. reflexivity. Qed.

(** C8. Whenever the regression succeeds, the returned record has
    [significant] true exactly when the p-value is below 0.05, [direction]
    'increasing' when the slope is positive and 'decreasing' otherwise, in
    particular for a zero slope, and [trend_strength] the absolute value
    of the correlation coefficient. *)
Theorem trend_record_on_success (L : Library) (self : Analyzer) (r : LinregressResult) :
  stats_linregress L (np_arange (n_years self)) (data self) = Returned r →
  ∃ record : gmap string pyobj,
    detect_trend L self = (self, Returned record) ∧
    record !! "significant" = Some (PBool (p_value r <? 0.05)%float) ∧
    (record !! "significant" = Some (PBool true) ↔ (p_value r <? 0.05)%float = true) ∧
    ((0 <? slope r)%float = true → record !! "direction" = Some (PStr "increasing")) ∧
    ((0 <? slope r)%float = false → record !! "direction" = Some (PStr "decreasing")) ∧
    ((slope r =? 0)%float = true → record !! "direction" = Some (PStr "decreasing")) ∧
    record !! "trend_strength" = Some (PFloat (PrimFloat.abs (r_value r))) ∧
    record !! "slope" = Some (PFloat (slope r)) ∧
    record !! "p_value" = Some (PFloat (p_value r)) ∧
    record !! "r_value" = Some (PFloat (r_value r)).
Proof.
  intros H. eexists. split; [apply detect_trend_success, H |].
  assert (∀ b : bool, (Some (PBool b) = Some (PBool true)) ↔ b = true) as Hbool.
  { intros b. split; [intros [= ->]; reflexivity | intros ->; reflexivity]. }
  split; [reflexivity |]. split; [apply Hbool |].
  split; [intros Hpos | split; [intros Hneg | split; [intros Hzero | ]]].
  - change (Some (PStr (if (0 <? slope r)%float then "increasing" else "decreasing")) =
            Some (PStr "increasing")). rewrite Hpos. reflexivity.
  - change (Some (PStr (if (0 <? slope r)%float then "increasing" else "decreasing")) =
            Some (PStr "decreasing")). rewrite Hneg. reflexivity.
  - change (Some (PStr (if (0 <? slope r)%float then "increasing" else "decreasing")) =
            Some (PStr "decreasing")).
    destruct (float_eqb_not_ltb _ _ Hzero) as [-> _]. reflexivity.
  - repeat split; reflexivity.
Qed.

Lemma trend_record_on_success_witness :
  stats_linregress fitting_library (np_arange 5) five_years =
    Returned {| slope := 10; intercept := 10; r_value := 1; p_value := 0; std_err := 0 |} ∧
  ∃ record : gmap string pyobj,
    detect_trend fitting_library five_years_analyzer = (five_years_analyzer, Returned record) ∧
    record !! "significant" = Some (PBool true) ∧
    record !! "direction" = Some (PStr "increasing") ∧
    record !! "trend_strength" = Some (PFloat 1).
Proof.
  split; [reflexivity |].
  destruct (trend_record_on_success fitting_library five_years_analyzer
              {| slope := 10; intercept := 10; r_value := 1; p_value := 0; std_err := 0 |}
              eq_refl)
    as (record & Hrun & Hsig & _ & Hinc & _ & _ & Hstrength & _).
  exists record. split; [exact Hrun |]. split; [exact Hsig |].
  split; [apply Hinc; reflexivity | exact Hstrength].
Defined.

Lemma detect_trend_returns (L : Library) (self : Analyzer) :
  ∃ record, detect_trend L self = (self, Returned record).
Proof.
  destruct (stats_linregress L (np_arange (n_years self)) (data self)) as [r | e] eqn:H.
  - eexists. apply detect_trend_success, H.
  - eexists. apply detect_trend_failure, H.
Qed.

Lemma gumbel_goodness_of_fit_returns (L : Library) (params : float * float) (self : Analyzer) :
  ∃ record, _gumbel_goodness_of_fit L params self = (self, Returned record).
Proof.
  unfold _gumbel_goodness_of_fit. run_method.
  destruct (stats_kstest L _ _); eexists; reflexivity.
Qed.

Lemma get_extreme_value_analysis_returns (L : Library) (self : Analyzer) :
  ∃ record, get_extreme_value_analysis L self = (self, Returned record).
Proof.
  unfold get_extreme_value_analysis. run_method.
  destruct (stats_gumbel_r_fit L (data self)) as [params | e]; [| eexists; reflexivity].
  destruct (gumbel_goodness_of_fit_returns L params self) as [g Hg].
  rewrite Hg. eexists. reflexivity.
Qed.

Lemma categorize_risk_returns (assessment : pyobj) (self : Analyzer) :
  ∃ category, _categorize_risk assessment self = (self, Returned category).
Proof.
  unfold _categorize_risk, _categorize_risk_body. run_method.
  destruct (py_getitem assessment "basic_stats") as [stats |]; [| eexists; reflexivity].
  destruct (py_getitem stats "std_dev") as [std_dev |]; [| eexists; reflexivity].
  destruct (py_getitem stats "mean") as [mean |]; [| eexists; reflexivity].
  destruct (py_ne_zero mean).
  - destruct (py_abs mean) as [a |]; [| eexists; reflexivity].
    destruct (py_truediv std_dev a) as [cv |]; [| eexists; reflexivity].
    destruct (cv <? 0.1)%float; [eexists; reflexivity |].
    destruct (cv <? 0.3)%float; [eexists; reflexivity |].
    destruct (cv <? 0.5)%float; eexists; reflexivity.
  - eexists. reflexivity.
Qed.

Lemma calculate_probability_returns (self : Analyzer) (t : float) (d : string) :
  d = "exceeds" ∨ d = "below" →
  ∃ p, calculate_probability t d self = (self, Returned p) ∧
       calculate_return_period t d self =
         (self, Returned (if (p =? 0)%float then infinity else (1 / p)%float)).
Proof.
  intros [-> | ->]; eexists; (split; [reflexivity |]);
    unfold calculate_return_period, calculate_probability; run_method;
    match goal with |- context [(?p =? 0)%float] => destruct (p =? 0)%float end; reflexivity.
Qed.

Lemma generate_risk_assessment_returns
    (L : Library) (thresholds : ThresholdSet) (self : Analyzer) (trend : gmap string pyobj) :
  detect_trend L self = (self, Returned trend) →
  ∃ assessment : gmap string pyobj,
    generate_risk_assessment L thresholds self = (self, Returned assessment) ∧
    assessment !! "trend_analysis" = Some (PDict trend) ∧
    assessment !! "basic_stats" = Some (PDict (dict
      [ ("mean", PFloat (np_mean (data self)));
        ("median", PFloat (np_median L (data self)));
        ("std_dev", PFloat (np_std 0 (data self)));
        ("min_recorded", PFloat (np_min L (data self)));
        ("max_recorded", PFloat (np_max L (data self)));
        ("data_years", PInt (Z.of_nat (n_years self))) ])) ∧
    is_Some (assessment !! "percentiles") ∧
    is_Some (assessment !! "extreme_values") ∧
    is_Some (assessment !! "risk_category").
Proof.
  intros Htrend.
  unfold generate_risk_assessment, get_percentiles.
  unfold mbind, Method_bind, method_bind, mret, Method_ret, method_ret, self_data, self_n_years.
  rewrite Htrend.
  destruct thresholds as [[t_hot |] [t_cold |] [[lo hi] |]]; cbn [hot cold comfortable];
    repeat match goal with
    | |- context [calculate_probability ?t ?d self] =>
        let p := fresh "p" in let Hp := fresh "Hp" in let Hrp := fresh "Hrp" in
        destruct (calculate_probability_returns self t d) as (p & Hp & Hrp);
        [auto |]; rewrite Hp, Hrp
    end;
    unfold get_comfortable_probability;
    unfold mbind, Method_bind, method_bind, mret, Method_ret, method_ret, self_data, self_n_years;
    destruct (get_extreme_value_analysis_returns L self) as [ev ->];
    match goal with
    | |- context [_categorize_risk ?a self] =>
        destruct (categorize_risk_returns a self) as [risk ->]
    end;
    eexists; (split; [reflexivity |]);
    rewrite ?lookup_insert_ne by discriminate;
    rewrite ?lookup_insert_eq;
    repeat split; try reflexivity; eexists; reflexivity.
Qed.

(** The category stored in the composite assessment is the band of the
    coefficient of variation of the sample itself. *)
Lemma generate_risk_assessment_category
    (L : Library) (thresholds : ThresholdSet) (self : Analyzer) :
  let mean := np_mean (data self) in
  let cv := if (mean =? 0)%float then infinity
            else (np_std 0 (data self) / PrimFloat.abs mean)%float in
  ∃ assessment : gmap string pyobj,
    generate_risk_assessment L thresholds self = (self, Returned assessment) ∧
    assessment !! "risk_category" =
      Some (PStr (if (cv <? 0.1)%float then "Low"
                  else if (cv <? 0.3)%float then "Moderate"
                  else if (cv <? 0.5)%float then "High"
                  else "Very High")).
Proof.
  intros mean cv.
  destruct (detect_trend_returns L self) as [trend Htrend].
  unfold generate_risk_assessment, get_percentiles.
  unfold mbind, Method_bind, method_bind, mret, Method_ret, method_ret, self_data, self_n_years.
  rewrite Htrend.
  destruct thresholds as [[t_hot |] [t_cold |] [[lo hi] |]]; cbn [hot cold comfortable];
    repeat match goal with
    | |- context [calculate_probability ?t ?d self] =>
        let p := fresh "p" in let Hp := fresh "Hp" in let Hrp := fresh "Hrp" in
        destruct (calculate_probability_returns self t d) as (p & Hp & Hrp);
        [auto |]; rewrite Hp, Hrp
    end;
    unfold get_comfortable_probability;
    unfold mbind, Method_bind, method_bind, mret, Method_ret, method_ret, self_data, self_n_years;
    destruct (get_extreme_value_analysis_returns L self) as [ev ->];
    match goal with
    | |- context [_categorize_risk ?a self] =>
        rewrite (categorize_risk_floats self a
                   (PDict (dict
                      [ ("mean", PFloat (np_mean (data self)));
                        ("median", PFloat (np_median L (data self)));
                        ("std_dev", PFloat (np_std 0 (data self)));
                        ("min_recorded", PFloat (np_min L (data self)));
                        ("max_recorded", PFloat (np_max L (data self)));
                        ("data_years", PInt (Z.of_nat (n_years self))) ]))
                   (np_std 0 (data self)) (np_mean (data self)) eq_refl eq_refl eq_refl)
    end;
    eexists; (split; [reflexivity |]); rewrite lookup_insert_eq; reflexivity.
Qed.

(** The scenario of thirty identical years: the standard deviation is
    zero and the category is 'Low'. *)
Example constant_sample_is_low_risk :
  np_std 0 constant_years = 0%float ∧
  ∃ assessment : gmap string pyobj,
    generate_risk_assessment failing_library no_thresholds
      {| data := constant_years; n_years := 30 |} =
      ({| data := constant_years; n_years := 30 |}, Returned assessment) ∧
    assessment !! "risk_category" = Some (PStr "Low").
Proof.
  split; [vm_compute; reflexivity |].
  destruct (generate_risk_assessment_category failing_library no_thresholds
              {| data := constant_years; n_years := 30 |}) as (assessment & Hrun & Hrisk).
  exists assessment. split; [exact Hrun |]. rewrite Hrisk. vm_compute. reflexivity.
Qed.



(** ** Extreme values (C9) *)

(** C9. Whenever the Gumbel fit succeeds with location [mu] and scale
    [beta], the extreme-value result holds a table of return values that
    contains, for each return period [T] among 2, 5, 10, 20, 50 and 100,
    under the key 'T_year', the Gumbel quantile at probability [1 - 1/T],
    that is [mu - beta * ln(-ln(1 - 1/T))]. *)
Theorem gumbel_return_values (L : Library) (self : Analyzer) (mu beta : float) :
  stats_gumbel_r_fit L (data self) = Returned (mu, beta) →
  let quantile (T : Z) :=
    (mu - beta * np_log L (- np_log L (1 - 1 / float_of_Z T)))%float in
  ∃ record return_values : gmap string pyobj,
    get_extreme_value_analysis L self = (self, Returned record) ∧
    record !! "return_values" = Some (PDict return_values) ∧
    record !! "distribution_params" = Some (PTuple [PFloat mu; PFloat beta]) ∧
    (∀ T : Z, In T [2; 5; 10; 20; 50; 100]%Z →
       return_values !! (pretty T +:+ "_year") = Some (PFloat (quantile T))) ∧
    return_values !! "2_year" = Some (PFloat (quantile 2%Z)) ∧
    return_values !! "10_year" = Some (PFloat (quantile 10%Z)) ∧
    return_values !! "100_year" = Some (PFloat (quantile 100%Z)) ∧
    size return_values = 6.
Proof.
  intros Hfit quantile.
  unfold get_extreme_value_analysis. run_method. rewrite Hfit.
  destruct (gumbel_goodness_of_fit_returns L (mu, beta) self) as [goodness Hg].
  rewrite Hg. eexists. eexists. split; [reflexivity |].
  split; [reflexivity |]. split; [reflexivity |].
  split.
  { intros T HT. simpl in HT.
    destruct HT as [<- | [<- | [<- | [<- | [<- | [<- | []]]]]]]; vm_compute; reflexivity. }
  repeat split; vm_compute; reflexivity.
Qed.

Lemma gumbel_return_values_witness :
  stats_gumbel_r_fit fitting_library five_years = Returned (25%float, 10%float) ∧
  ∃ record return_values : gmap string pyobj,
    get_extreme_value_analysis fitting_library five_years_analyzer =
      (five_years_analyzer, Returned record) ∧
    record !! "return_values" = Some (PDict return_values) ∧
    return_values !! "10_year" = Some (PFloat (25 - 10 * - (1 - 1 / 10))%float).
Proof.
  split; [reflexivity |].
  destruct (gumbel_return_values fitting_library five_years_analyzer 25 10 eq_refl)
    as (record & return_values & Hrun & Hrv & _ & _ & _ & H10 & _).
  exists record, return_values. split; [exact Hrun |]. split; [exact Hrv |].
  rewrite H10. vm_compute. reflexivity.
Defined.

(** ** Percentiles (C3) *)

#[local] Instance Qle_transitive : Transitive Qle.
Proof. intros x y z. apply Qle_trans. Qed.

#[local] Instance Qle_total : Total Qle.
Proof.
  intros x y. destruct (Qlt_le_dec y x) as [H | H]; [right; apply Qlt_le_weak, H | left; exact H].
Qed.







(** ** Confidence interval of the mean (C6) *)

Lemma confidence_interval_unfold (L : Library) (self : Analyzer) (c : float) :
  confidence_interval L c self =
    (self, Returned
       ((np_mean (data self) -
           (if (n_years self <? 30)%nat
            then stats_t_ppf L (1 - (1 - c) / 2) (Z.of_nat (n_years self) - 1)
            else stats_norm_ppf L (1 - (1 - c) / 2)) * stats_sem (data self))%float,
        (np_mean (data self) +
           (if (n_years self <? 30)%nat
            then stats_t_ppf L (1 - (1 - c) / 2) (Z.of_nat (n_years self) - 1)
            else stats_norm_ppf L (1 - (1 - c) / 2)) * stats_sem (data self))%float)).
Proof.
  unfold confidence_interval. run_method. destruct (n_years self <? 30)%nat; reflexivity.
Qed.

(** With a single observation the standard error is NaN, whatever the
    quantile routines return, and so are both bounds: the interval does
    not contain the mean. *)
Lemma confidence_interval_single_observation :
  __init__ single_year = Returned (single_year_analyzer, [few_years_warning 1]) ∧
  ¬ ∃ (L : Library) (lower upper : float),
      confidence_interval L 0.95 single_year_analyzer =
        (single_year_analyzer, Returned (lower, upper)) ∧
      (lower <=? np_mean single_year)%float = true ∧
      (np_mean single_year <=? upper)%float = true.
Proof.
  split; [reflexivity |].
  intros (L & lower & upper & Hrun & Hlower & _).
  rewrite confidence_interval_unfold in Hrun.
  assert (stats_sem (data single_year_analyzer) = nan) as Hsem by (vm_compute; reflexivity).
  rewrite Hsem, float_mul_nan_r, float_sub_nan_r in Hrun.
  injection Hrun as <- _. vm_compute in Hlower. discriminate.
Qed.

(** C6 (amended). For every analyzer and confidence level [c] the
    interval is [(mean - margin, mean + margin)], both bounds being
    computed from the sample mean with the same margin
    [margin = critical_value * se], where [se] is the Bessel-corrected
    standard deviation divided by the square root of [n] and the critical
    value is the Student t quantile at [1 - (1 - c) / 2] with [n - 1]
    degrees of freedom when [n < 30] and the standard normal quantile
    otherwise.  Whenever the mean is finite and the margin is a
    non-negative number, the interval contains the mean.  When the
    standard error is NaN, as it is for a single observation, both bounds
    are NaN. *)
Theorem confidence_interval_formula (L : Library) (self : Analyzer) (c : float) :
  let mean := np_mean (data self) in
  let se := (np_std 1 (data self) / PrimFloat.sqrt (float_of_nat (length (data self))))%float in
  let level := (1 - (1 - c) / 2)%float in
  ∃ critical_value : float,
    let margin := (critical_value * se)%float in
    confidence_interval L c self =
      (self, Returned ((mean - margin)%float, (mean + margin)%float)) ∧
    (n_years self < 30 → critical_value = stats_t_ppf L level (Z.of_nat (n_years self) - 1)) ∧
    (30 ≤ n_years self → critical_value = stats_norm_ppf L level) ∧
    (PrimFloat.is_finite mean = true → (0 <=? margin)%float = true →
       (mean - margin <=? mean)%float = true ∧ (mean <=? mean + margin)%float = true) ∧
    (PrimFloat.is_nan se = true →
       confidence_interval L c self = (self, Returned (nan, nan))).
Proof.
  intros mean se level. rewrite confidence_interval_unfold.
  eexists. cbv zeta. split; [reflexivity |].
  split; [| split; [| split]].
  - intros Hn. apply Nat.ltb_lt in Hn. rewrite Hn. reflexivity.
  - intros Hn. apply Nat.ltb_ge in Hn. rewrite Hn. reflexivity.
  - intros Hfin Hmargin. split.
    + apply float_sub_nonneg_le; assumption.
    + apply float_add_nonneg_ge; assumption.
  - intros Hnan. apply float_is_nan_eq in Hnan. unfold stats_sem. fold se. rewrite Hnan.
    rewrite float_mul_nan_r, float_sub_nan_r, float_add_nan_r. reflexivity.
Qed.

(** The scenario of five years at the 95% level, with the Student t
    quantile for four degrees of freedom: the interval contains the mean. *)
Example confidence_interval_five_years :
  confidence_interval failing_library 0.95 five_years_analyzer =
    (five_years_analyzer, Returned (10.367568385224395%float, 49.632431614775605%float)) ∧
  (10.367568385224395 <=? np_mean five_years)%float = true ∧
  (np_mean five_years <=? 49.632431614775605)%float = true.
Proof. repeat split; vm_compute; reflexivity. Qed.

(** ** Quotients against representable numbers *)

(** The truncated quotient computed by the division lies below the exact
    one, strictly so when the division leaves a remainder. *)
Lemma quotient_floor_below (m1 m2 : positive) (e1 e2 : Z) :
  (-1074 <= e1)%Z → (-1074 <= e2)%Z → (-1074 <= e1 - e2 - 53)%Z →
  let q := (Z.pos m1 * 2 ^ 53 / Z.pos m2)%Z in
  let r := (Z.pos m1 * 2 ^ 53 mod Z.pos m2)%Z in
  (scaled q (e1 - e2 - 53) * scaled (Z.pos m2) e2 <= scaled (Z.pos m1) e1 * 2 ^ 1074)%Z ∧
  (r ≠ 0%Z →
   (scaled q (e1 - e2 - 53) * scaled (Z.pos m2) e2 < scaled (Z.pos m1) e1 * 2 ^ 1074)%Z).
Proof.
  intros He1 He2 He' q r.
  pose proof (Z.div_mod (Z.pos m1 * 2 ^ 53) (Z.pos m2) ltac:(lia)) as Hdm.
  pose proof (Z.mod_pos_bound (Z.pos m1 * 2 ^ 53) (Z.pos m2) ltac:(lia)) as Hr.
  fold q r in Hdm, Hr.
  set (P := (2 ^ (e1 - e2 - 53 + 1074) * 2 ^ (e2 + 1074))%Z).
  assert (0 < P)%Z as HP.
  { unfold P. apply Z.mul_pos_pos; apply pow2_pos; lia. }
  assert (scaled q (e1 - e2 - 53) * scaled (Z.pos m2) e2 = (Z.pos m2 * q) * P)%Z as E1.
  { unfold scaled, P. ring. }
  assert (scaled (Z.pos m1) e1 * 2 ^ 1074 = (Z.pos m1 * 2 ^ 53) * P)%Z as E2.
  { unfold scaled, P. rewrite <- !Z.mul_assoc. f_equal.
    rewrite <- !pow2_add by lia. f_equal. lia. }
  rewrite E1, E2. split.
  - apply Z.mul_le_mono_nonneg_r; lia.
  - intros Hne. apply Z.mul_lt_mono_pos_r; lia.
Qed.

(** The rounded quotient of two normal numbers compared with a
    representable number: it is on the same side as the exact quotient. *)
Lemma SFdiv_normal_vs_canonical (m1 m2 mv : positive) (e1 e2 ev : Z) :
  Z.pos (digits2_pos m1) = 53%Z → Z.pos (digits2_pos m2) = 53%Z →
  (-1074 <= e1)%Z → (-1074 <= e2)%Z → (-1074 <= e1 - e2 - 53)%Z →
  canonical64 mv ev → (ev <= 971)%Z →
  let R := SFdiv prec emax (S754_finite false m1 e1) (S754_finite false m2 e2) in
  let V := S754_finite false mv ev in
  ((scaled (Z.pos m1) e1 * 2 ^ 1074 <= scaled (Z.pos mv) ev * scaled (Z.pos m2) e2)%Z →
   SFleb R V = true) ∧
  ((scaled (Z.pos mv) ev * scaled (Z.pos m2) e2 <= scaled (Z.pos m1) e1 * 2 ^ 1074)%Z →
   SFleb V R = true).
Proof.
  intros Hd1 Hd2 He1 He2 He' Hcv Hev R V.
  pose proof (digits2_pos_bounds m1) as Hb1. pose proof (digits2_pos_bounds m2) as Hb2.
  rewrite Hd1 in Hb1. rewrite Hd2 in Hb2.
  change (2 ^ (53 - 1))%Z with 4503599627370496%Z in Hb1, Hb2.
  change (2 ^ 53)%Z with 9007199254740992%Z in Hb1, Hb2.
  destruct (SFdiv_core_binary_spec m1 m2 e1 e2) as (l & Hcore & Hl).
  cbv zeta in Hcore, Hl. rewrite Hd1, Hd2 in Hcore, Hl.
  replace (Z.min (fexp64 (53 + e1 - (53 + e2))) (e1 - e2)) with (e1 - e2 - 53)%Z in Hcore, Hl
    by (unfold fexp64; lia).
  replace (e1 - e2 - (e1 - e2 - 53))%Z with 53%Z in Hcore, Hl by lia.
  set (q := (Z.pos m1 * 2 ^ 53 / Z.pos m2)%Z) in *.
  set (e' := (e1 - e2 - 53)%Z) in *.
  assert (4503599627370496 <= q)%Z as Hq.
  { unfold q. change (2 ^ 53)%Z with 9007199254740992%Z.
    apply Z.div_le_lower_bound; lia. }
  assert (53 <= Zdigits2 q)%Z as Hdq.
  { change 53%Z with (Zdigits2 4503599627370496). apply Zdigits2_mono. lia. }
  destruct (quotient_floor_below m1 m2 e1 e2 He1 He2 He') as [Hfloor Hstrict].
  fold q e' in Hfloor, Hstrict.
  assert (0 < scaled (Z.pos m2) e2)%Z as HY.
  { unfold scaled. apply Z.mul_pos_pos; [lia | apply pow2_pos; lia]. }
  destruct (binary_round_aux_vs_canonical q e' l mv ev ltac:(lia) He'
              ltac:(unfold fexp64; lia) Hcv Hev) as (_ & Hle & Hge).
  assert (R = binary_round_aux prec emax false q e' l) as ->.
  { unfold R. cbn [SFdiv xorb]. rewrite Hcore. reflexivity. }
  split.
  - intros H. apply Hle.
    + apply (Z.mul_le_mono_pos_r _ _ (scaled (Z.pos m2) e2)); lia.
    + intros Hne. apply (Z.mul_lt_mono_pos_r (scaled (Z.pos m2) e2)); [lia |].
      assert (Z.pos m1 * 2 ^ 53 mod Z.pos m2 ≠ 0)%Z as Hrem.
      { intros Hz. apply Hne, Hl, Hz. }
      specialize (Hstrict Hrem). lia.
  - intros H. apply Hge.
    destruct (canonical64_facts mv ev Hcv) as (Hev0 & Hdv & _).
    pose proof (digits2_pos_bounds mv) as [_ Hbv].
    pose proof (pow2_le (Z.pos (digits2_pos mv)) 53 ltac:(lia)) as Hp53.
    change (2 ^ 53)%Z with 9007199254740992%Z in Hp53.
    destruct (Z.le_gt_cases e' ev) as [Hcase | Hcase].
    + (* the number is a multiple of the quotient's unit *)
      set (K := (Z.pos mv * 2 ^ (ev - e'))%Z).
      assert (scaled (Z.pos mv) ev = scaled K e') as EK.
      { unfold scaled, K. replace (ev + 1074)%Z with ((ev - e') + (e' + 1074))%Z by lia.
        rewrite (pow2_add (ev - e') (e' + 1074)) by lia. ring. }
      rewrite EK in H |- *.
      assert (K <= q)%Z as HKq.
      { unfold q. apply Z.div_le_lower_bound; [lia |].
        pose proof (Z.div_mod (Z.pos m1 * 2 ^ 53) (Z.pos m2) ltac:(lia)) as Hdm.
        set (P := (2 ^ (e' + 1074) * 2 ^ (e2 + 1074))%Z).
        assert (0 < P)%Z as HP by (unfold P; apply Z.mul_pos_pos; apply pow2_pos; lia).
        assert (scaled K e' * scaled (Z.pos m2) e2 = (Z.pos m2 * K) * P)%Z as E1
          by (unfold scaled, P; ring).
        assert (scaled (Z.pos m1) e1 * 2 ^ 1074 = (Z.pos m1 * 2 ^ 53) * P)%Z as E2.
        { unfold scaled, P, e'.
          rewrite <- !Z.mul_assoc. f_equal.
          rewrite <- !pow2_add by lia. f_equal. lia. }
        rewrite E1, E2 in H. apply Z.mul_le_mono_pos_r in H; lia. }
      unfold scaled. apply Z.mul_le_mono_nonneg_r; [| exact HKq].
      apply Z.lt_le_incl, pow2_pos. lia.
    + (* the number is below the smallest quotient of this exponent *)
      pose proof (pow2_pos (ev + 1074) ltac:(lia)) as HPv.
      pose proof (pow2_pos (e' + 1074) ltac:(lia)) as HPe.
      assert (2 * 2 ^ (ev + 1074) <= 2 ^ (e' + 1074))%Z as Hstep.
      { replace (2 * 2 ^ (ev + 1074))%Z with (2 ^ (1 + (ev + 1074)))%Z
          by (rewrite (pow2_add 1 (ev + 1074)) by lia; reflexivity).
        apply pow2_le. lia. }
      unfold scaled.
      apply Z.le_trans with (9007199254740992 * 2 ^ (ev + 1074))%Z.
      * apply Z.mul_le_mono_nonneg_r; lia.
      * apply Z.le_trans with (4503599627370496 * 2 ^ (e' + 1074))%Z; [lia |].
        apply Z.mul_le_mono_nonneg_r; lia.
Qed.

(** ** Quotients of counts *)

Lemma SFleb_canonical (ma mb : positive) (ea eb : Z) :
  canonical64 ma ea → canonical64 mb eb →
  SFleb (S754_finite false ma ea) (S754_finite false mb eb) = true ↔
  (scaled (Z.pos ma) ea <= scaled (Z.pos mb) eb)%Z.
Proof.
  intros Ha Hb. unfold SFleb. rewrite (SFcompare_canonical ma mb ea eb Ha Hb).
  destruct (Z.compare_spec (scaled (Z.pos ma) ea) (scaled (Z.pos mb) eb));
    split; intros; try reflexivity; try discriminate; lia.
Qed.

(** A count below [2^53], as a binary64 number: a normal number with the
    same value. *)
Lemma count_normal (c : positive) :
  (Z.pos c < 2 ^ 53)%Z →
  ∃ (m : positive) (e : Z),
    Prim2SF (float_of_Z (Z.pos c)) = S754_finite false m e ∧
    canonical64 m e ∧ (-52 <= e <= 0)%Z ∧ Z.pos (digits2_pos m) = 53%Z ∧
    scaled (Z.pos m) e = (Z.pos c * 2 ^ 1074)%Z.
Proof.
  intros Hc. destruct (Prim2SF_float_of_Z_small c Hc) as (m & e & Hrun & Hcan & He & Hval).
  exists m, e. destruct (canonical64_facts m e Hcan) as (_ & _ & Hd).
  split; [exact Hrun |]. split; [exact Hcan |]. split; [exact He |].
  split; [apply Hd; lia |]. exact Hval.
Qed.

(** The quotient of a count by a larger one is at most 1. *)
Lemma SFdiv_count_le_one (mc mn : positive) (ec en : Z) (c n : positive) :
  canonical64 mc ec → (-52 <= ec <= 0)%Z → Z.pos (digits2_pos mc) = 53%Z →
  scaled (Z.pos mc) ec = (Z.pos c * 2 ^ 1074)%Z →
  canonical64 mn en → (-52 <= en <= 0)%Z → Z.pos (digits2_pos mn) = 53%Z →
  scaled (Z.pos mn) en = (Z.pos n * 2 ^ 1074)%Z →
  (Z.pos c <= Z.pos n)%Z →
  SFleb (SFdiv prec emax (S754_finite false mc ec) (S754_finite false mn en))
        (S754_finite false 4503599627370496 (-52)) = true.
Proof.
  intros Hcc Hec Hdc Hvc Hcn Hen Hdn Hvn Hle.
  apply (SFdiv_normal_vs_canonical mc mn 4503599627370496 ec en (-52) Hdc Hdn
           ltac:(lia) ltac:(lia) ltac:(lia) eq_refl ltac:(lia)).
  rewrite Hvc, Hvn.
  change (scaled 4503599627370496 (-52)) with (2 ^ 1074)%Z.
  pose proof (pow2_pos 1074 ltac:(lia)) as HW.
  set (W := (2 ^ 1074)%Z) in *.
  replace (W * (Z.pos n * W))%Z with (Z.pos n * W * W)%Z by ring.
  apply Z.mul_le_mono_nonneg_r; [lia |]. apply Z.mul_le_mono_nonneg_r; lia.
Qed.

(** The quotient by a fixed count is monotone in the count divided. *)
Lemma SFdiv_count_monotone (ma mb mn : positive) (ea eb en : Z) (a b n : positive) :
  canonical64 ma ea → (-52 <= ea <= 0)%Z → Z.pos (digits2_pos ma) = 53%Z →
  scaled (Z.pos ma) ea = (Z.pos a * 2 ^ 1074)%Z →
  canonical64 mb eb → (-52 <= eb <= 0)%Z → Z.pos (digits2_pos mb) = 53%Z →
  scaled (Z.pos mb) eb = (Z.pos b * 2 ^ 1074)%Z →
  canonical64 mn en → (-52 <= en <= 0)%Z → Z.pos (digits2_pos mn) = 53%Z →
  scaled (Z.pos mn) en = (Z.pos n * 2 ^ 1074)%Z →
  (Z.pos a < Z.pos b)%Z → (Z.pos b <= Z.pos n)%Z →
  SFleb (SFdiv prec emax (S754_finite false ma ea) (S754_finite false mn en))
        (SFdiv prec emax (S754_finite false mb eb) (S754_finite false mn en)) = true.
Proof.
  intros Hca Hea Hda Hva Hcb Heb Hdb Hvb Hcn Hen Hdn Hvn Hab Hbn.
  destruct (SFdiv_normal ma mn ea en Hda Hdn ltac:(lia) ltac:(lia))
    as (delta & mp & ep & Hdelta & _ & Hrun & Hcp & Hep & Hq & Hk1 & Hx & Hval).
  rewrite Hrun.
  apply (SFdiv_normal_vs_canonical mb mn mp eb en ep Hdb Hdn
           ltac:(lia) ltac:(lia) ltac:(lia) Hcp Hep).
  destruct (quotient_floor_below ma mn ea en ltac:(lia) ltac:(lia) ltac:(lia)) as [Hfloor _].
  set (q := (Z.pos ma * 2 ^ 53 / Z.pos mn)%Z) in *.
  set (k1 := (Zdigits2 q - 53)%Z) in *.
  set (x := (q / 2 ^ k1)%Z) in *.
  set (e' := (ea - en - 53)%Z) in *.
  pose proof (digits2_pos_bounds ma) as Hba. rewrite Hda in Hba.
  pose proof (digits2_pos_bounds mn) as Hbn'. rewrite Hdn in Hbn'.
  change (2 ^ (53 - 1))%Z with 4503599627370496%Z in Hba, Hbn'.
  change (2 ^ 52)%Z with 4503599627370496%Z in *.
  change (2 ^ 53)%Z with 9007199254740992%Z in *.
  change (2 ^ 54)%Z with 18014398509481984%Z in *.
  pose proof (pow2_pos 1074 ltac:(lia)) as HW.
  set (W := (2 ^ 1074)%Z) in *.
  set (Y := scaled (Z.pos mn) en) in *.
  assert (0 < Y)%Z as HY by (rewrite Hvn; lia).
  pose proof (pow2_pos k1 ltac:(lia)) as HK.
  pose proof (pow2_pos (e' + 1074) ltac:(unfold e'; lia)) as HE.
  set (U := (2 ^ k1 * 2 ^ (e' + 1074))%Z).
  (* the rounded quotient is within one unit of the truncated one *)
  assert (scaled (Z.pos mp) ep <= scaled q e' + U)%Z as Hnear.
  { rewrite Hval. unfold scaled, U.
    replace (e' + k1 + 1074)%Z with (k1 + (e' + 1074))%Z by lia.
    rewrite (pow2_add k1 (e' + 1074)) by (unfold e'; lia).
    pose proof (Z.mul_div_le q (2 ^ k1) ltac:(lia)) as Hfl. fold x in Hfl.
    apply Z.le_trans with ((x + 1) * (2 ^ k1 * 2 ^ (e' + 1074)))%Z.
    - apply Z.mul_le_mono_nonneg_r; lia.
    - replace ((x + 1) * (2 ^ k1 * 2 ^ (e' + 1074)))%Z
        with ((2 ^ k1 * x) * 2 ^ (e' + 1074) + 2 ^ k1 * 2 ^ (e' + 1074))%Z by ring.
      apply Z.add_le_mono_r. apply Z.mul_le_mono_nonneg_r; lia. }
  (* that unit, times the divisor, is at most one *)
  assert (ea + k1 <= 0)%Z as Hexp.
  { destruct (Z.eq_dec ea 0%Z) as [E0 | Hne]; [| lia].
    assert (Z.pos ma = Z.pos a) as Ema.
    { rewrite E0 in Hva. unfold scaled in Hva. fold W in Hva. change (0 + 1074)%Z with 1074%Z in Hva.
      fold W in Hva. nia. }
    assert (en = 0)%Z as En.
    { destruct (Z.eq_dec en 0%Z) as [| Hne]; [assumption | exfalso].
      pose proof (pow2_le (en + 1074) 1073 ltac:(lia)) as Hp.
      pose proof (pow2_pos (en + 1074) ltac:(lia)) as Hp'.
      assert (W = 2 * 2 ^ 1073)%Z as EW by reflexivity.
      unfold Y, scaled in Hvn.
      assert (Z.pos mn * 2 ^ (en + 1074) < 9007199254740992 * 2 ^ 1073)%Z as Hlt.
      { apply Z.lt_le_trans with (9007199254740992 * 2 ^ (en + 1074))%Z.
        - apply Z.mul_lt_mono_pos_r; lia.
        - apply Z.mul_le_mono_nonneg_l; lia. }
      rewrite Hvn, EW in Hlt.
      pose proof (pow2_pos 1073 ltac:(lia)). nia. }
    assert (Z.pos mn = Z.pos n) as Emn.
    { unfold Y, scaled in Hvn. rewrite En in Hvn. change (0 + 1074)%Z with 1074%Z in Hvn.
      fold W in Hvn. nia. }
    assert (q < 9007199254740992)%Z as Hq53.
    { unfold q. apply Z.div_lt_upper_bound; lia. }
    destruct (Zdigits2_bounds q ltac:(lia)) as [_ [Hlow _]].
    assert (Zdigits2 q <= 53)%Z.
    { destruct (Z.le_gt_cases (Zdigits2 q) 53) as [| Hgt]; [assumption |].
      pose proof (pow2_le 53 (Zdigits2 q - 1) ltac:(lia)) as Hp.
      change (2 ^ 53)%Z with 9007199254740992%Z in Hp. lia. }
    unfold k1. lia. }
  assert (U * Y <= W * W)%Z as Hunit.
  { unfold U, Y, scaled.
    replace (2 ^ k1 * 2 ^ (e' + 1074) * (Z.pos mn * 2 ^ (en + 1074)))%Z
      with (Z.pos mn * (2 ^ k1 * 2 ^ (e' + 1074) * 2 ^ (en + 1074)))%Z by ring.
    rewrite <- !pow2_add by (unfold e'; lia).
    apply Z.le_trans with (9007199254740992 * 2 ^ (k1 + (e' + 1074) + (en + 1074)))%Z.
    - apply Z.mul_le_mono_nonneg_r; [| lia].
      apply Z.lt_le_incl, pow2_pos. unfold e'. lia.
    - change 9007199254740992%Z with (2 ^ 53)%Z. unfold W.
      rewrite <- !pow2_add by (unfold e'; lia). apply pow2_le. unfold e'. lia. }
  (* the next count is a whole step further *)
  fold Y. rewrite Hvb, Hva in *.
  apply Z.le_trans with ((scaled q e' + U) * Y)%Z.
  - apply Z.mul_le_mono_nonneg_r; lia.
  - rewrite Z.mul_add_distr_r.
    apply Z.le_trans with (Z.pos a * W * W + W * W)%Z; [lia |].
    replace (Z.pos a * W * W + W * W)%Z with ((Z.pos a + 1) * W * W)%Z by ring.
    apply Z.mul_le_mono_nonneg_r; [lia |]. apply Z.mul_le_mono_nonneg_r; lia.
Qed.

Lemma Prim2SF_zero_quotient (n : positive) :
  (Z.pos n < 2 ^ 53)%Z →
  Prim2SF (float_of_nat 0 / float_of_Z (Z.pos n)) = S754_zero false.
Proof.
  intros Hn. destruct (count_normal n Hn) as (m & e & Hrun & _).
  rewrite FloatAxioms.div_spec, Hrun. unfold SF64div.
  change (Prim2SF (float_of_nat 0)) with (S754_zero false). reflexivity.
Qed.

Lemma float_of_nat_succ (k : nat) : float_of_nat (S k) = float_of_Z (Z.pos (Pos.of_succ_nat k)).
Proof. reflexivity. Qed.

(** The quotient of a count by a larger one, below [2^53], lies between 0
    and 1. *)
Lemma count_quotient_unit_interval (c n : nat) :
  c ≤ n → 0 < n → (Z.of_nat n < 2 ^ 53)%Z →
  let p := (float_of_nat c / float_of_nat n)%float in
  (0 <=? p)%float = true ∧ (p <=? 1)%float = true.
Proof.
  intros Hle Hpos Hn p. unfold p.
  destruct n as [| n]; [lia |]. rewrite float_of_nat_succ.
  change (Z.of_nat (S n)) with (Z.pos (Pos.of_succ_nat n)) in Hn.
  rewrite !FloatAxioms.leb_spec.
  destruct c as [| c].
  - rewrite Prim2SF_zero_quotient by exact Hn. split; reflexivity.
  - rewrite float_of_nat_succ, FloatAxioms.div_spec. unfold SF64div.
    destruct (count_normal (Pos.of_succ_nat c) ltac:(lia)) as (mc & ec & Hc & Hcc & Hec & Hdc & Hvc).
    destruct (count_normal (Pos.of_succ_nat n) Hn) as (mn & en & Hn' & Hcn & Hen & Hdn & Hvn).
    rewrite Hc, Hn'.
    split.
    + destruct (SFdiv_normal mc mn ec en Hdc Hdn ltac:(lia) ltac:(lia))
        as (delta & mp & ep & _ & _ & Hrun & _).
      rewrite Hrun. reflexivity.
    + apply (SFdiv_count_le_one mc mn ec en (Pos.of_succ_nat c) (Pos.of_succ_nat n));
        try assumption. lia.
Qed.

(** The quotient by a fixed count below [2^53] is monotone in the count
    divided. *)
Lemma count_quotient_monotone (a b n : nat) :
  a ≤ b → b ≤ n → 0 < n → (Z.of_nat n < 2 ^ 53)%Z →
  (float_of_nat a / float_of_nat n <=? float_of_nat b / float_of_nat n)%float = true.
Proof.
  intros Hab Hbn Hpos Hn.
  destruct a as [| a].
  - destruct (count_quotient_unit_interval b n Hbn Hpos Hn) as [H0 _].
    destruct n as [| n]; [lia |].
    rewrite FloatAxioms.leb_spec in *. rewrite float_of_nat_succ in *.
    rewrite Prim2SF_zero_quotient by exact Hn. exact H0.
  - destruct b as [| b]; [lia |]. destruct n as [| n]; [lia |].
    rewrite !float_of_nat_succ, FloatAxioms.leb_spec, !FloatAxioms.div_spec. unfold SF64div.
    change (Z.of_nat (S n)) with (Z.pos (Pos.of_succ_nat n)) in Hn.
    destruct (count_normal (Pos.of_succ_nat a) ltac:(lia)) as (ma & ea & Ha & Hca & Hea & Hda & Hva).
    destruct (count_normal (Pos.of_succ_nat b) ltac:(lia)) as (mb & eb & Hb & Hcb & Heb & Hdb & Hvb).
    destruct (count_normal (Pos.of_succ_nat n) Hn) as (mn & en & Hn' & Hcn & Hen & Hdn & Hvn).
    rewrite Ha, Hb, Hn'.
    destruct (decide (a = b)) as [-> | Hne].
    + rewrite Ha in Hb. injection Hb as -> ->.
      destruct (SFdiv_normal mb mn eb en Hdb Hdn ltac:(lia) ltac:(lia))
        as (delta & mp & ep & _ & _ & Hrun & _).
      rewrite Hrun. unfold SFleb. rewrite SFcompare_refl by discriminate. reflexivity.
    + apply (SFdiv_count_monotone ma mb mn ea eb en
               (Pos.of_succ_nat a) (Pos.of_succ_nat b) (Pos.of_succ_nat n));
        try assumption; lia.
Qed.

(** The reciprocal of such a quotient, when the count is not zero, is a
    finite number and at least 1. *)
Lemma count_reciprocal_at_least_one (c n : nat) :
  0 < c → c ≤ n → (Z.of_nat n < 2 ^ 53)%Z →
  let p := (float_of_nat c / float_of_nat n)%float in
  (p =? 0)%float = false ∧ (1 <=? 1 / p)%float = true ∧ (1 / p <? infinity)%float = true.
Proof.
  intros Hpos Hle Hn p. unfold p.
  destruct c as [| c]; [lia |]. destruct n as [| n]; [lia |].
  rewrite !float_of_nat_succ.
  change (Z.of_nat (S n)) with (Z.pos (Pos.of_succ_nat n)) in Hn.
  rewrite FloatAxioms.eqb_spec, FloatAxioms.leb_spec, FloatAxioms.ltb_spec, !FloatAxioms.div_spec.
  unfold SF64div.
  destruct (count_normal (Pos.of_succ_nat c) ltac:(lia)) as (mc & ec & Hc & Hcc & Hec & Hdc & Hvc).
  destruct (count_normal (Pos.of_succ_nat n) Hn) as (mn & en & Hn' & Hcn & Hen & Hdn & Hvn).
  rewrite Hc, Hn'.
  pose proof (SFdiv_count_le_one mc mn ec en (Pos.of_succ_nat c) (Pos.of_succ_nat n)
                Hcc Hec Hdc Hvc Hcn Hen Hdn Hvn ltac:(lia)) as Hone.
  destruct (SFdiv_fraction mc mn ec en Hcc Hcn Hec Hen) as (mp & ep & Hp & Hcp & Hep).
  { rewrite Hvc, Hvn. apply Z.mul_le_mono_nonneg_r; [| lia].
    apply Z.lt_le_incl, pow2_pos. lia. }
  rewrite Hp in Hone |- *.
  apply (SFleb_canonical mp 4503599627370496 ep (-52) Hcp eq_refl) in Hone.
  change (scaled 4503599627370496 (-52)) with (2 ^ 1074)%Z in Hone.
  destruct (canonical64_facts mp ep Hcp) as (_ & _ & Hdp).
  change (Prim2SF 1) with (S754_finite false 4503599627370496 (-52)).
  change (Prim2SF 0) with (S754_zero false).
  change (Prim2SF infinity) with (S754_infinity false).
  split; [reflexivity |]. split.
  - apply (SFdiv_normal_vs_canonical 4503599627370496 mp 4503599627370496 (-52) ep (-52)
             eq_refl ltac:(lia) ltac:(lia) ltac:(lia) ltac:(lia) eq_refl ltac:(lia)).
    change (scaled 4503599627370496 (-52)) with (2 ^ 1074)%Z.
    apply Z.mul_le_mono_nonneg_l; [| exact Hone].
    apply Z.lt_le_incl, pow2_pos. lia.
  - destruct (SFdiv_normal 4503599627370496 mp (-52) ep eq_refl ltac:(lia) ltac:(lia) ltac:(lia))
      as (delta & mr & er & _ & _ & Hrun & _).
    rewrite Hrun. reflexivity.
Qed.

(** ** Order facts used for the threshold counts *)

Lemma SFleb_ltb_trans (x y z : spec_float) :
  SFleb x y = true → SFltb y z = true → SFltb x z = true.
Proof.
  unfold SFleb, SFltb.
  destruct x as [sx | sx | | sx mx ex], y as [sy | sy | | sy my ey], z as [sz | sz | | sz mz ez];
    try (destruct sx); try (destruct sy); try (destruct sz);
    simpl; try discriminate; try reflexivity;
    change (Pos.compare_cont Eq) with Pos.compare;
    destruct (Z.compare_spec ex ey); try discriminate;
    destruct (Z.compare_spec ey ez); try discriminate;
    destruct (Z.compare_spec ex ez); try reflexivity; try lia;
    destruct (Pos.compare_spec mx my); try discriminate;
    destruct (Pos.compare_spec my mz); try discriminate;
    destruct (Pos.compare_spec mx mz); try reflexivity; try lia.
Qed.

Lemma SFltb_leb_trans (x y z : spec_float) :
  SFltb x y = true → SFleb y z = true → SFltb x z = true.
Proof.
  unfold SFleb, SFltb.
  destruct x as [sx | sx | | sx mx ex], y as [sy | sy | | sy my ey], z as [sz | sz | | sz mz ez];
    try (destruct sx); try (destruct sy); try (destruct sz);
    simpl; try discriminate; try reflexivity;
    change (Pos.compare_cont Eq) with Pos.compare;
    destruct (Z.compare_spec ex ey); try discriminate;
    destruct (Z.compare_spec ey ez); try discriminate;
    destruct (Z.compare_spec ex ez); try reflexivity; try lia;
    destruct (Pos.compare_spec mx my); try discriminate;
    destruct (Pos.compare_spec my mz); try discriminate;
    destruct (Pos.compare_spec mx mz); try reflexivity; try lia.
Qed.

Lemma SFleb_trans (x y z : spec_float) :
  SFleb x y = true → SFleb y z = true → SFleb x z = true.
Proof.
  unfold SFleb.
  destruct x as [sx | sx | | sx mx ex], y as [sy | sy | | sy my ey], z as [sz | sz | | sz mz ez];
    try (destruct sx); try (destruct sy); try (destruct sz);
    simpl; try discriminate; try reflexivity;
    change (Pos.compare_cont Eq) with Pos.compare;
    destruct (Z.compare_spec ex ey); try discriminate;
    destruct (Z.compare_spec ey ez); try discriminate;
    destruct (Z.compare_spec ex ez); try reflexivity; try lia;
    destruct (Pos.compare_spec mx my); try discriminate;
    destruct (Pos.compare_spec my mz); try discriminate;
    destruct (Pos.compare_spec mx mz); try reflexivity; try lia.
Qed.

Lemma float_leb_ltb_trans (x y z : float) :
  (x <=? y)%float = true → (y <? z)%float = true → (x <? z)%float = true.
Proof. rewrite FloatAxioms.leb_spec, !FloatAxioms.ltb_spec. apply SFleb_ltb_trans. Qed.

Lemma float_ltb_leb_trans (x y z : float) :
  (x <? y)%float = true → (y <=? z)%float = true → (x <? z)%float = true.
Proof. rewrite FloatAxioms.leb_spec, !FloatAxioms.ltb_spec. apply SFltb_leb_trans. Qed.

Lemma float_leb_trans (x y z : float) :
  (x <=? y)%float = true → (y <=? z)%float = true → (x <=? z)%float = true.
Proof. rewrite !FloatAxioms.leb_spec. apply SFleb_trans. Qed.

(** No comparison with NaN holds. *)
Lemma float_nan_incomparable (t x : float) :
  np_isnan t = true →
  (t <? x)%float = false ∧ (x <? t)%float = false ∧
  (t <=? x)%float = false ∧ (x <=? t)%float = false.
Proof.
  intros Hnan. apply float_is_nan_eq in Hnan. subst t.
  rewrite !FloatAxioms.ltb_spec, !FloatAxioms.leb_spec.
  change (Prim2SF nan) with S754_nan. unfold SFltb, SFleb.
  destruct (Prim2SF x) as [s | s | | s m e]; try (destruct s); auto.
Qed.

Lemma np_isnan_false (x : float) : np_isnan x = false → Prim2SF x ≠ S754_nan.
Proof.
  unfold np_isnan, PrimFloat.is_nan. rewrite FloatAxioms.eqb_spec. intros H E.
  rewrite E in H. discriminate.
Qed.

Lemma SFcompare_total (x y : spec_float) :
  x ≠ S754_nan → y ≠ S754_nan → ∃ c, SFcompare x y = Some c.
Proof.
  destruct x as [sx | sx | | sx mx ex], y as [sy | sy | | sy my ey]; intros Hx Hy;
    try contradiction; simpl; eauto.
Qed.

(** Of two numbers, neither of them NaN, exactly one is the smaller or
    they are equal. *)
Lemma float_trichotomy (t x : float) :
  np_isnan t = false → np_isnan x = false →
  ((t <? x)%float = true ∧ (x <? t)%float = false ∧ (x =? t)%float = false) ∨
  ((t <? x)%float = false ∧ (x <? t)%float = true ∧ (x =? t)%float = false) ∨
  ((t <? x)%float = false ∧ (x <? t)%float = false ∧ (x =? t)%float = true).
Proof.
  intros Ht Hx. apply np_isnan_false in Ht, Hx.
  rewrite !FloatAxioms.ltb_spec, !FloatAxioms.eqb_spec. unfold SFltb, SFeqb.
  rewrite (SFcompare_swap (Prim2SF t) (Prim2SF x)).
  destruct (SFcompare_total _ _ Ht Hx) as [c ->].
  destruct c; simpl; auto.
Qed.

(** Counting with a weaker test counts more. *)
Lemma filter_length_mono {A} (f g : A → bool) (l : list A) :
  (∀ x, In x l → f x = true → g x = true) →
  length (List.filter f l) ≤ length (List.filter g l).
Proof.
  induction l as [| a l IH]; intros H; simpl; [lia |].
  assert (length (List.filter f l) ≤ length (List.filter g l)) as IH'.
  { apply IH. intros x Hx. apply H. right. exact Hx. }
  destruct (f a) eqn:Ef.
  - rewrite (H a (or_introl eq_refl) Ef). simpl. lia.
  - destruct (g a); simpl; lia.
Qed.

Lemma filter_length_none {A} (f : A → bool) (l : list A) :
  (∀ x, In x l → f x = false) → length (List.filter f l) = 0.
Proof.
  induction l as [| a l IH]; intros H; simpl; [reflexivity |].
  rewrite (H a (or_introl eq_refl)). apply IH. intros x Hx. apply H. right. exact Hx.
Qed.

(** ** Probabilities and return periods as numbers *)

Lemma calculate_probability_counts (self : Analyzer) (t lo hi : float) :
  calculate_probability t "exceeds" self =
    (self, Returned (float_of_nat (count_above t (data self)) / float_of_nat (n_years self))%float) ∧
  calculate_probability t "below" self =
    (self, Returned (float_of_nat (count_below t (data self)) / float_of_nat (n_years self))%float) ∧
  get_comfortable_probability lo hi self =
    (self, Returned (float_of_nat (count_within lo hi (data self)) / float_of_nat (n_years self))%float).
Proof.
  unfold calculate_probability, get_comfortable_probability. run_method.
  rewrite !np_sum_bool_fmap. repeat split; reflexivity.
Qed.

Lemma calculate_return_period_counts (self : Analyzer) (t : float) :
  let p_above := (float_of_nat (count_above t (data self)) / float_of_nat (n_years self))%float in
  let p_below := (float_of_nat (count_below t (data self)) / float_of_nat (n_years self))%float in
  calculate_return_period t "exceeds" self =
    (self, Returned (if (p_above =? 0)%float then infinity else (1 / p_above)%float)) ∧
  calculate_return_period t "below" self =
    (self, Returned (if (p_below =? 0)%float then infinity else (1 / p_below)%float)).
Proof.
  intros p_above p_below.
  destruct (calculate_probability_counts self t 0 0) as (Ha & Hb & _).
  unfold calculate_return_period, mbind, Method_bind, method_bind.
  rewrite Ha, Hb. fold p_above p_below.
  destruct (p_above =? 0)%float, (p_below =? 0)%float; split; reflexivity.
Qed.

(** Every probability that the analyzer reports is a number between 0 and
    1: for a constructed analyzer with fewer than [2^53] observations, the
    probability of exceeding or of falling below a threshold and the
    probability of the comfortable range are at least 0 and at most 1 (and
    so are never NaN). *)
Theorem probability_in_unit_interval
    (raw : list float) (self : Analyzer) (ws : list string) (t lo hi : float) (d : string) :
  __init__ raw = Returned (self, ws) →
  (Z.of_nat (n_years self) < 2 ^ 53)%Z →
  d = "exceeds" ∨ d = "below" →
  (∃ p, calculate_probability t d self = (self, Returned p) ∧
        (0 <=? p)%float = true ∧ (p <=? 1)%float = true) ∧
  (∃ p, get_comfortable_probability lo hi self = (self, Returned p) ∧
        (0 <=? p)%float = true ∧ (p <=? 1)%float = true).
Proof.
  intros Hinit Hsize Hd.
  destruct (init_inv _ _ _ Hinit) as (_ & Hn & Hpos).
  destruct (calculate_probability_counts self t lo hi) as (Ha & Hb & Hc).
  split.
  - destruct Hd as [-> | ->]; eexists; (split; [eassumption |]);
      apply count_quotient_unit_interval; try lia;
      rewrite Hn; apply filter_length_le.
  - eexists. split; [exact Hc |].
    apply count_quotient_unit_interval; try lia.
    rewrite Hn. apply filter_length_le.
Qed.

Lemma probability_in_unit_interval_witness :
  __init__ five_years = Returned (five_years_analyzer, [few_years_warning 5]) ∧
  (Z.of_nat (n_years five_years_analyzer) < 2 ^ 53)%Z ∧
  (∃ p, calculate_probability 25 "exceeds" five_years_analyzer = (five_years_analyzer, Returned p) ∧
        (0 <=? p)%float = true ∧ (p <=? 1)%float = true) ∧
  (∃ p, get_comfortable_probability 20 40 five_years_analyzer = (five_years_analyzer, Returned p) ∧
        (0 <=? p)%float = true ∧ (p <=? 1)%float = true).
Proof.
  split; [reflexivity |]. split; [reflexivity |].
  exact (probability_in_unit_interval five_years five_years_analyzer [few_years_warning 5]
           25 20 40 "exceeds" eq_refl eq_refl (or_introl eq_refl)).
Defined.

(** Raising the threshold never raises the probability of exceeding it
    and never lowers the probability of falling below it: for thresholds
    [t1 <= t2] and fewer than [2^53] observations,
    [P(exceeds t2) <= P(exceeds t1)] and [P(below t1) <= P(below t2)]. *)
Theorem probability_monotone_in_threshold
    (raw : list float) (self : Analyzer) (ws : list string) (t1 t2 : float) :
  __init__ raw = Returned (self, ws) →
  (Z.of_nat (n_years self) < 2 ^ 53)%Z →
  (t1 <=? t2)%float = true →
  ∃ above1 above2 below1 below2 : float,
    calculate_probability t1 "exceeds" self = (self, Returned above1) ∧
    calculate_probability t2 "exceeds" self = (self, Returned above2) ∧
    calculate_probability t1 "below" self = (self, Returned below1) ∧
    calculate_probability t2 "below" self = (self, Returned below2) ∧
    (above2 <=? above1)%float = true ∧ (below1 <=? below2)%float = true.
Proof.
  intros Hinit Hsize Hle.
  destruct (init_inv _ _ _ Hinit) as (_ & Hn & Hpos).
  destruct (calculate_probability_counts self t1 0 0) as (Ha1 & Hb1 & _).
  destruct (calculate_probability_counts self t2 0 0) as (Ha2 & Hb2 & _).
  do 4 eexists. split; [exact Ha1 |]. split; [exact Ha2 |].
  split; [exact Hb1 |]. split; [exact Hb2 |].
  split; apply count_quotient_monotone; try lia.
  - apply filter_length_mono. intros x _ H. exact (float_leb_ltb_trans _ _ _ Hle H).
  - rewrite Hn. apply filter_length_le.
  - apply filter_length_mono. intros x _ H. exact (float_ltb_leb_trans _ _ _ H Hle).
  - rewrite Hn. apply filter_length_le.
Qed.

Lemma probability_monotone_in_threshold_witness :
  __init__ five_years = Returned (five_years_analyzer, [few_years_warning 5]) ∧
  (Z.of_nat (n_years five_years_analyzer) < 2 ^ 53)%Z ∧
  (25 <=? 35)%float = true ∧
  ∃ above1 above2 below1 below2 : float,
    calculate_probability 25 "exceeds" five_years_analyzer = (five_years_analyzer, Returned above1) ∧
    calculate_probability 35 "exceeds" five_years_analyzer = (five_years_analyzer, Returned above2) ∧
    calculate_probability 25 "below" five_years_analyzer = (five_years_analyzer, Returned below1) ∧
    calculate_probability 35 "below" five_years_analyzer = (five_years_analyzer, Returned below2) ∧
    (above2 <=? above1)%float = true ∧ (below1 <=? below2)%float = true.
Proof.
  split; [reflexivity |]. split; [reflexivity |]. split; [reflexivity |].
  exact (probability_monotone_in_threshold five_years five_years_analyzer [few_years_warning 5]
           25 35 eq_refl eq_refl eq_refl).
Defined.

(** Widening the comfortable range never lowers its probability. *)
Theorem comfortable_probability_monotone
    (raw : list float) (self : Analyzer) (ws : list string) (lo lo' hi hi' : float) :
  __init__ raw = Returned (self, ws) →
  (Z.of_nat (n_years self) < 2 ^ 53)%Z →
  (lo' <=? lo)%float = true → (hi <=? hi')%float = true →
  ∃ narrow wide : float,
    get_comfortable_probability lo hi self = (self, Returned narrow) ∧
    get_comfortable_probability lo' hi' self = (self, Returned wide) ∧
    (narrow <=? wide)%float = true.
Proof.
  intros Hinit Hsize Hlo Hhi.
  destruct (init_inv _ _ _ Hinit) as (_ & Hn & Hpos).
  destruct (calculate_probability_counts self 0 lo hi) as (_ & _ & H1).
  destruct (calculate_probability_counts self 0 lo' hi') as (_ & _ & H2).
  do 2 eexists. split; [exact H1 |]. split; [exact H2 |].
  apply count_quotient_monotone; try lia.
  - apply filter_length_mono. intros x _ H.
    apply andb_prop in H as [Hx1 Hx2]. apply andb_true_intro. split.
    + exact (float_leb_trans _ _ _ Hlo Hx1).
    + exact (float_leb_trans _ _ _ Hx2 Hhi).
  - rewrite Hn. apply filter_length_le.
Qed.

Lemma comfortable_probability_monotone_witness :
  __init__ five_years = Returned (five_years_analyzer, [few_years_warning 5]) ∧
  (Z.of_nat (n_years five_years_analyzer) < 2 ^ 53)%Z ∧
  (15 <=? 20)%float = true ∧ (40 <=? 45)%float = true ∧
  ∃ narrow wide : float,
    get_comfortable_probability 20 40 five_years_analyzer = (five_years_analyzer, Returned narrow) ∧
    get_comfortable_probability 15 45 five_years_analyzer = (five_years_analyzer, Returned wide) ∧
    (narrow <=? wide)%float = true.
Proof.
  split; [reflexivity |]. split; [reflexivity |]. split; [reflexivity |]. split; [reflexivity |].
  exact (comfortable_probability_monotone five_years five_years_analyzer [few_years_warning 5]
           20 15 40 45 eq_refl eq_refl eq_refl eq_refl).
Defined.

(** A return period is never shorter than one year: for a constructed
    analyzer with fewer than [2^53] observations, the return period of
    exceeding a threshold is at least 1, and it is finite exactly when
    some observation exceeds the threshold; likewise for falling below. *)
Theorem return_period_at_least_one
    (raw : list float) (self : Analyzer) (ws : list string) (t : float) :
  __init__ raw = Returned (self, ws) →
  (Z.of_nat (n_years self) < 2 ^ 53)%Z →
  ∃ rp_above rp_below : float,
    calculate_return_period t "exceeds" self = (self, Returned rp_above) ∧
    calculate_return_period t "below" self = (self, Returned rp_below) ∧
    (1 <=? rp_above)%float = true ∧ (1 <=? rp_below)%float = true ∧
    ((rp_above <? infinity)%float = true ↔ 0 < count_above t (data self)) ∧
    ((rp_below <? infinity)%float = true ↔ 0 < count_below t (data self)).
Proof.
  intros Hinit Hsize.
  destruct (init_inv _ _ _ Hinit) as (_ & Hn & Hpos).
  destruct (calculate_return_period_counts self t) as [Ha Hb].
  assert (∀ c, c ≤ n_years self →
            let p := (float_of_nat c / float_of_nat (n_years self))%float in
            let rp := if (p =? 0)%float then infinity else (1 / p)%float in
            (1 <=? rp)%float = true ∧ ((rp <? infinity)%float = true ↔ 0 < c)) as Hcount.
  { intros c Hc p rp. unfold rp, p.
    destruct c as [| c].
    - assert ((float_of_nat 0 / float_of_nat (n_years self) =? 0)%float = true) as ->.
      { destruct (n_years self) as [| n] eqn:En; [contradiction |].
        rewrite float_of_nat_succ, FloatAxioms.eqb_spec, Prim2SF_zero_quotient by exact Hsize.
        reflexivity. }
      split; [reflexivity |]. split; [intros H; discriminate H | lia].
    - destruct (count_reciprocal_at_least_one (S c) (n_years self) ltac:(lia) Hc Hsize)
        as (Hz & Hone & Hfin).
      rewrite Hz. split; [exact Hone |]. split; [lia | intros _; exact Hfin]. }
  do 2 eexists. split; [exact Ha |]. split; [exact Hb |].
  destruct (Hcount (count_above t (data self))) as [H1 H2];
    [rewrite Hn; apply filter_length_le |].
  destruct (Hcount (count_below t (data self))) as [H3 H4];
    [rewrite Hn; apply filter_length_le |].
  auto.
Qed.

Lemma return_period_at_least_one_witness :
  __init__ five_years = Returned (five_years_analyzer, [few_years_warning 5]) ∧
  (Z.of_nat (n_years five_years_analyzer) < 2 ^ 53)%Z ∧
  ∃ rp_above rp_below : float,
    calculate_return_period 45 "exceeds" five_years_analyzer = (five_years_analyzer, Returned rp_above) ∧
    calculate_return_period 45 "below" five_years_analyzer = (five_years_analyzer, Returned rp_below) ∧
    (1 <=? rp_above)%float = true ∧ (1 <=? rp_below)%float = true ∧
    ((rp_above <? infinity)%float = true ↔ 0 < count_above 45 (data five_years_analyzer)) ∧
    ((rp_below <? infinity)%float = true ↔ 0 < count_below 45 (data five_years_analyzer)).
Proof.
  split; [reflexivity |]. split; [reflexivity |].
  exact (return_period_at_least_one five_years five_years_analyzer [few_years_warning 5]
           45 eq_refl eq_refl).
Defined.

(** A threshold that is NaN is exceeded by no observation and no
    observation falls below it: both probabilities are 0 and both return
    periods are plus infinity; the same holds for the probability of a
    comfortable range whose upper end is below its lower end, or one of
    whose ends is NaN. *)
Theorem degenerate_thresholds_have_probability_zero
    (raw : list float) (self : Analyzer) (ws : list string) (t lo hi : float) :
  __init__ raw = Returned (self, ws) →
  (Z.of_nat (n_years self) < 2 ^ 53)%Z →
  (np_isnan t = true →
     calculate_probability t "exceeds" self = (self, Returned 0%float) ∧
     calculate_probability t "below" self = (self, Returned 0%float) ∧
     calculate_return_period t "exceeds" self = (self, Returned infinity) ∧
     calculate_return_period t "below" self = (self, Returned infinity)) ∧
  ((lo <=? hi)%float = false →
     get_comfortable_probability lo hi self = (self, Returned 0%float)).
Proof.
  intros Hinit Hsize.
  destruct (init_inv _ _ _ Hinit) as (_ & Hn & Hpos).
  destruct (calculate_probability_counts self t lo hi) as (Ha & Hb & Hc).
  destruct (calculate_return_period_counts self t) as [Hra Hrb].
  assert ((float_of_nat 0 / float_of_nat (n_years self))%float = 0%float) as Hzero.
  { destruct (n_years self) as [| n] eqn:En; [contradiction |].
    apply Prim2SF_inj. rewrite float_of_nat_succ, Prim2SF_zero_quotient by exact Hsize.
    reflexivity. }
  split.
  - intros Hnan.
    assert (count_above t (data self) = 0) as Ea.
    { apply filter_length_none. intros x _. apply (float_nan_incomparable t x Hnan). }
    assert (count_below t (data self) = 0) as Eb.
    { apply filter_length_none. intros x _. apply (float_nan_incomparable t x Hnan). }
    rewrite Ea, Hzero in Ha, Hra. rewrite Eb, Hzero in Hb, Hrb. auto.
  - intros Hempty.
    assert (count_within lo hi (data self) = 0) as Ec.
    { apply filter_length_none. intros x _.
      destruct (lo <=? x)%float eqn:H1; [| reflexivity].
      destruct (x <=? hi)%float eqn:H2; [| reflexivity].
      rewrite (float_leb_trans _ _ _ H1 H2) in Hempty. discriminate. }
    rewrite Ec, Hzero in Hc. exact Hc.
Qed.

Lemma degenerate_thresholds_have_probability_zero_witness :
  __init__ five_years = Returned (five_years_analyzer, [few_years_warning 5]) ∧
  (Z.of_nat (n_years five_years_analyzer) < 2 ^ 53)%Z ∧
  np_isnan nan = true ∧ (40 <=? 20)%float = false ∧
  calculate_probability nan "exceeds" five_years_analyzer = (five_years_analyzer, Returned 0%float) ∧
  calculate_return_period nan "below" five_years_analyzer = (five_years_analyzer, Returned infinity) ∧
  get_comfortable_probability 40 20 five_years_analyzer = (five_years_analyzer, Returned 0%float).
Proof.
  destruct (degenerate_thresholds_have_probability_zero five_years five_years_analyzer
              [few_years_warning 5] nan 40 20 eq_refl eq_refl) as [Hnan Hempty].
  destruct (Hnan eq_refl) as (Ha & _ & _ & Hrb).
  split; [reflexivity |]. split; [reflexivity |]. split; [reflexivity |]. split; [reflexivity |].
  split; [exact Ha |]. split; [exact Hrb |]. exact (Hempty eq_refl).
Defined.

Lemma counts_partition (t : float) (l : list float) :
  np_isnan t = false → Forall (λ x, np_isnan x = false) l →
  count_above t l + count_below t l + length (ties t l) = length l.
Proof.
  intros Ht Hclean. unfold count_above, count_below, ties.
  induction Hclean as [| x l Hx _ IH]; [reflexivity |].
  cbn [List.filter length].
  destruct (float_trichotomy t x Ht Hx) as [(-> & -> & ->) | [(-> & -> & ->) | (-> & -> & ->)]];
    cbn [length]; lia.
Qed.

(** Because construction has removed the NaN entries, every observation
    is above, below or equal to a threshold that is not NaN: the counts
    behind the two probabilities and the number of ties add up to the
    sample size. *)
Theorem threshold_counts_partition_sample
    (raw : list float) (self : Analyzer) (ws : list string) (t : float) :
  __init__ raw = Returned (self, ws) →
  np_isnan t = false →
  ∃ above below : nat,
    calculate_probability t "exceeds" self =
      (self, Returned (float_of_nat above / float_of_nat (n_years self))%float) ∧
    calculate_probability t "below" self =
      (self, Returned (float_of_nat below / float_of_nat (n_years self))%float) ∧
    above + below + length (ties t (data self)) = n_years self.
Proof.
  intros Hinit Ht.
  destruct (init_inv _ _ _ Hinit) as (Hdata & Hn & _).
  destruct (calculate_probability_counts self t 0 0) as (Ha & Hb & _).
  exists (count_above t (data self)), (count_below t (data self)).
  split; [exact Ha |]. split; [exact Hb |].
  rewrite Hn.
  assert (Forall (λ x, np_isnan x = false) (data self)) as Hclean.
  { rewrite Hdata. apply Forall_forall. intros x Hx.
    apply list_elem_of_In, filter_In in Hx as [_ Hx]. apply negb_true_iff, Hx. }
  apply counts_partition; assumption.
Qed.

Lemma threshold_counts_partition_sample_witness :
  __init__ five_years = Returned (five_years_analyzer, [few_years_warning 5]) ∧
  np_isnan 30 = false ∧
  ∃ above below : nat,
    calculate_probability 30 "exceeds" five_years_analyzer =
      (five_years_analyzer, Returned (float_of_nat above / float_of_nat 5)%float) ∧
    calculate_probability 30 "below" five_years_analyzer =
      (five_years_analyzer, Returned (float_of_nat below / float_of_nat 5)%float) ∧
    above + below + length (ties 30 five_years) = 5.
Proof.
  split; [reflexivity |]. split; [reflexivity |].
  exact (threshold_counts_partition_sample five_years five_years_analyzer [few_years_warning 5]
           30 eq_refl eq_refl).
Defined.

(** ** Construction as a round trip *)

(** Constructing an analyzer from the sample that an analyzer holds gives
    the same analyzer and the same warnings: cleaning is idempotent, and
    the held sample contains no NaN and has the recorded size. *)
Theorem init_is_idempotent (raw : list float) (self : Analyzer) (ws : list string) :
  __init__ raw = Returned (self, ws) →
  __init__ (data self) = Returned (self, ws) ∧
  Forall (λ x, np_isnan x = false) (data self) ∧
  n_years self = length (data self) ∧ 0 < n_years self ≤ length raw.
Proof.
  intros Hinit.
  destruct (init_inv _ _ _ Hinit) as (Hdata & Hn & Hpos).
  assert (Forall (λ x, np_isnan x = false) (data self)) as Hclean.
  { rewrite Hdata. apply Forall_forall. intros x Hx.
    apply list_elem_of_In, filter_In in Hx as [_ Hx]. apply negb_true_iff, Hx. }
  assert (List.filter (λ x, negb (np_isnan x)) (data self) = data self) as Hfix.
  { clear -Hclean. induction Hclean as [| x l Hx _ IH]; [reflexivity |].
    cbn [List.filter]. rewrite Hx. cbn [negb]. rewrite IH. reflexivity. }
  split; [| split; [exact Hclean | split; [exact Hn |]]].
  - revert Hinit. unfold __init__. rewrite Hfix, <- Hdata. exact id.
  - split; [lia |]. rewrite Hn, Hdata. apply filter_length_le.
Qed.

Lemma init_is_idempotent_witness :
  __init__ [10; nan; 30]%float =
    Returned ({| data := [10; 30]%float; n_years := 2 |}, [few_years_warning 2]) ∧
  __init__ [10; 30]%float =
    Returned ({| data := [10; 30]%float; n_years := 2 |}, [few_years_warning 2]).
Proof.
  split; [reflexivity |].
  exact (proj1 (init_is_idempotent [10; nan; 30]%float
                  {| data := [10; 30]%float; n_years := 2 |} [few_years_warning 2] eq_refl)).
Defined.

(** ** The composite assessment *)

Ltac lookup_entry :=
  repeat (rewrite lookup_insert_eq || (rewrite lookup_insert_ne by discriminate));
  try reflexivity.

(** The assessment is always produced, whatever the library routines do,
    and its threshold entries follow the thresholds given: the hot
    probability and return period are present exactly when a hot
    threshold is given, and are the values of [calculate_probability] and
    [calculate_return_period] for it; likewise for the cold threshold and
    the comfortable range.  The assessment has no top-level 'error'
    entry. *)
Theorem assessment_entries_follow_thresholds
    (L : Library) (thresholds : ThresholdSet) (self : Analyzer) :
  ∃ assessment : gmap string pyobj,
    generate_risk_assessment L thresholds self = (self, Returned assessment) ∧
    match hot thresholds with
    | Some t =>
        ∃ p rp, calculate_probability t "exceeds" self = (self, Returned p) ∧
                calculate_return_period t "exceeds" self = (self, Returned rp) ∧
                assessment !! "very_hot_probability" = Some (PFloat p) ∧
                assessment !! "hot_return_period" = Some (PFloat rp)
    | None => assessment !! "very_hot_probability" = None ∧
              assessment !! "hot_return_period" = None
    end ∧
    match cold thresholds with
    | Some t =>
        ∃ p rp, calculate_probability t "below" self = (self, Returned p) ∧
                calculate_return_period t "below" self = (self, Returned rp) ∧
                assessment !! "very_cold_probability" = Some (PFloat p) ∧
                assessment !! "cold_return_period" = Some (PFloat rp)
    | None => assessment !! "very_cold_probability" = None ∧
              assessment !! "cold_return_period" = None
    end ∧
    match comfortable thresholds with
    | Some (lo, hi) =>
        ∃ p, get_comfortable_probability lo hi self = (self, Returned p) ∧
             assessment !! "comfortable_probability" = Some (PFloat p)
    | None => assessment !! "comfortable_probability" = None
    end ∧
    assessment !! "error" = None.
Proof.
  destruct (detect_trend_returns L self) as [trend Htrend].
  unfold generate_risk_assessment, get_percentiles.
  unfold mbind, Method_bind, method_bind, mret, Method_ret, method_ret, self_data, self_n_years.
  rewrite Htrend.
  destruct thresholds as [[t_hot |] [t_cold |] [[lo hi] |]]; cbn [hot cold comfortable];
    repeat match goal with
    | |- context [calculate_probability ?t ?d self] =>
        let p := fresh "p" in let Hp := fresh "Hp" in let Hrp := fresh "Hrp" in
        destruct (calculate_probability_returns self t d) as (p & Hp & Hrp);
        [auto |]; rewrite Hp, Hrp
    end;
    cbn [fst snd];
    try (destruct (calculate_probability_counts self 0 lo hi) as (_ & _ & Hc); rewrite Hc);
    cbv beta iota;
    destruct (get_extreme_value_analysis_returns L self) as [ev ->];
    match goal with
    | |- context [_categorize_risk ?a self] =>
        destruct (categorize_risk_returns a self) as [risk ->]
    end;
    eexists; (split; [reflexivity |]);
    repeat split;
    try (do 2 eexists; split; [reflexivity |]; split; [reflexivity |]; split);
    try (eexists; split; [reflexivity |]);
    lookup_entry.
Qed.

(** ** Failures of the extreme value analysis *)

(** When the Gumbel fit fails, the extreme value analysis is the record
    with the single entry 'error', holding the description of the
    failure, and the assessment is still produced with that record as its
    extreme values. *)
Theorem extreme_value_failure_is_reported
    (L : Library) (thresholds : ThresholdSet) (self : Analyzer) (e : exn) :
  stats_gumbel_r_fit L (data self) = Raised e →
  get_extreme_value_analysis L self = (self, Returned (dict [ ("error", PStr (str e)) ])) ∧
  ∃ assessment : gmap string pyobj,
    generate_risk_assessment L thresholds self = (self, Returned assessment) ∧
    assessment !! "extreme_values" = Some (PDict (dict [ ("error", PStr (str e)) ])) ∧
    is_Some (assessment !! "risk_category").
Proof.
  intros Hfit.
  assert (get_extreme_value_analysis L self =
            (self, Returned (dict [ ("error", PStr (str e)) ]))) as Hev.
  { unfold get_extreme_value_analysis. run_method. rewrite Hfit. reflexivity. }
  split; [exact Hev |].
  destruct (detect_trend_returns L self) as [trend Htrend].
  unfold generate_risk_assessment, get_percentiles.
  unfold mbind, Method_bind, method_bind, mret, Method_ret, method_ret, self_data, self_n_years.
  rewrite Htrend.
  destruct thresholds as [[t_hot |] [t_cold |] [[lo hi] |]]; cbn [hot cold comfortable];
    repeat match goal with
    | |- context [calculate_probability ?t ?d self] =>
        let p := fresh "p" in let Hp := fresh "Hp" in let Hrp := fresh "Hrp" in
        destruct (calculate_probability_returns self t d) as (p & Hp & Hrp);
        [auto |]; rewrite Hp, Hrp
    end;
    cbn [fst snd];
    try (destruct (calculate_probability_counts self 0 lo hi) as (_ & _ & Hc); rewrite Hc);
    cbv beta iota;
    rewrite Hev;
    match goal with
    | |- context [_categorize_risk ?a self] =>
        destruct (categorize_risk_returns a self) as [risk ->]
    end;
    eexists; (split; [reflexivity |]); (split; [lookup_entry | eexists; lookup_entry]).
Qed.

Lemma extreme_value_failure_is_reported_witness :
  stats_gumbel_r_fit failing_library (data five_years_analyzer) =
    Raised (LibraryError "fit failed") ∧
  get_extreme_value_analysis failing_library five_years_analyzer =
    (five_years_analyzer, Returned (dict [ ("error", PStr "fit failed") ])) ∧
  ∃ assessment : gmap string pyobj,
    generate_risk_assessment failing_library all_thresholds five_years_analyzer =
      (five_years_analyzer, Returned assessment) ∧
    assessment !! "extreme_values" = Some (PDict (dict [ ("error", PStr "fit failed") ])) ∧
    is_Some (assessment !! "risk_category").
Proof.
  split; [reflexivity |].
  exact (extreme_value_failure_is_reported failing_library all_thresholds five_years_analyzer
           (LibraryError "fit failed") eq_refl).
Defined.

(** When the fit succeeds, the extreme value analysis holds the fitted
    parameters, a return value for every return period and the record of
    the Kolmogorov-Smirnov test; the fit quality is 'good' exactly when
    the p-value of the test exceeds 0.05 and 'poor' otherwise; and a
    failing test only reduces that record to the single entry
    'fit_quality': 'unknown', the fitted parameters and return values
    being kept. *)
Theorem goodness_of_fit_in_extreme_values
    (L : Library) (self : Analyzer) (mu beta : float) :
  stats_gumbel_r_fit L (data self) = Returned (mu, beta) →
  ∃ result return_values : gmap string pyobj,
    get_extreme_value_analysis L self = (self, Returned result) ∧
    result !! "error" = None ∧
    result !! "distribution_params" = Some (PTuple [PFloat mu; PFloat beta]) ∧
    result !! "return_values" = Some (PDict return_values) ∧
    (∀ period, In period return_periods →
       is_Some (return_values !! (pretty period +:+ "_year"))) ∧
    result !! "goodness_of_fit" =
      Some (PDict
        match stats_kstest L (data self) (λ x, stats_gumbel_r_cdf L x mu beta) with
        | Returned (ks_stat, ks_p_value) =>
            dict [ ("ks_statistic", PFloat ks_stat);
                   ("ks_p_value", PFloat ks_p_value);
                   ("fit_quality",
                    PStr (if (0.05 <? ks_p_value)%float then "good" else "poor")) ]
        | Raised _ => dict [ ("fit_quality", PStr "unknown") ]
        end).
Proof.
  intros Hfit.
  unfold get_extreme_value_analysis, _gumbel_goodness_of_fit. run_method. rewrite Hfit.
  cbn [fst snd].
  destruct (stats_kstest L (data self) (λ x, stats_gumbel_r_cdf L x mu beta)) as [[stat pv] | e];
    cbn [fst snd]; do 2 eexists; (split; [reflexivity |]);
    (split; [reflexivity |]); (split; [reflexivity |]); (split; [reflexivity |]);
    (split; [| reflexivity]);
    intros period Hin; unfold return_periods in Hin; cbn [In] in Hin;
    repeat (destruct Hin as [<- | Hin]; [eexists; vm_compute; reflexivity |]);
    contradiction.
Qed.

Lemma goodness_of_fit_in_extreme_values_witness :
  stats_gumbel_r_fit untestable_library (data five_years_analyzer) =
    Returned (25%float, 10%float) ∧
  ∃ result return_values : gmap string pyobj,
    get_extreme_value_analysis untestable_library five_years_analyzer =
      (five_years_analyzer, Returned result) ∧
    result !! "distribution_params" = Some (PTuple [PFloat 25; PFloat 10]) ∧
    result !! "return_values" = Some (PDict return_values) ∧
    is_Some (return_values !! "100_year") ∧
    result !! "goodness_of_fit" = Some (PDict (dict [ ("fit_quality", PStr "unknown") ])).
Proof.
  split; [reflexivity |].
  destruct (goodness_of_fit_in_extreme_values untestable_library five_years_analyzer 25 10 eq_refl)
    as (result & return_values & Hrun & _ & Hparams & Hvalues & Hall & Hgood).
  exists result, return_values.
  split; [exact Hrun |]. split; [exact Hparams |]. split; [exact Hvalues |].
  split; [| exact Hgood].
  apply (Hall 100%Z). unfold return_periods. cbn [In]. auto 10.
Defined.

(** ** The risk category of the composite assessment *)

(** The risk category stored in the assessment is never 'Unknown': it is
    the band of the coefficient of variation of the sample itself, with
    the population standard deviation, and so one of 'Low', 'Moderate',
    'High' and 'Very High'. *)
Theorem assessment_risk_category_is_a_band
    (L : Library) (thresholds : ThresholdSet) (self : Analyzer) :
  ∃ (assessment : gmap string pyobj) (category : string),
    generate_risk_assessment L thresholds self = (self, Returned assessment) ∧
    assessment !! "risk_category" = Some (PStr category) ∧
    In category ["Low"; "Moderate"; "High"; "Very High"] ∧
    category ≠ "Unknown" ∧
    _categorize_risk (PDict assessment) self = (self, Returned category).
Proof.
  destruct (generate_risk_assessment_category L thresholds self) as (assessment & Hrun & Hrisk).
  cbv zeta in Hrisk.
  set (mean := np_mean (data self)) in *.
  set (cv := if (mean =? 0)%float then infinity
             else (np_std 0 (data self) / PrimFloat.abs mean)%float) in *.
  destruct (detect_trend_returns L self) as [trend Htrend].
  destruct (generate_risk_assessment_returns L thresholds self trend Htrend)
    as (assessment' & Hrun' & _ & Hstats & _).
  rewrite Hrun in Hrun'. injection Hrun' as <-.
  eexists assessment, _. split; [exact Hrun |]. split; [exact Hrisk |].
  split; [| split].
  - cbn [In]. destruct (cv <? 0.1)%float; [auto |].
    destruct (cv <? 0.3)%float; [auto |]. destruct (cv <? 0.5)%float; auto.
  - destruct (cv <? 0.1)%float; [discriminate |].
    destruct (cv <? 0.3)%float; [discriminate |]. destruct (cv <? 0.5)%float; discriminate.
  - apply (categorize_risk_floats self (PDict assessment)
             (PDict (dict
                [ ("mean", PFloat (np_mean (data self)));
                  ("median", PFloat (np_median L (data self)));
                  ("std_dev", PFloat (np_std 0 (data self)));
                  ("min_recorded", PFloat (np_min L (data self)));
                  ("max_recorded", PFloat (np_max L (data self)));
                  ("data_years", PInt (Z.of_nat (n_years self))) ]))
             (np_std 0 (data self)) (np_mean (data self))).
    + cbn [py_getitem]. rewrite Hstats. reflexivity.
    + reflexivity.
    + reflexivity.
Qed.

(** ** Monthly statistics *)

Lemma month_values_length (months : list (option Z)) (values : list float) (month : Z) :
  length months = length values →
  length (month_values months values month) = dates_in_month months month.
Proof.
  unfold month_values, dates_in_month. rewrite length_fmap.
  revert values. induction months as [| o months IH]; intros [| v values] Hlen;
    try discriminate; [reflexivity |].
  cbn [zip zip_with List.filter fst]. injection Hlen as Hlen.
  destruct (bool_decide (o = Some month)); cbn [length]; rewrite (IH values Hlen); reflexivity.
Qed.

Lemma dates_in_month_cons (o : option Z) (months : list (option Z)) (month : Z) :
  dates_in_month (o :: months) month =
  (if bool_decide (o = Some month) then 1 else 0) + dates_in_month months month.
Proof.
  unfold dates_in_month. cbn [List.filter].
  destruct (bool_decide (o = Some month)); reflexivity.
Qed.

(** Every date with a month from 1 to 12 is in exactly one of the twelve
    months. *)
Lemma dates_in_months_total (months : list (option Z)) :
  Forall (λ o, ∃ m, o = Some m ∧ (1 <= m <= 12)%Z) months →
  foldr Nat.add 0 (dates_in_month months <$> month_range) = length months.
Proof.
  change month_range with [1; 2; 3; 4; 5; 6; 7; 8; 9; 10; 11; 12]%Z.
  induction 1 as [| o months (m & -> & Hm) _ IH]; [reflexivity |].
  cbn [fmap list_fmap foldr] in *. rewrite !dates_in_month_cons. cbn [length].
  rewrite <- IH.
  assert (m = 1 ∨ m = 2 ∨ m = 3 ∨ m = 4 ∨ m = 5 ∨ m = 6 ∨ m = 7 ∨ m = 8 ∨ m = 9 ∨
          m = 10 ∨ m = 11 ∨ m = 12)%Z as Hcases by lia.
  destruct Hcases as [-> | [-> | [-> | [-> | [-> | [-> | [-> | [-> | [-> | [-> | [-> | ->]]]]]]]]]]];
    repeat match goal with
    | |- context [bool_decide (Some ?a = Some ?b)] =>
        let v := eval vm_compute in (bool_decide (Some a = Some b)) in
        change (bool_decide (Some a = Some b)) with v
    end;
    cbv iota; lia.
Qed.

(** A loop that stores a record under every key of a range that passes a
    test. *)
Lemma fold_insert_lookup {V} (test : Z → bool) (record : Z → V)
    (range : list Z) (acc : gmap Z V) (key : Z) :
  fold_left (λ (acc : gmap Z V) (x : Z), if test x then <[x := record x]> acc else acc)
    range acc !! key =
  if bool_decide (key ∈ range) && test key then Some (record key) else acc !! key.
Proof.
  revert acc. induction range as [| x range IH]; intros acc; cbn [fold_left].
  - rewrite bool_decide_eq_false_2 by apply not_elem_of_nil. reflexivity.
  - rewrite IH.
    destruct (decide (key ∈ range)) as [Hin | Hnotin].
    + rewrite (bool_decide_eq_true_2 (key ∈ range)) by assumption.
      rewrite (bool_decide_eq_true_2 (key ∈ x :: range))
        by (apply elem_of_cons; right; assumption).
      destruct (test key) eqn:Hpos; [reflexivity |].
      cbn [andb]. destruct (decide (x = key)) as [-> | Hne].
      * rewrite Hpos. reflexivity.
      * destruct (test x); [| reflexivity]. apply lookup_insert_ne. exact Hne.
    + rewrite (bool_decide_eq_false_2 (key ∈ range)) by assumption. cbn [andb].
      destruct (decide (x = key)) as [-> | Hne].
      * rewrite bool_decide_eq_true_2 by (apply elem_of_cons; left; reflexivity). cbn [andb].
        destruct (test key); [| reflexivity]. apply lookup_insert_eq.
      * rewrite bool_decide_eq_false_2
          by (rewrite elem_of_cons; intros [? | ?]; [congruence | contradiction]).
        cbn [andb]. destruct (test x); [| reflexivity]. apply lookup_insert_ne. exact Hne.
Qed.

Lemma in_month_range (month : Z) : month ∈ month_range ↔ (1 <= month <= 12)%Z.
Proof.
  rewrite list_elem_of_In.
  change month_range with [1; 2; 3; 4; 5; 6; 7; 8; 9; 10; 11; 12]%Z. cbn [In]. lia.
Qed.

Ltac unfold_method :=
  unfold mbind, mret, Method_bind, Method_ret, method_bind, method_ret,
    self_data, self_n_years, call, raise, try_except; cbv beta iota.

(** Without dates, or with a list of dates whose length differs from the
    sample size, the monthly statistics are the empty table and nothing
    is printed; when the dates do not parse, the table is empty as well
    and the failure is printed. *)
Theorem monthly_statistics_need_matching_dates (P : Pandas) (self : Analyzer) :
  get_monthly_statistics P None self = (self, Returned (∅, [])) ∧
  (∀ dates, length dates ≠ length (data self) →
     get_monthly_statistics P (Some dates) self = (self, Returned (∅, []))) ∧
  (∀ dates e, length dates = length (data self) → pd_months P dates = Raised e →
     get_monthly_statistics P (Some dates) self =
       (self, Returned (∅, ["Error calculating monthly statistics: " +:+ str e]))).
Proof.
  split; [reflexivity | split].
  - intros dates Hne. unfold get_monthly_statistics. unfold_method.
    destruct (Nat.eqb_spec (length dates) (length (data self))); [contradiction | reflexivity].
  - intros dates e Heq Hfail. unfold get_monthly_statistics. unfold_method.
    rewrite Heq, Nat.eqb_refl, Hfail. reflexivity.
Qed.

(** When the dates parse, the table has an entry exactly for the months
    from 1 to 12 in which some date falls, the count of an entry is the
    number of dates in its month, and nothing is printed; if every date
    has a month, the counts of the table add up to the sample size. *)
Theorem monthly_statistics_count_every_date
    (P : Pandas) (self : Analyzer) (dates : list string) (months : list (option Z)) :
  length dates = length (data self) →
  pd_months P dates = Returned months →
  length months = length dates →
  ∃ stats : gmap Z (gmap string pyobj),
    get_monthly_statistics P (Some dates) self = (self, Returned (stats, [])) ∧
    (∀ month, is_Some (stats !! month) ↔
              (1 <= month <= 12)%Z ∧ 0 < dates_in_month months month) ∧
    (∀ month, (1 <= month <= 12)%Z →
              recorded_count stats month = Z.of_nat (dates_in_month months month)) ∧
    (Forall (λ o, ∃ m, o = Some m ∧ (1 <= m <= 12)%Z) months →
     foldr Z.add 0%Z (recorded_count stats <$> month_range) = Z.of_nat (length (data self))).
Proof.
  intros Hdates Hmonths Hlen.
  assert (length months = length (data self)) as Hlen' by lia.
  unfold get_monthly_statistics. unfold_method.
  rewrite Hdates, Nat.eqb_refl, Hmonths. cbn [negb]. cbv beta iota.
  rewrite Hlen', Nat.eqb_refl. cbn [negb]. cbv beta iota.
  eexists. split; [reflexivity |].
  match goal with
  | |- context [fold_left ?f month_range ∅] => set (stats := fold_left f month_range ∅)
  end.
  assert (∀ month, stats !! month =
            if bool_decide (month ∈ month_range) &&
               (0 <? length (month_values months (data self) month))%nat
            then Some (dict
              [ ("mean", PFloat (series_mean P (month_values months (data self) month)));
                ("std", PFloat (series_std P (month_values months (data self) month)));
                ("min", PFloat (series_min P (month_values months (data self) month)));
                ("max", PFloat (series_max P (month_values months (data self) month)));
                ("count", PInt (Z.of_nat (length (month_values months (data self) month)))) ])
            else None) as Hlookup.
  { intros month. unfold stats.
    exact (fold_insert_lookup
             (λ m, (0 <? length (month_values months (data self) m))%nat)
             (λ m, dict
                [ ("mean", PFloat (series_mean P (month_values months (data self) m)));
                  ("std", PFloat (series_std P (month_values months (data self) m)));
                  ("min", PFloat (series_min P (month_values months (data self) m)));
                  ("max", PFloat (series_max P (month_values months (data self) m)));
                  ("count", PInt (Z.of_nat (length (month_values months (data self) m)))) ])
             month_range ∅ month). }
  assert (∀ month, (1 <= month <= 12)%Z →
            recorded_count stats month = Z.of_nat (dates_in_month months month)) as Hcount.
  { intros month Hrange. unfold recorded_count. rewrite Hlookup.
    rewrite bool_decide_eq_true_2 by (apply in_month_range; exact Hrange). cbn [andb].
    rewrite (month_values_length months (data self) month Hlen').
    destruct (Nat.ltb_spec 0 (dates_in_month months month)) as [Hpos | Hzero].
    - reflexivity.
    - replace (dates_in_month months month) with 0 by lia. reflexivity. }
  split; [| split; [exact Hcount |]].
  - intros month. rewrite Hlookup, (month_values_length months (data self) month Hlen').
    destruct (decide (month ∈ month_range)) as [Hin | Hnotin].
    + rewrite bool_decide_eq_true_2 by assumption. cbn [andb].
      destruct (Nat.ltb_spec 0 (dates_in_month months month)) as [Hpos | Hzero].
      * split; [intros _; split; [apply in_month_range, Hin | exact Hpos] | eauto].
      * split; [intros [? [=]] | intros [_ Hpos]; lia].
    + rewrite bool_decide_eq_false_2 by assumption. cbn [andb].
      split; [intros [? [=]] | intros [Hrange _]; apply in_month_range in Hrange; contradiction].
  - intros Hall. rewrite <- Hlen', <- (dates_in_months_total months Hall).
    assert (∀ range, (∀ m, In m range → (1 <= m <= 12)%Z) →
              foldr Z.add 0%Z (recorded_count stats <$> range) =
              Z.of_nat (foldr Nat.add 0 (dates_in_month months <$> range))) as Hsum.
    { induction range as [| m range IH]; intros Hrange; [reflexivity |].
      cbn [fmap list_fmap foldr]. rewrite Hcount by (apply Hrange; left; reflexivity).
      rewrite IH by (intros m' Hm'; apply Hrange; right; exact Hm'). lia. }
    apply Hsum. intros m Hm. apply in_month_range, list_elem_of_In, Hm.
Qed.

Lemma monthly_statistics_count_every_date_witness :
  length five_dates = length (data five_years_analyzer) ∧
  pd_months sample_pandas five_dates = Returned [Some 1; Some 7; Some 1; Some 7; Some 1]%Z ∧
  ∃ stats : gmap Z (gmap string pyobj),
    get_monthly_statistics sample_pandas (Some five_dates) five_years_analyzer =
      (five_years_analyzer, Returned (stats, [])) ∧
    recorded_count stats 1 = 3%Z ∧ recorded_count stats 7 = 2%Z ∧
    stats !! 2%Z = None.
Proof.
  split; [reflexivity |]. split; [reflexivity |].
  destruct (monthly_statistics_count_every_date sample_pandas five_years_analyzer five_dates
              [Some 1; Some 7; Some 1; Some 7; Some 1]%Z eq_refl eq_refl eq_refl)
    as (stats & Hrun & Hkeys & Hcount & _).
  exists stats. split; [exact Hrun |].
  split; [exact (Hcount 1%Z ltac:(lia)) |]. split; [exact (Hcount 7%Z ltac:(lia)) |].
  destruct (stats !! 2%Z) eqn:E; [| reflexivity].
  destruct (proj1 (Hkeys 2%Z) ltac:(rewrite E; eauto)) as [_ H].
  change (dates_in_month [Some 1; Some 7; Some 1; Some 7; Some 1]%Z 2) with 0 in H. lia.
Defined.

(** ** Parameter codes *)

Lemma str_contains_colon_cons (c : Ascii.ascii) (s : string) :
  str_contains ":" (String c s) = Ascii.eqb c colon || str_contains ":" s.
Proof.
  cbn [str_contains String.prefix].
  change (Ascii.Ascii false true false true true true false false) with colon.
  destruct (Ascii.ascii_dec colon c) as [<- | Hne].
  - rewrite Ascii.eqb_refl. destruct s; reflexivity.
  - destruct (Ascii.eqb_spec c colon) as [-> | _]; [contradiction | reflexivity].
Qed.

Lemma string_app_nil (s : string) : EmptyString +:+ s = s.
Proof. reflexivity. Qed.

Lemma string_app_cons (c : Ascii.ascii) (s t : string) : String c s +:+ t = String c (s +:+ t).
Proof. reflexivity. Qed.

Lemma str_contains_colon (s : string) :
  str_contains ":" s = true ↔ ∃ before after, s = before +:+ String colon after.
Proof.
  induction s as [| c s IH].
  - split; [discriminate |]. intros (before & after & H). destruct before; discriminate.
  - rewrite str_contains_colon_cons.
    destruct (Ascii.eqb_spec c colon) as [-> | Hne]; cbn [orb].
    + split; [intros _ | reflexivity]. exists EmptyString, s. reflexivity.
    + rewrite IH. split.
      * intros (before & after & ->). exists (String c before), after. reflexivity.
      * intros (before & after & H). destruct before as [| b before].
        -- injection H as -> _. contradiction.
        -- injection H as _ ->. eauto.
Qed.

Lemma str_split_no_colon (s : string) :
  str_contains ":" s = false → str_split colon s = (s, []).
Proof.
  induction s as [| c s IH]; [reflexivity |].
  rewrite str_contains_colon_cons. cbn [str_split].
  destruct (Ascii.eqb_spec c colon) as [-> | Hne]; cbn [orb]; [discriminate |].
  intros H. rewrite (IH H). reflexivity.
Qed.

Lemma str_split_at_colon (before after : string) :
  str_contains ":" before = false →
  str_split colon (before +:+ String colon after) =
    (before, (str_split colon after).1 :: (str_split colon after).2).
Proof.
  induction before as [| c s IH]; intros H.
  - rewrite string_app_nil. cbn [str_split]. rewrite Ascii.eqb_refl. reflexivity.
  - rewrite str_contains_colon_cons in H. rewrite string_app_cons. cbn [str_split].
    destruct (Ascii.eqb_spec c colon) as [-> | Hne]; cbn [orb] in H; [discriminate |].
    rewrite (IH H). reflexivity.
Qed.

Lemma first_colon (s : string) :
  str_contains ":" s = true →
  ∃ before after, s = before +:+ String colon after ∧ str_contains ":" before = false.
Proof.
  induction s as [| c s IH]; [discriminate |].
  rewrite str_contains_colon_cons.
  destruct (Ascii.eqb_spec c colon) as [-> | Hne]; cbn [orb].
  - intros _. exists EmptyString, s. split; reflexivity.
  - intros H. destruct (IH H) as (before & after & -> & Hb).
    exists (String c before), after. split; [reflexivity |].
    rewrite str_contains_colon_cons.
    destruct (Ascii.eqb_spec c colon); [contradiction | exact Hb].
Qed.

Lemma parameter_units_at_colon (code rest : string) :
  str_contains ":" code = false →
  _get_parameter_units (code +:+ String colon rest) = Some (str_split colon rest).1.
Proof.
  intros Hcode. unfold _get_parameter_units.
  assert (str_contains ":" (code +:+ String colon rest) = true) as ->
    by (apply str_contains_colon; eauto).
  rewrite (str_split_at_colon code rest Hcode). reflexivity.
Qed.

Lemma parameter_units_total (parameter : string) : is_Some (_get_parameter_units parameter).
Proof.
  destruct (str_contains ":" parameter) eqn:E.
  - destruct (first_colon parameter E) as (before & after & -> & Hb).
    rewrite (parameter_units_at_colon before after Hb). eauto.
  - unfold _get_parameter_units. rewrite E. eauto.
Qed.

(** The units of a parameter code are the text between its first colon
    and the next one (or the end), and the empty text for a code without
    colon; the lookup of the second part never fails. *)
Theorem parameter_units_follow_first_colon (parameter : string) :
  is_Some (_get_parameter_units parameter) ∧
  (str_contains ":" parameter = false → _get_parameter_units parameter = Some EmptyString) ∧
  (∀ code rest, parameter = code +:+ String colon rest → str_contains ":" code = false →
     _get_parameter_units parameter = Some (str_split colon rest).1 ∧
     (str_contains ":" rest = false → _get_parameter_units parameter = Some rest)).
Proof.
  split; [apply parameter_units_total | split].
  - intros E. unfold _get_parameter_units. rewrite E. reflexivity.
  - intros code rest -> Hcode. split; [exact (parameter_units_at_colon code rest Hcode) |].
    intros Hrest. rewrite (parameter_units_at_colon code rest Hcode), (str_split_no_colon rest Hrest).
    reflexivity.
Qed.

(** The thresholds of a parameter are found under the lower-case text
    before its first colon, so they depend neither on the units of the
    code nor on the case of its letters; a code without configured
    thresholds gets the empty dictionary. *)
Theorem thresholds_ignore_units
    (table : gmap string (gmap string pyobj)) (code units : string) :
  ascii_only code = true →
  str_contains ":" code = false →
  _get_thresholds table (code +:+ String colon units) = default ∅ (table !! str_lower code) ∧
  _get_thresholds table code = default ∅ (table !! str_lower code) ∧
  (table !! str_lower code = None → _get_thresholds table (code +:+ String colon units) = ∅).
Proof.
  intros _ Hcode. unfold _get_thresholds.
  rewrite (str_split_at_colon code units Hcode), (str_split_no_colon code Hcode). cbn [fst].
  split; [reflexivity |]. split; [reflexivity |]. intros ->. reflexivity.
Qed.

Lemma thresholds_ignore_units_witness :
  ascii_only "T_2M" = true ∧ str_contains ":" "T_2M" = false ∧
  _get_thresholds PARAMETER_THRESHOLDS "T_2M:F" = _get_thresholds PARAMETER_THRESHOLDS "t_2m:C".
Proof.
  split; [reflexivity |]. split; [reflexivity |].
  destruct (thresholds_ignore_units PARAMETER_THRESHOLDS "T_2M" "F" eq_refl eq_refl) as (H & _).
  change ("T_2M" +:+ String colon "F") with "T_2M:F" in H. rewrite H. reflexivity.
Defined.

(** ** The configured thresholds *)

(** What the analyzer reads of the configured thresholds, for each of the
    parameters that the data client offers: the hot and cold levels exist
    for the three temperature parameters only, a comfortable range exists
    for these and for precipitation, wind speed and humidity (whose other
    levels have names that the analyzer does not read), and wind gusts,
    pressure and sunshine duration have no thresholds at all. *)
Theorem configured_thresholds_of_available_parameters :
  Forall
    (λ code,
       ∃ thresholds : ThresholdSet,
         read_thresholds (_get_thresholds PARAMETER_THRESHOLDS code) = Some (Returned thresholds) ∧
         (is_Some (hot thresholds) ↔ In code ["t_2m:C"; "t_max_2m_24h:C"; "t_min_2m_24h:C"]) ∧
         (is_Some (cold thresholds) ↔ In code ["t_2m:C"; "t_max_2m_24h:C"; "t_min_2m_24h:C"]) ∧
         (is_Some (comfortable thresholds) ↔
            ¬ In code ["wind_gusts_10m_24h:ms"; "msl_pressure:hPa"; "sunshine_duration_24h:h"]) ∧
         (_get_thresholds PARAMETER_THRESHOLDS code = ∅ ↔
            In code ["wind_gusts_10m_24h:ms"; "msl_pressure:hPa"; "sunshine_duration_24h:h"]))
    (fst <$> get_available_parameters) ∧
  read_thresholds (_get_thresholds PARAMETER_THRESHOLDS "t_2m:C") =
    Some (Returned {| hot := Some 32%float; cold := Some 0%float;
                      comfortable := Some (18%float, 24%float) |}) ∧
  read_thresholds (_get_thresholds PARAMETER_THRESHOLDS "precip_24h:mm") =
    Some (Returned {| hot := None; cold := None; comfortable := Some (0%float, 5%float) |}).
Proof.
  split; [| split; vm_compute; reflexivity].
  unfold get_available_parameters. cbn [fmap list_fmap fst].
  repeat apply Forall_cons_2; try apply Forall_nil_2;
    (eexists; split; [vm_compute; reflexivity |]);
    cbn [hot cold comfortable In];
    repeat split; intros H;
    try (apply is_Some_None in H; destruct H);
    try (eexists; reflexivity);
    try (intuition discriminate);
    try (exfalso; apply H; auto 10; fail);
    try (auto 10; fail).
Qed.

(** ** Interpretation of an assessment *)

(** The entries of the assessment that the processor reads. *)
Lemma generate_risk_assessment_shape
    (L : Library) (thresholds : ThresholdSet) (self : Analyzer) :
  let mean := np_mean (data self) in
  let cv := if (mean =? 0)%float then infinity
            else (np_std 0 (data self) / PrimFloat.abs mean)%float in
  ∃ (assessment trend : gmap string pyobj),
    generate_risk_assessment L thresholds self = (self, Returned assessment) ∧
    detect_trend L self = (self, Returned trend) ∧
    assessment !! "trend_analysis" = Some (PDict trend) ∧
    assessment !! "basic_stats" = Some (PDict (dict
      [ ("mean", PFloat (np_mean (data self)));
        ("median", PFloat (np_median L (data self)));
        ("std_dev", PFloat (np_std 0 (data self)));
        ("min_recorded", PFloat (np_min L (data self)));
        ("max_recorded", PFloat (np_max L (data self)));
        ("data_years", PInt (Z.of_nat (n_years self))) ])) ∧
    assessment !! "risk_category" =
      Some (PStr (if (cv <? 0.1)%float then "Low"
                  else if (cv <? 0.3)%float then "Moderate"
                  else if (cv <? 0.5)%float then "High"
                  else "Very High")) ∧
    assessment !! "error" = None ∧
    assessment !! "interpretation" = None ∧
    assessment !! "parameter_info" = None.
Proof.
  intros mean cv.
  destruct (detect_trend_returns L self) as [trend Htrend].
  unfold generate_risk_assessment, get_percentiles.
  unfold mbind, Method_bind, method_bind, mret, Method_ret, method_ret, self_data, self_n_years.
  rewrite Htrend.
  destruct thresholds as [[t_hot |] [t_cold |] [[lo hi] |]]; cbn [hot cold comfortable];
    repeat match goal with
    | |- context [calculate_probability ?t ?d self] =>
        let p := fresh "p" in let Hp := fresh "Hp" in let Hrp := fresh "Hrp" in
        destruct (calculate_probability_returns self t d) as (p & Hp & Hrp);
        [auto |]; rewrite Hp, Hrp
    end;
    cbn [fst snd];
    try (destruct (calculate_probability_counts self 0 lo hi) as (_ & _ & Hc); rewrite Hc);
    cbv beta iota;
    destruct (get_extreme_value_analysis_returns L self) as [ev ->];
    match goal with
    | |- context [_categorize_risk ?a self] =>
        rewrite (categorize_risk_floats self a
                   (PDict (dict
                      [ ("mean", PFloat (np_mean (data self)));
                        ("median", PFloat (np_median L (data self)));
                        ("std_dev", PFloat (np_std 0 (data self)));
                        ("min_recorded", PFloat (np_min L (data self)));
                        ("max_recorded", PFloat (np_max L (data self)));
                        ("data_years", PInt (Z.of_nat (n_years self))) ]))
                   (np_std 0 (data self)) (np_mean (data self)) eq_refl eq_refl eq_refl)
    end;
    do 2 eexists; (split; [reflexivity |]); (split; [reflexivity |]);
    repeat split; lookup_entry.
Qed.

Lemma detect_trend_shape (L : Library) (self : Analyzer) (trend : gmap string pyobj) :
  detect_trend L self = (self, Returned trend) →
  ∃ (significant : bool) (direction : string),
    trend !! "significant" = Some (PBool significant) ∧
    trend !! "direction" = Some (PStr direction).
Proof.
  destruct (stats_linregress L (np_arange (n_years self)) (data self)) as [r | e] eqn:H.
  - rewrite (detect_trend_success L self r H). intros [= <-]. do 2 eexists. split; reflexivity.
  - rewrite (detect_trend_failure L self e H). intros [= <-]. do 2 eexists. split; reflexivity.
Qed.

Lemma interpret_results_unfold
    (parameter : string) (assessment basic_stats trend : gmap string pyobj)
    (mean_val std_val : float) (significant : bool) (direction category : string) :
  assessment !! "basic_stats" = Some (PDict basic_stats) →
  basic_stats !! "mean" = Some (PFloat mean_val) →
  basic_stats !! "std_dev" = Some (PFloat std_val) →
  assessment !! "trend_analysis" = Some (PDict trend) →
  trend !! "significant" = Some (PBool significant) →
  trend !! "direction" = Some (PStr direction) →
  assessment !! "risk_category" = Some (PStr category) →
  let cv := if negb (mean_val =? 0)%float then (std_val / PrimFloat.abs mean_val)%float
            else 0%float in
  ∃ interpretation : gmap string string,
    _interpret_results parameter assessment = Some interpretation ∧
    interpretation !! "error" = None ∧
    interpretation !! "variability" =
      Some (if (cv <? 0.1)%float then "Very consistent conditions"
            else if (cv <? 0.2)%float then "Fairly consistent conditions"
            else if (cv <? 0.3)%float then "Moderate variability"
            else "High variability") ∧
    interpretation !! "trend" =
      Some (if significant then "Significant " +:+ direction +:+ " trend detected"
            else "No significant trend detected") ∧
    interpretation !! "risk_level" = Some ("Risk level: " +:+ category).
Proof.
  intros Hstats Hmean Hstd Htrend Hsig Hdir Hcat cv.
  unfold _interpret_results. rewrite Hstats, Hmean, Hstd, Htrend. cbn [mbind option_bind].
  rewrite Hsig, Hdir, Hcat. cbn [default py_bool format_text mbind option_bind]. fold cv.
  destruct significant; cbn [mbind option_bind];
    destruct (str_contains "t_2m" _); [| destruct (str_contains "precip" _);
                                         [| destruct (str_contains "wind" _)] | |
                                       destruct (str_contains "precip" _);
                                         [| destruct (str_contains "wind" _)]];
    eexists; (split; [reflexivity |]); repeat split; lookup_entry.
Qed.

(** The interpretation of an assessment that the analyzer has produced
    is always complete: it has no 'error' entry; its trend text is
    'Significant <direction> trend detected' when the trend analysis is
    significant and 'No significant trend detected' otherwise; and its
    risk level repeats the risk category of the assessment. *)
Theorem interpretation_of_assessment_is_complete
    (L : Library) (thresholds : ThresholdSet) (self : Analyzer)
    (parameter : string) (info : pyobj) :
  ∃ (assessment trend : gmap string pyobj) (interpretation : gmap string string)
    (significant : bool) (direction category : string),
    generate_risk_assessment L thresholds self = (self, Returned assessment) ∧
    _interpret_results parameter (<["parameter_info" := info]> assessment) = Some interpretation ∧
    interpretation !! "error" = None ∧
    is_Some (interpretation !! "variability") ∧
    assessment !! "trend_analysis" = Some (PDict trend) ∧
    trend !! "significant" = Some (PBool significant) ∧
    trend !! "direction" = Some (PStr direction) ∧
    interpretation !! "trend" =
      Some (if significant then "Significant " +:+ direction +:+ " trend detected"
            else "No significant trend detected") ∧
    assessment !! "risk_category" = Some (PStr category) ∧
    interpretation !! "risk_level" = Some ("Risk level: " +:+ category).
Proof.
  destruct (generate_risk_assessment_shape L thresholds self)
    as (assessment & trend & Hrun & Htrend & Hta & Hstats & Hrisk & _).
  destruct (detect_trend_shape L self trend Htrend) as (significant & direction & Hsig & Hdir).
  destruct (interpret_results_unfold parameter (<["parameter_info" := info]> assessment)
              _ trend (np_mean (data self)) (np_std 0 (data self)) significant direction _
              ltac:(rewrite lookup_insert_ne by discriminate; exact Hstats)
              eq_refl eq_refl
              ltac:(rewrite lookup_insert_ne by discriminate; exact Hta)
              Hsig Hdir
              ltac:(rewrite lookup_insert_ne by discriminate; exact Hrisk))
    as (interpretation & Hrun' & Herr & Hvar & Htext & Hlevel).
  exists assessment, trend, interpretation, significant, direction. eexists.
  split; [exact Hrun |]. split; [exact Hrun' |]. split; [exact Herr |].
  split; [rewrite Hvar; eauto |]. split; [exact Hta |]. split; [exact Hsig |].
  split; [exact Hdir |]. split; [exact Htext |]. split; [exact Hrisk |]. exact Hlevel.
Qed.

(** The variability text and the risk category are two readings of the
    same coefficient of variation, and they agree when the mean is not
    zero: the category is 'Low' exactly when the conditions are 'Very
    consistent', and 'High' or 'Very High' exactly when the text is 'High
    variability'.  They disagree for a mean of zero, which the risk
    category takes as an infinite coefficient ('Very High') and the
    interpretation as a coefficient of zero ('Very consistent
    conditions'). *)
Theorem variability_versus_risk_category
    (L : Library) (thresholds : ThresholdSet) (self : Analyzer)
    (parameter : string) (info : pyobj) :
  ∃ (assessment : gmap string pyobj) (interpretation : gmap string string)
    (category variability : string),
    generate_risk_assessment L thresholds self = (self, Returned assessment) ∧
    _interpret_results parameter (<["parameter_info" := info]> assessment) = Some interpretation ∧
    assessment !! "risk_category" = Some (PStr category) ∧
    interpretation !! "variability" = Some variability ∧
    ((np_mean (data self) =? 0)%float = false →
       (category = "Low" ↔ variability = "Very consistent conditions") ∧
       (category = "High" ∨ category = "Very High" ↔ variability = "High variability")) ∧
    ((np_mean (data self) =? 0)%float = true →
       category = "Very High" ∧ variability = "Very consistent conditions").
Proof.
  destruct (generate_risk_assessment_shape L thresholds self)
    as (assessment & trend & Hrun & Htrend & Hta & Hstats & Hrisk & _).
  destruct (detect_trend_shape L self trend Htrend) as (significant & direction & Hsig & Hdir).
  destruct (interpret_results_unfold parameter (<["parameter_info" := info]> assessment)
              _ trend (np_mean (data self)) (np_std 0 (data self)) significant direction _
              ltac:(rewrite lookup_insert_ne by discriminate; exact Hstats)
              eq_refl eq_refl
              ltac:(rewrite lookup_insert_ne by discriminate; exact Hta)
              Hsig Hdir
              ltac:(rewrite lookup_insert_ne by discriminate; exact Hrisk))
    as (interpretation & Hrun' & _ & Hvar & _).
  cbv zeta in Hrisk, Hvar.
  exists assessment, interpretation. do 2 eexists.
  split; [exact Hrun |]. split; [exact Hrun' |]. split; [exact Hrisk |]. split; [exact Hvar |].
  destruct (np_mean (data self) =? 0)%float; cbn [negb]; (split; [| intros [=]]).
  - intros [=].
  - split; reflexivity.
  - intros _.
    set (cv := (np_std 0 (data self) / PrimFloat.abs (np_mean (data self)))%float).
    assert ((cv <? 0.2)%float = true → (cv <? 0.3)%float = true) as H23.
    { intros H. apply (float_ltb_trans _ _ _ H). reflexivity. }
    destruct (cv <? 0.1)%float.
    + split; split; intros H; try reflexivity; try discriminate H.
      destruct H as [H | H]; discriminate H.
    + destruct (cv <? 0.3)%float.
      * split; split; intros H; try discriminate H.
        -- destruct (cv <? 0.2)%float; discriminate H.
        -- destruct H as [H | H]; discriminate H.
        -- destruct (cv <? 0.2)%float; discriminate H.
      * destruct (cv <? 0.2)%float; [specialize (H23 eq_refl); discriminate H23 |].
        split; split; intros H; try reflexivity; try discriminate H.
        -- destruct (cv <? 0.5)%float; discriminate H.
        -- destruct (cv <? 0.5)%float; auto.
Qed.

(** ** Summary of a query *)

Lemma summarize_counts (parameters : list (string * gmap string pyobj)) :
  ∀ successful failed risk_levels findings successful' failed' risk_levels' findings',
    summarize parameters successful failed risk_levels findings =
      Some (successful', failed', risk_levels', findings') →
    successful' + failed' = successful + failed + length parameters ∧
    failed' = failed + length (List.filter is_failed parameters) ∧
    length risk_levels' + successful = length risk_levels + successful'.
Proof.
  induction parameters as [| [param analysis] rest IH];
    intros successful failed risk_levels findings successful' failed' risk_levels' findings' H.
  - injection H as <- <- <- <-. cbn [length List.filter]. lia.
  - cbn [summarize] in H. cbn [List.filter length]. unfold is_failed at 1. cbn [snd].
    destruct (analysis !! "error") as [err |] eqn:Herr.
    + rewrite bool_decide_eq_true_2 by eauto. cbn [length].
      specialize (IH _ _ _ _ _ _ _ _ H). lia.
    + rewrite bool_decide_eq_false_2 by (intros [? [=]]).
      destruct (format_text _) as [risk_level |]; [| discriminate]. cbn [mbind option_bind] in H.
      destruct (match analysis !! "interpretation" with
                | Some (PDict i) => Some i
                | Some _ => None
                | None => Some ∅
                end) as [interpretation |]; [| discriminate].
      cbn [mbind option_bind] in H.
      destruct (match interpretation !! "trend" with
                | Some (PStr trend) => _
                | Some _ => None
                | None => Some findings
                end) as [findings1 |]; [| discriminate].
      cbn [mbind option_bind] in H.
      specialize (IH _ _ _ _ _ _ _ _ H). rewrite length_app in IH. cbn [length] in IH. lia.
Qed.

Lemma count_risk_nonempty (risk : string) (counts : list (string * nat)) :
  count_risk risk counts ≠ [].
Proof. destruct counts as [| [k c] rest]; simpl; [| destruct (String.eqb k risk)]; discriminate. Qed.

Lemma max_by_count_nonempty (counts : list (string * nat)) :
  counts ≠ [] → is_Some (max_by_count counts).
Proof.
  unfold max_by_count. destruct counts as [| entry rest]; [contradiction |]. intros _.
  cbn [fold_left].
  assert (∀ l best, is_Some (fold_left
            (λ (best : option (string * nat)) (entry : string * nat),
               match best with
               | None => Some entry
               | Some b => if (b.2 <? entry.2)%nat then Some entry else best
               end) l (Some best))) as H.
  { induction l as [| e l IH]; intros best; cbn [fold_left]; [eauto |].
    destruct (best.2 <? e.2)%nat; apply IH. }
  destruct (H rest entry) as [b ->]. eauto.
Qed.

Lemma fold_count_risk_nonempty (levels : list string) (counts : list (string * nat)) :
  counts ≠ [] → fold_left (λ counts risk, count_risk risk counts) levels counts ≠ [].
Proof.
  revert counts. induction levels as [| r rest IH]; intros counts Hne; cbn [fold_left];
    [exact Hne |]. apply IH, count_risk_nonempty.
Qed.

(** The numbers of the summary add up: every parameter is counted once,
    as failed when its entry has an 'error' and as successful otherwise;
    there is one risk level for each success; and a dominant risk level
    is reported exactly when some analysis succeeded. *)
Theorem summary_counts_add_up
    (parameters : list (string * gmap string pyobj)) (summary : Summary) :
  _generate_summary parameters = Some summary →
  total_parameters summary = length parameters ∧
  successful_analyses summary + failed_analyses summary = total_parameters summary ∧
  failed_analyses summary = length (List.filter is_failed parameters) ∧
  length (overall_risk_levels summary) = successful_analyses summary ∧
  (is_Some (dominant_risk_level summary) ↔ 0 < successful_analyses summary).
Proof.
  unfold _generate_summary.
  destruct (summarize parameters 0 0 [] []) as [[[[successful failed] risk_levels] findings] |] eqn:H;
    [| discriminate].
  cbn [mbind option_bind]. intros [= <-]. cbn.
  destruct (summarize_counts _ _ _ _ _ _ _ _ _ H) as (Hsum & Hfailed & Hlevels).
  cbn [length] in *.
  split; [reflexivity |]. split; [lia |]. split; [lia |]. split; [lia |].
  destruct risk_levels as [| risk rest].
  - cbn [length] in Hlevels. split; [intros [? [=]] | lia].
  - cbn [length] in Hlevels. split; [lia |]. intros _.
    apply max_by_count_nonempty. cbn [fold_left].
    apply fold_count_risk_nonempty, count_risk_nonempty.
Qed.

Lemma summary_counts_add_up_witness :
  _generate_summary sample_entries = Some sample_summary ∧
  successful_analyses sample_summary + failed_analyses sample_summary =
    total_parameters sample_summary ∧
  is_Some (dominant_risk_level sample_summary).
Proof.
  assert (_generate_summary sample_entries = Some sample_summary) as H
    by (vm_compute; reflexivity).
  destruct (summary_counts_add_up sample_entries sample_summary H) as (_ & Hsum & _ & _ & Hdom).
  split; [exact H |]. split; [exact Hsum |]. apply Hdom. cbn. lia.
Defined.

Lemma summarize_findings (parameters : list (string * gmap string pyobj)) :
  ∀ successful failed risk_levels findings successful' failed' risk_levels' findings',
    summarize parameters successful failed risk_levels findings =
      Some (successful', failed', risk_levels', findings') →
    (∀ x, In x findings → In x findings') ∧
    (∀ param analysis interpretation text,
       In (param, analysis) parameters →
       analysis !! "error" = None →
       analysis !! "interpretation" = Some (PDict interpretation) →
       interpretation !! "trend" = Some (PStr text) →
       str_contains "significant" (str_lower text) = true →
       In (param +:+ ": " +:+ text) findings').
Proof.
  induction parameters as [| [param analysis] rest IH];
    intros successful failed risk_levels findings successful' failed' risk_levels' findings' H.
  - injection H as <- <- <- <-. split; [auto |]. intros ? ? ? ? [].
  - cbn [summarize] in H.
    destruct (analysis !! "error") as [err |] eqn:Herr.
    + destruct (IH _ _ _ _ _ _ _ _ H) as [Hkeep Hnew]. split; [exact Hkeep |].
      intros p a i t [[= <- <-] | Hin] Ha Hi Ht Hc; [congruence |]. eauto.
    + destruct (format_text _) as [risk_level |]; [| discriminate]. cbn [mbind option_bind] in H.
      destruct (analysis !! "interpretation") as [[| | | | | | interp] |] eqn:Hinterp;
        try discriminate; cbn [mbind option_bind] in H.
      * destruct (interp !! "trend") as [[| | | trend | | |] |] eqn:Htrend;
          try discriminate; cbn [mbind option_bind] in H.
        -- destruct (str_contains "significant" (str_lower trend)) eqn:Hc;
             cbn [mbind option_bind] in H;
             destruct (IH _ _ _ _ _ _ _ _ H) as [Hkeep Hnew]; (split;
               [intros x Hx; apply Hkeep; try (apply in_or_app; left); exact Hx |]);
             intros p a i t [[= <- <-] | Hin] Ha Hi Ht Hc'; eauto;
             rewrite Hinterp in Hi; injection Hi as <-;
             rewrite Htrend in Ht; injection Ht as <-.
           ++ apply Hkeep, in_or_app. right. left. reflexivity.
           ++ congruence.
        -- destruct (IH _ _ _ _ _ _ _ _ H) as [Hkeep Hnew]. split; [exact Hkeep |].
           intros p a i t [[= <- <-] | Hin] Ha Hi Ht Hc'; eauto.
           rewrite Hinterp in Hi. injection Hi as <-. congruence.
      * destruct (IH _ _ _ _ _ _ _ _ H) as [Hkeep Hnew]. split; [exact Hkeep |].
        intros p a i t [[= <- <-] | Hin] Ha Hi Ht Hc'; eauto. congruence.
Qed.

(** An analysis whose interpretation says 'No significant trend detected'
    is nevertheless listed among the key findings of the summary, because
    this text contains the word 'significant' as well. *)
Theorem key_findings_list_insignificant_trends
    (parameters : list (string * gmap string pyobj)) (summary : Summary)
    (param : string) (analysis interpretation : gmap string pyobj) :
  _generate_summary parameters = Some summary →
  In (param, analysis) parameters →
  analysis !! "error" = None →
  analysis !! "interpretation" = Some (PDict interpretation) →
  interpretation !! "trend" = Some (PStr "No significant trend detected") →
  In (param +:+ ": No significant trend detected") (key_findings summary).
Proof.
  unfold _generate_summary.
  destruct (summarize parameters 0 0 [] []) as [[[[successful failed] risk_levels] findings] |] eqn:H;
    [| discriminate].
  cbn [mbind option_bind]. intros [= <-] Hin Herr Hinterp Htrend. cbn [key_findings].
  destruct (summarize_findings _ _ _ _ _ _ _ _ _ H) as [_ Hnew].
  apply (Hnew param analysis interpretation "No significant trend detected");
    try assumption. reflexivity.
Qed.

Lemma key_findings_list_insignificant_trends_witness :
  _generate_summary sample_entries = Some sample_summary ∧
  In "t_2m:C: No significant trend detected" (key_findings sample_summary).
Proof.
  assert (_generate_summary sample_entries = Some sample_summary) as H
    by (vm_compute; reflexivity).
  split; [exact H |].
  refine (key_findings_list_insignificant_trends sample_entries sample_summary "t_2m:C"
            (dict [ ("risk_category", PStr "Low");
                    ("interpretation",
                     PDict (dict [ ("trend", PStr "No significant trend detected") ])) ])
            (dict [ ("trend", PStr "No significant trend detected") ])
            H _ eq_refl eq_refl eq_refl).
  left. reflexivity.
Defined.

(** *** The dominant risk level *)

Lemma occurrences_app (risk r : string) (levels : list string) :
  occurrences risk (levels ++ [r]) =
  occurrences risk levels + (if String.eqb risk r then 1 else 0).
Proof.
  unfold occurrences. rewrite List.filter_app, length_app. cbn [List.filter].
  destruct (String.eqb risk r); reflexivity.
Qed.

Lemma count_risk_keys (risk : string) (counts : list (string * nat)) (k : string) :
  In k (fst <$> count_risk risk counts) ↔ k = risk ∨ In k (fst <$> counts).
Proof.
  induction counts as [| [k0 c0] rest IH]; cbn [count_risk fmap list_fmap fst In].
  - intuition.
  - destruct (String.eqb_spec k0 risk) as [-> | Hne]; cbn [fmap list_fmap fst In].
    + intuition.
    + rewrite IH. intuition.
Qed.

Lemma count_risk_counts (levels : list string) (risk : string) (counts : list (string * nat)) :
  NoDup (fst <$> counts) →
  (∀ k c, In (k, c) counts → c = occurrences k levels) →
  (∀ k, In k (fst <$> counts) ∨ occurrences k levels = 0) →
  NoDup (fst <$> count_risk risk counts) ∧
  (∀ k c, In (k, c) (count_risk risk counts) → c = occurrences k (levels ++ [risk])) ∧
  (∀ k, In k (fst <$> count_risk risk counts) ∨ occurrences k (levels ++ [risk]) = 0).
Proof.
  intros Hnodup Hcount Hall. split; [| split].
  - clear Hcount Hall. induction counts as [| [k0 c0] rest IH]; cbn [count_risk].
    + cbn. apply NoDup_cons. split; [apply not_elem_of_nil | apply NoDup_nil_2].
    + cbn [fmap list_fmap fst] in Hnodup. apply NoDup_cons in Hnodup as [Hnotin Hrest].
      destruct (String.eqb_spec k0 risk) as [-> | Hne]; cbn [fmap list_fmap fst].
      * apply NoDup_cons. split; assumption.
      * apply NoDup_cons. split; [| apply IH, Hrest].
        rewrite list_elem_of_In, count_risk_keys. rewrite list_elem_of_In in Hnotin.
        intros [-> | H]; [congruence | contradiction].
  - intros k c Hin. rewrite occurrences_app.
    assert (∀ counts', NoDup (fst <$> counts') →
              (∀ k c, In (k, c) counts' → c = occurrences k levels) →
              (In risk (fst <$> counts') ∨ occurrences risk levels = 0) →
              In (k, c) (count_risk risk counts') →
              c = occurrences k levels + (if String.eqb k risk then 1 else 0)) as Hgen.
    { clear. induction counts' as [| [k0 c0] rest IH]; intros Hnodup Hcount Hrisk Hin.
      - cbn in Hin. destruct Hin as [[= <- <-] | []].
        rewrite String.eqb_refl. destruct Hrisk as [[] | ->]. reflexivity.
      - cbn [fmap list_fmap fst] in Hnodup. apply NoDup_cons in Hnodup as [Hnotin Hrest].
        rewrite list_elem_of_In in Hnotin.
        cbn [count_risk] in Hin.
        destruct (String.eqb_spec k0 risk) as [-> | Hne].
        + destruct Hin as [[= <- <-] | Hin].
          * rewrite String.eqb_refl, (Hcount risk c0 (or_introl eq_refl)). lia.
          * destruct (String.eqb_spec k risk) as [-> | _].
            -- exfalso. apply Hnotin. apply (in_map fst) in Hin. exact Hin.
            -- rewrite (Hcount k c (or_intror Hin)). lia.
        + destruct Hin as [[= <- <-] | Hin].
          * destruct (String.eqb_spec k0 risk) as [| _]; [contradiction |].
            rewrite (Hcount k0 c0 (or_introl eq_refl)). lia.
          * apply IH; try assumption.
            -- intros k' c' H'. apply Hcount. right. exact H'.
            -- destruct Hrisk as [[Heq | H'] | H']; auto. cbn in Heq. congruence. }
    apply (Hgen counts); try assumption. apply Hall.
  - intros k. rewrite count_risk_keys, occurrences_app.
    destruct (String.eqb_spec k risk) as [-> | Hne]; [auto |].
    destruct (Hall k) as [H | H]; [auto | right; lia].
Qed.

Lemma fold_count_risk_counts (rest levels : list string) (counts : list (string * nat)) :
  NoDup (fst <$> counts) →
  (∀ k c, In (k, c) counts → c = occurrences k levels) →
  (∀ k, In k (fst <$> counts) ∨ occurrences k levels = 0) →
  let counts' := fold_left (λ counts risk, count_risk risk counts) rest counts in
  (∀ k c, In (k, c) counts' → c = occurrences k (levels ++ rest)) ∧
  (∀ k, In k (fst <$> counts') ∨ occurrences k (levels ++ rest) = 0).
Proof.
  revert levels counts. induction rest as [| r rest IH]; intros levels counts Hn Hc Hall.
  - rewrite app_nil_r. auto.
  - cbn [fold_left].
    destruct (count_risk_counts levels r counts Hn Hc Hall) as (Hn' & Hc' & Hall').
    replace (levels ++ r :: rest) with ((levels ++ [r]) ++ rest)
      by (rewrite <- app_assoc; reflexivity).
    apply IH; assumption.
Qed.

Lemma fold_count_risk_positive (levels : list string) (counts : list (string * nat)) :
  (∀ k c, In (k, c) counts → 0 < c) →
  ∀ k c, In (k, c) (fold_left (λ counts risk, count_risk risk counts) levels counts) → 0 < c.
Proof.
  revert counts. induction levels as [| r levels IH]; intros counts Hc k c Hin; [eauto |].
  cbn [fold_left] in Hin. apply (IH (count_risk r counts)) in Hin; [exact Hin |].
  clear -Hc. induction counts as [| [k0 c0] rest IH]; intros k c Hin.
  - destruct Hin as [[= <- <-] | []]. lia.
  - cbn [count_risk] in Hin. destruct (String.eqb k0 r).
    + destruct Hin as [[= <- <-] | Hin]; [lia | apply (Hc k c); right; exact Hin].
    + destruct Hin as [[= <- <-] | Hin]; [apply (Hc k0 c0); left; reflexivity |].
      refine (IH _ k c Hin). intros k' c' H'. apply (Hc k' c'). right. exact H'.
Qed.

Lemma max_by_count_spec (counts : list (string * nat)) (k : string) :
  max_by_count counts = Some k →
  ∃ c, In (k, c) counts ∧ ∀ k' c', In (k', c') counts → c' ≤ c.
Proof.
  unfold max_by_count.
  set (step := λ (best : option (string * nat)) (entry : string * nat),
         match best with
         | None => Some entry
         | Some b => if (b.2 <? entry.2)%nat then Some entry else best
         end).
  assert (∀ l seen b,
            In b seen → (∀ e, In e seen → e.2 ≤ b.2) →
            ∃ b', fold_left step l (Some b) = Some b' ∧ In b' (seen ++ l) ∧
                  ∀ e, In e (seen ++ l) → e.2 ≤ b'.2) as Hfold.
  { induction l as [| e l IH]; intros seen b Hin Hmax.
    - exists b. rewrite app_nil_r. auto.
    - cbn [fold_left step].
      replace (seen ++ e :: l) with ((seen ++ [e]) ++ l) by (rewrite <- app_assoc; reflexivity).
      destruct (Nat.ltb_spec b.2 e.2) as [Hlt | Hge].
      + apply IH; [apply in_or_app; right; left; reflexivity |].
        intros e' [He' | [<- | []]]%in_app_or; [specialize (Hmax e' He'); lia | lia].
      + apply IH; [apply in_or_app; left; exact Hin |].
        intros e' [He' | [<- | []]]%in_app_or; [exact (Hmax e' He') | exact Hge]. }
  destruct counts as [| b rest]; [discriminate |].
  cbn [fold_left step].
  destruct (Hfold rest [b] b (or_introl eq_refl)) as (b' & -> & Hin & Hmax).
  { intros e [<- | []]. lia. }
  cbn [fmap option_fmap option_map]. intros [= <-]. exists b'.2.
  split; [destruct b'; exact Hin |]. intros k' c' H'. exact (Hmax (k', c') H').
Qed.

(** The dominant risk level of the summary is a level that occurs most
    often among the risk levels of the successful analyses. *)
Theorem dominant_risk_level_is_most_frequent
    (parameters : list (string * gmap string pyobj)) (summary : Summary) (risk : string) :
  _generate_summary parameters = Some summary →
  dominant_risk_level summary = Some risk →
  In risk (overall_risk_levels summary) ∧
  ∀ other, occurrences other (overall_risk_levels summary) ≤
           occurrences risk (overall_risk_levels summary).
Proof.
  unfold _generate_summary.
  destruct (summarize parameters 0 0 [] []) as [[[[successful failed] risk_levels] findings] |];
    [| discriminate].
  cbn [mbind option_bind]. intros [= <-]. cbn [dominant_risk_level overall_risk_levels].
  intros Hdom.
  assert (max_by_count (fold_left (λ counts risk, count_risk risk counts) risk_levels []) =
            Some risk) as Hmax by (destruct risk_levels; [discriminate | exact Hdom]).
  clear Hdom.
  destruct (fold_count_risk_counts risk_levels [] []) as [Hcount Hall].
  { apply NoDup_nil_2. }
  { intros ? ? []. }
  { intros k. right. reflexivity. }
  cbn [app] in *.
  destruct (max_by_count_spec _ _ Hmax) as (c & Hin & Hbest).
  pose proof (Hcount risk c Hin) as Hc.
  pose proof (fold_count_risk_positive risk_levels [] ltac:(intros ? ? []) risk c Hin) as Hpos.
  split.
  - rewrite Hc in Hpos. unfold occurrences in Hpos.
    destruct (List.filter (String.eqb risk) risk_levels) as [| x l] eqn:E; [cbn in Hpos; lia |].
    assert (In x (List.filter (String.eqb risk) risk_levels)) as Hx by (rewrite E; left; reflexivity).
    apply filter_In in Hx as [Hx Heq]. apply String.eqb_eq in Heq. subst x. exact Hx.
  - intros other. rewrite <- Hc.
    destruct (Hall other) as [H | ->]; [| lia].
    apply in_map_iff in H as ([k c'] & Hk & H). cbn in Hk. subst k.
    rewrite <- (Hcount other c' H). exact (Hbest other c' H).
Qed.

(** ** Processing a query *)

Lemma odict_set_keys {V} (key : string) (v : V) (d : list (string * V)) (k : string) :
  In k (fst <$> odict_set key v d) ↔ k = key ∨ In k (fst <$> d).
Proof.
  induction d as [| [k0 w] rest IH]; cbn [odict_set fmap list_fmap fst In].
  - intuition.
  - destruct (String.eqb_spec k0 key) as [-> | Hne]; cbn [fmap list_fmap fst In].
    + intuition.
    + rewrite IH. intuition.
Qed.

Lemma odict_set_NoDup {V} (key : string) (v : V) (d : list (string * V)) :
  NoDup (fst <$> d) → NoDup (fst <$> odict_set key v d).
Proof.
  induction d as [| [k0 w] rest IH]; cbn [odict_set fmap list_fmap fst]; intros Hnodup.
  - apply NoDup_cons. split; [apply not_elem_of_nil | apply NoDup_nil_2].
  - apply NoDup_cons in Hnodup as [Hnotin Hrest].
    destruct (String.eqb_spec k0 key) as [-> | Hne]; cbn [fmap list_fmap fst].
    + apply NoDup_cons. split; assumption.
    + apply NoDup_cons. split; [| apply IH, Hrest].
      rewrite list_elem_of_In, odict_set_keys. rewrite list_elem_of_In in Hnotin.
      intros [-> | H]; [congruence | contradiction].
Qed.

Lemma odict_set_entries {V} (key : string) (v : V) (d : list (string * V)) (k : string) (e : V) :
  NoDup (fst <$> d) →
  In (k, e) (odict_set key v d) → (k = key ∧ e = v) ∨ (k ≠ key ∧ In (k, e) d).
Proof.
  induction d as [| [k0 w] rest IH]; cbn [odict_set fmap list_fmap fst]; intros Hnodup Hin.
  - destruct Hin as [[= <- <-] | []]. auto.
  - apply NoDup_cons in Hnodup as [Hnotin Hrest]. rewrite list_elem_of_In in Hnotin.
    destruct (String.eqb_spec k0 key) as [-> | Hne].
    + destruct Hin as [[= <- <-] | Hin]; [auto |]. right. split; [| right; exact Hin].
      intros ->. apply Hnotin. apply (in_map fst) in Hin. exact Hin.
    + destruct Hin as [[= <- <-] | Hin]; [right; split; [exact Hne | left; reflexivity] |].
      destruct (IH Hrest Hin) as [? | [? ?]]; [auto |]. right. split; [assumption | right; assumption].
Qed.

Lemma error_entry_lookup (message : string) :
  error_entry message !! "error" = Some (PStr message).
Proof. reflexivity. Qed.

Section ProcessorFacts.
Variable services : Services.
Variable L : Library.
Variable table : gmap string (gmap string pyobj).
Variable location : gmap string pyobj.
Variables day years : Z.

Lemma generate_risk_assessment_snd (thresholds : ThresholdSet) (self : Analyzer) :
  ∃ assessment, generate_risk_assessment L thresholds self = (self, Returned assessment).
Proof.
  destruct (generate_risk_assessment_shape L thresholds self) as (assessment & _ & H & _).
  eauto.
Qed.

(** The entry of an analysed parameter: the assessment of the cleaned
    data with the two entries that the processor adds. *)
Lemma analysis_entry_shape (param : string) (thresholds : ThresholdSet) (self : Analyzer)
    (info : pyobj) :
  ∃ (assessment : gmap string pyobj) (interpretation : gmap string string),
    generate_risk_assessment L thresholds self = (self, Returned assessment) ∧
    _interpret_results param (<["parameter_info" := info]> assessment) = Some interpretation ∧
    is_analysis (<["interpretation" := PDict (PStr <$> interpretation)]>
                   (<["parameter_info" := info]> assessment)).
Proof.
  destruct (generate_risk_assessment_shape L thresholds self)
    as (assessment & trend & Hrun & Htrend & Hta & Hstats & Hrisk & Herr & _).
  destruct (detect_trend_shape L self trend Htrend) as (significant & direction & Hsig & Hdir).
  destruct (interpret_results_unfold param (<["parameter_info" := info]> assessment)
              _ trend (np_mean (data self)) (np_std 0 (data self)) significant direction _
              ltac:(rewrite lookup_insert_ne by discriminate; exact Hstats)
              eq_refl eq_refl
              ltac:(rewrite lookup_insert_ne by discriminate; exact Hta)
              Hsig Hdir
              ltac:(rewrite lookup_insert_ne by discriminate; exact Hrisk))
    as (interpretation & Hrun' & _ & _ & Htext & _).
  exists assessment, interpretation. split; [exact Hrun |]. split; [exact Hrun' |].
  split; [| split].
  - rewrite !lookup_insert_ne by discriminate. exact Herr.
  - eexists. rewrite !lookup_insert_ne by discriminate. exact Hrisk.
  - eexists _, _. split; [apply lookup_insert_eq |]. split.
    + rewrite lookup_fmap, Htext. reflexivity.
    + destruct significant; reflexivity.
Qed.

Lemma analyse_parameter_entry (param : string) (entry : gmap string pyobj) (emitted : list string) :
  analyse_parameter services L table location param day years = Some (entry, emitted) →
  (∃ message, entry = error_entry message) ∨ is_analysis entry.
Proof.
  unfold analyse_parameter.
  destruct (location !! "lat") as [lat |]; [| intros [= <- <-]; eauto].
  destruct (location !! "lon") as [lon |]; [| intros [= <- <-]; eauto].
  destruct (get_historical_data services lat lon param day years) as [historical_data | e];
    [| intros [= <- <-]; eauto].
  destruct (0 <? length historical_data)%nat; [| intros [= <- <-]; eauto].
  destruct (__init__ historical_data) as [[analyzer warnings] | e]; [| intros [= <- <-]; eauto].
  destruct (read_thresholds _) as [[thresholds | e] |]; cbn [mbind option_bind];
    [| intros [= <- <-]; eauto | discriminate].
  destruct (_get_parameter_units param) as [units |] eqn:Hunits.
  - match goal with
    | |- context [<["parameter_info" := ?i]> _] =>
        destruct (analysis_entry_shape param thresholds analyzer i)
          as (assessment & interpretation & Hrun & Hinterp & Hshape)
    end.
    rewrite Hrun. cbn [snd]. rewrite Hinterp. cbn [mbind option_bind].
    intros [= <- <-]. right. exact Hshape.
  - destruct (generate_risk_assessment_snd thresholds analyzer) as [assessment ->].
    cbn [snd]. intros [= <- <-]. eauto.
Qed.

Lemma analyse_parameter_total (param : string) :
  (∀ k d, table !! k = Some d → is_Some (read_thresholds d)) →
  is_Some (analyse_parameter services L table location param day years).
Proof.
  intros Htable. unfold analyse_parameter.
  destruct (location !! "lat") as [lat |]; [| eauto].
  destruct (location !! "lon") as [lon |]; [| eauto].
  destruct (get_historical_data services lat lon param day years) as [historical_data | e]; [| eauto].
  destruct (0 <? length historical_data)%nat; [| eauto].
  destruct (__init__ historical_data) as [[analyzer warnings] | e]; [| eauto].
  assert (is_Some (read_thresholds (_get_thresholds table param))) as [reading ->].
  { unfold _get_thresholds.
    destruct (table !! _) as [d |] eqn:E; cbn [default]; [exact (Htable _ _ E) |].
    eexists. reflexivity. }
  cbn [mbind option_bind]. destruct reading as [thresholds | e]; [| eauto].
  destruct (parameter_units_total param) as [units ->].
  match goal with
  | |- context [<["parameter_info" := ?i]> _] =>
      destruct (analysis_entry_shape param thresholds analyzer i)
        as (assessment & interpretation & Hrun & Hinterp & _)
  end.
  rewrite Hrun. cbn [snd]. rewrite Hinterp. cbn [mbind option_bind]. eauto.
Qed.

Lemma store_parameter_none (parameters : list string) :
  foldl (store_parameter services L table location day years) None parameters = None.
Proof. induction parameters as [| p rest IH]; [reflexivity | exact IH]. Qed.

Lemma store_parameters_spec (parameters : list string) :
  ∀ entries0 warnings0 entries warnings,
    foldl (store_parameter services L table location day years) (Some (entries0, warnings0)) parameters =
      Some (entries, warnings) →
    NoDup (fst <$> entries0) →
    NoDup (fst <$> entries) ∧
    (∀ k, In k (fst <$> entries) ↔ In k (fst <$> entries0) ∨ In k parameters) ∧
    (∀ k e, In (k, e) entries →
       In (k, e) entries0 ∨
       ∃ emitted, analyse_parameter services L table location k day years = Some (e, emitted)).
Proof.
  induction parameters as [| p rest IH]; intros entries0 warnings0 entries warnings Hrun Hnodup.
  - injection Hrun as <- <-. split; [exact Hnodup |]. split; [| auto]. cbn [In]. intuition.
  - cbn [foldl] in Hrun. unfold store_parameter at 2 in Hrun. cbn [mbind option_bind] in Hrun.
    destruct (analyse_parameter services L table location p day years) as [[entry emitted] |] eqn:Ha;
      cbn [mbind option_bind] in Hrun; [| rewrite store_parameter_none in Hrun; discriminate].
    destruct (IH _ _ _ _ Hrun (odict_set_NoDup p entry entries0 Hnodup)) as (Hn & Hkeys & Hent).
    split; [exact Hn |]. split.
    + intros k. rewrite Hkeys, odict_set_keys. cbn [In]. intuition.
    + intros k e Hin. destruct (Hent k e Hin) as [H | H]; [| auto].
      destruct (odict_set_entries p entry entries0 k e Hnodup H) as [[-> ->] | [_ H']]; eauto.
Qed.

Lemma store_parameters_total (parameters : list string) :
  (∀ k d, table !! k = Some d → is_Some (read_thresholds d)) →
  ∀ entries0 warnings0,
    is_Some (foldl (store_parameter services L table location day years)
               (Some (entries0, warnings0)) parameters).
Proof.
  intros Htable. induction parameters as [| p rest IH]; intros entries0 warnings0; [eauto |].
  cbn [foldl]. unfold store_parameter at 2. cbn [mbind option_bind].
  destruct (analyse_parameter_total p Htable) as [[entry emitted] ->].
  cbn [mbind option_bind]. apply IH.
Qed.

End ProcessorFacts.

Lemma summarize_total (entries : list (string * gmap string pyobj)) :
  (∀ k e, In (k, e) entries → (∃ message, e = error_entry message) ∨ is_analysis e) →
  ∀ successful failed risk_levels findings,
    ∃ successful' failed' risk_levels' findings',
      summarize entries successful failed risk_levels findings =
        Some (successful', failed', risk_levels', findings') ∧
      length findings' + successful = length findings + successful'.
Proof.
  induction entries as [| [param analysis] rest IH];
    intros Hshape successful failed risk_levels findings.
  - do 4 eexists. split; [reflexivity | lia].
  - cbn [summarize].
    assert (∀ k e, In (k, e) rest → (∃ message, e = error_entry message) ∨ is_analysis e) as Hrest
      by (intros k e H; apply (Hshape k e); right; exact H).
    destruct (Hshape param analysis (or_introl eq_refl))
      as [[message ->] | (Herr & [category Hcat] & interpretation & text & Hi & Ht & Hc)].
    + rewrite error_entry_lookup. apply IH, Hrest.
    + rewrite Herr, Hcat, Hi. cbn [default format_text mbind option_bind].
      rewrite Ht, Hc. cbn [mbind option_bind].
      destruct (IH Hrest (S successful) failed (risk_levels ++ [category])
                  (findings ++ [param +:+ ": " +:+ text]))
        as (s' & f' & rl' & fs' & Hrun & Hlen).
      exists s', f', rl', fs'. split; [exact Hrun |].
      rewrite length_app in Hlen. cbn [length] in Hlen. lia.
Qed.

Lemma configured_thresholds_readable (k : string) (d : gmap string pyobj) :
  PARAMETER_THRESHOLDS !! k = Some d → is_Some (read_thresholds d).
Proof.
  unfold PARAMETER_THRESHOLDS. intros H.
  apply elem_of_list_to_map_2, list_elem_of_In in H. cbn [In] in H.
  repeat (destruct H as [[= <- <-] | H]; [vm_compute; eauto |]). contradiction.
Qed.

(** A query fails only on its date: when the date is not in the format
    YYYY-MM-DD the ValueError 'Date must be in format YYYY-MM-DD' is
    raised, and for every other date a result is returned, whatever the
    data client and the library routines do for the single parameters
    (the thresholds being of the types that the configuration uses). *)
Theorem process_query_fails_only_on_the_date
    (services : Services) (L : Library) (table : gmap string (gmap string pyobj))
    (place : gmap string pyobj) (date : string) (requested : list string) (years : Z) :
  (∀ k d, table !! k = Some d → is_Some (read_thresholds d)) →
  (day_of_year services date = None →
     process_query services L table place date requested years =
       Some (Raised (ValueError "Date must be in format YYYY-MM-DD"), [])) ∧
  (is_Some (day_of_year services date) →
     ∃ results warnings,
       process_query services L table place date requested years =
         Some (Returned results, warnings)).
Proof.
  intros Htable. unfold process_query. split.
  - intros ->. reflexivity.
  - intros [day ->].
    destruct (store_parameters_total services L table place day years requested Htable [] [])
      as [[entries warnings] Hrun].
    rewrite Hrun. cbn [mbind option_bind].
    destruct (store_parameters_spec services L table place day years requested
                [] [] entries warnings Hrun (NoDup_nil_2 : NoDup (@nil string))) as (_ & _ & Hent).
    destruct (summarize_total entries) with (successful := 0) (failed := 0)
      (risk_levels := @nil string) (findings := @nil string)
      as (s' & f' & rl' & fs' & Hsum & _).
    { intros k e Hin. destruct (Hent k e Hin) as [[] | [emitted Ha]].
      exact (analyse_parameter_entry services L table place day years k e emitted Ha). }
    unfold _generate_summary. rewrite Hsum. cbn [mbind option_bind]. eauto.
Qed.

Lemma process_query_fails_only_on_the_date_witness :
  (∀ k d, PARAMETER_THRESHOLDS !! k = Some d → is_Some (read_thresholds d)) ∧
  process_query sample_services fitting_library PARAMETER_THRESHOLDS sample_location
    "" ["t_2m:C"] 30 =
    Some (Raised (ValueError "Date must be in format YYYY-MM-DD"), []) ∧
  ∃ results warnings,
    process_query sample_services fitting_library PARAMETER_THRESHOLDS sample_location
      "2024-07-14" ["t_2m:C"; "precip_24h:mm"; "msl_pressure:hPa"] 30 =
      Some (Returned results, warnings).
Proof.
  split; [exact configured_thresholds_readable |]. split.
  - exact (proj1 (process_query_fails_only_on_the_date sample_services fitting_library
                    PARAMETER_THRESHOLDS sample_location "" ["t_2m:C"] 30
                    configured_thresholds_readable) eq_refl).
  - apply (process_query_fails_only_on_the_date sample_services fitting_library
             PARAMETER_THRESHOLDS sample_location "2024-07-14"
             ["t_2m:C"; "precip_24h:mm"; "msl_pressure:hPa"] 30
             configured_thresholds_readable).
    eexists. reflexivity.
Defined.

(** The result of a query has exactly one entry for every requested
    parameter, and the entry of a parameter is what the analysis of that
    parameter alone yields, so that a failure for one parameter leaves the
    entries of the others as they are.  The summary counts every entry
    once, as successful or failed, and its key findings have one line for
    every successful analysis, whether its trend is significant or not.
    The location, the date and the number of years are repeated in the
    result. *)
Theorem process_query_reports_every_parameter
    (services : Services) (L : Library) (table : gmap string (gmap string pyobj))
    (place : gmap string pyobj) (date : string) (requested : list string) (years : Z)
    (results : QueryResults) (warnings : list string) :
  process_query services L table place date requested years =
    Some (Returned results, warnings) →
  ∃ day, day_of_year services date = Some day ∧
    NoDup (fst <$> parameters results) ∧
    (∀ p, In p (fst <$> parameters results) ↔ In p requested) ∧
    (∀ p entry, In (p, entry) (parameters results) →
       ∃ emitted,
         analyse_parameter services L table place p day years = Some (entry, emitted)) ∧
    total_parameters (summary results) = length (parameters results) ∧
    successful_analyses (summary results) + failed_analyses (summary results) =
      total_parameters (summary results) ∧
    length (key_findings (summary results)) = successful_analyses (summary results) ∧
    query_location results = place ∧ query_date results = date ∧
    analysis_years results = years.
Proof.
  unfold process_query.
  destruct (day_of_year services date) as [day |]; [| intros [= <- <-] || discriminate].
  destruct (foldl _ _ requested) as [[entries ws] |] eqn:Hrun; [| discriminate].
  cbn [mbind option_bind].
  destruct (store_parameters_spec services L table place day years requested
              [] [] entries ws Hrun (NoDup_nil_2 : NoDup (@nil string))) as (Hn & Hkeys & Hent).
  destruct (summarize_total entries) with (successful := 0) (failed := 0)
    (risk_levels := @nil string) (findings := @nil string)
    as (s' & f' & rl' & fs' & Hsumm & Hlen).
  { intros k e Hin. destruct (Hent k e Hin) as [[] | [emitted Ha]].
    exact (analyse_parameter_entry services L table place day years k e emitted Ha). }
  destruct (summarize_counts _ _ _ _ _ _ _ _ _ Hsumm) as (Hsum & _ & _).
  unfold _generate_summary. rewrite Hsumm. cbn [mbind option_bind].
  intros [= <- <-]. cbn.
  exists day. split; [reflexivity |]. split; [exact Hn |]. split.
  { intros p. rewrite Hkeys. cbn [fmap list_fmap In]. intuition. }
  split.
  { intros p entry Hin. destruct (Hent p entry Hin) as [[] | H]. exact H. }
  cbn [length] in Hlen. repeat split; lia.
Qed.


Lemma process_query_reports_every_parameter_witness :
  process_query sample_services fitting_library PARAMETER_THRESHOLDS sample_location
    "2024-07-14" ["precip_24h:mm"; "msl_pressure:hPa"; "precip_24h:mm"] 30 =
    Some (Returned sample_results, []) ∧
  NoDup (fst <$> parameters sample_results) ∧
  (∀ p, In p (fst <$> parameters sample_results) ↔
        In p ["precip_24h:mm"; "msl_pressure:hPa"; "precip_24h:mm"]) ∧
  length (key_findings (summary sample_results)) = successful_analyses (summary sample_results).
Proof.
  assert (process_query sample_services fitting_library PARAMETER_THRESHOLDS sample_location
            "2024-07-14" ["precip_24h:mm"; "msl_pressure:hPa"; "precip_24h:mm"] 30 =
            Some (Returned sample_results, [])) as H by (vm_compute; reflexivity).
  split; [exact H |].
  destruct (process_query_reports_every_parameter _ _ _ _ _ _ _ _ _ H)
    as (day & _ & Hn & Hkeys & _ & _ & _ & Hfind & _).
  auto.
Defined.

Lemma init_all_nan (historical_data : list float) :
  Forall (λ x, np_isnan x = true) historical_data →
  __init__ historical_data = Raised (ValueError "No valid data points provided").
Proof.
  intros H. unfold __init__.
  assert (List.filter (λ x, negb (np_isnan x)) historical_data = []) as ->.
  { induction H as [| x l Hx _ IH]; [reflexivity |]. cbn [List.filter]. rewrite Hx. exact IH. }
  reflexivity.
Qed.

(** What goes wrong for a parameter becomes the 'error' entry of that
    parameter: a location without latitude or longitude gives the
    message of the KeyError, a failure of the data client gives the
    description of the failure, an empty series gives 'No historical
    data available', and a series of NaN only gives 'No valid data
    points provided', the message of the analyzer. *)
Theorem analysis_failures_become_error_entries
    (services : Services) (L : Library) (table : gmap string (gmap string pyobj))
    (place : gmap string pyobj) (param : string) (day years : Z) :
  let entry := analyse_parameter services L table place param day years in
  (place !! "lat" = None → entry = Some (error_entry "'lat'", [])) ∧
  (is_Some (place !! "lat") → place !! "lon" = None → entry = Some (error_entry "'lon'", [])) ∧
  (∀ lat lon, place !! "lat" = Some lat → place !! "lon" = Some lon →
     (∀ e, get_historical_data services lat lon param day years = Raised e →
           entry = Some (error_entry (str e), [])) ∧
     (get_historical_data services lat lon param day years = Returned [] →
        entry = Some (error_entry "No historical data available", [])) ∧
     (∀ historical_data,
        get_historical_data services lat lon param day years = Returned historical_data →
        historical_data ≠ [] → Forall (λ x, np_isnan x = true) historical_data →
        entry = Some (error_entry "No valid data points provided", []))).
Proof.
  intros entry. unfold entry, analyse_parameter. split; [| split].
  - intros ->. reflexivity.
  - intros [lat ->] ->. reflexivity.
  - intros lat lon -> ->. split; [| split].
    + intros e ->. reflexivity.
    + intros ->. reflexivity.
    + intros historical_data -> Hne Hnan.
      destruct historical_data as [| x rest]; [contradiction |].
      cbn [length Nat.ltb Nat.leb]. rewrite (init_all_nan _ Hnan). reflexivity.
Qed.


Lemma dominant_risk_level_is_most_frequent_witness :
  _generate_summary sample_entries = Some sample_summary ∧
  dominant_risk_level sample_summary = Some "Low" ∧
  In "Low" (overall_risk_levels sample_summary) ∧
  occurrences "High" (overall_risk_levels sample_summary) ≤
    occurrences "Low" (overall_risk_levels sample_summary).
Proof.
  assert (_generate_summary sample_entries = Some sample_summary) as H
    by (vm_compute; reflexivity).
  destruct (dominant_risk_level_is_most_frequent sample_entries sample_summary "Low" H eq_refl)
    as [Hin Hmost].
  split; [exact H |]. split; [reflexivity |]. split; [exact Hin | exact (Hmost "High")].
Defined.


(** *** Typical conditions *)

Lemma interpret_results_typical
    (parameter : string) (assessment basic_stats trend : gmap string pyobj)
    (mean_val std_val : float) (significant : bool) (direction category : string) :
  assessment !! "basic_stats" = Some (PDict basic_stats) →
  basic_stats !! "mean" = Some (PFloat mean_val) →
  basic_stats !! "std_dev" = Some (PFloat std_val) →
  assessment !! "trend_analysis" = Some (PDict trend) →
  trend !! "significant" = Some (PBool significant) →
  trend !! "direction" = Some (PStr direction) →
  assessment !! "risk_category" = Some (PStr category) →
  let param_key := str_lower (str_split colon parameter).1 in
  ∃ interpretation : gmap string string,
    _interpret_results parameter assessment = Some interpretation ∧
    interpretation !! "typical_conditions" =
      if str_contains "t_2m" param_key then
        Some (if (mean_val <? 10)%float then "Typically cold conditions"
              else if (25 <? mean_val)%float then "Typically warm conditions"
              else "Typically mild conditions")
      else if str_contains "precip" param_key then
        Some (if (mean_val <? 1)%float then "Typically dry conditions"
              else if (10 <? mean_val)%float then "Typically wet conditions"
              else "Typically moderate precipitation")
      else if str_contains "wind" param_key then
        Some (if (mean_val <? 15)%float then "Typically calm conditions"
              else if (30 <? mean_val)%float then "Typically windy conditions"
              else "Typically moderate wind")
      else None.
Proof.
  intros Hstats Hmean Hstd Htrend Hsig Hdir Hcat param_key.
  unfold _interpret_results. rewrite Hstats, Hmean, Hstd, Htrend. cbn [mbind option_bind].
  rewrite Hsig, Hdir, Hcat. cbn [default py_bool format_text mbind option_bind].
  fold param_key.
  destruct significant; cbn [mbind option_bind];
    destruct (str_contains "t_2m" param_key);
    [| destruct (str_contains "precip" param_key); [| destruct (str_contains "wind" param_key)]
     | | destruct (str_contains "precip" param_key); [| destruct (str_contains "wind" param_key)]];
    eexists; (split; [reflexivity |]); lookup_entry.
Qed.

(** The interpretation describes the typical conditions by the mean of
    the sample for the parameters whose code contains 't_2m', 'precip' or
    'wind': of the parameters that the data client offers these are the
    temperature at 2 m, the precipitation and the two wind parameters,
    while the maximum and minimum temperature, whose codes do not contain
    't_2m', get no such entry, like humidity, pressure and sunshine.  For
    the temperature at 2 m the conditions are cold below a mean of 10,
    warm above 25 and mild otherwise. *)
Theorem typical_conditions_by_parameter
    (L : Library) (thresholds : ThresholdSet) (self : Analyzer) (info : pyobj) :
  Forall
    (λ code,
       ∃ (assessment : gmap string pyobj) (interpretation : gmap string string),
         generate_risk_assessment L thresholds self = (self, Returned assessment) ∧
         _interpret_results code (<["parameter_info" := info]> assessment) = Some interpretation ∧
         (is_Some (interpretation !! "typical_conditions") ↔
            In code ["t_2m:C"; "precip_24h:mm"; "wind_speed_10m:ms"; "wind_gusts_10m_24h:ms"]) ∧
         (code = "t_2m:C" →
            interpretation !! "typical_conditions" =
              Some (if (np_mean (data self) <? 10)%float then "Typically cold conditions"
                    else if (25 <? np_mean (data self))%float then "Typically warm conditions"
                    else "Typically mild conditions")))
    (fst <$> get_available_parameters).
Proof.
  destruct (generate_risk_assessment_shape L thresholds self)
    as (assessment & trend & Hrun & Htrend & Hta & Hstats & Hrisk & _).
  destruct (detect_trend_shape L self trend Htrend) as (significant & direction & Hsig & Hdir).
  assert (∀ code, ∃ interpretation : gmap string string,
            _interpret_results code (<["parameter_info" := info]> assessment) = Some interpretation ∧
            interpretation !! "typical_conditions" =
              let param_key := str_lower (str_split colon code).1 in
              let mean_val := np_mean (data self) in
              if str_contains "t_2m" param_key then
                Some (if (mean_val <? 10)%float then "Typically cold conditions"
                      else if (25 <? mean_val)%float then "Typically warm conditions"
                      else "Typically mild conditions")
              else if str_contains "precip" param_key then
                Some (if (mean_val <? 1)%float then "Typically dry conditions"
                      else if (10 <? mean_val)%float then "Typically wet conditions"
                      else "Typically moderate precipitation")
              else if str_contains "wind" param_key then
                Some (if (mean_val <? 15)%float then "Typically calm conditions"
                      else if (30 <? mean_val)%float then "Typically windy conditions"
                      else "Typically moderate wind")
              else None) as Htypical.
  { intros code.
    exact (interpret_results_typical code (<["parameter_info" := info]> assessment)
             _ trend (np_mean (data self)) (np_std 0 (data self)) significant direction _
             ltac:(rewrite lookup_insert_ne by discriminate; exact Hstats)
             eq_refl eq_refl
             ltac:(rewrite lookup_insert_ne by discriminate; exact Hta)
             Hsig Hdir
             ltac:(rewrite lookup_insert_ne by discriminate; exact Hrisk)). }
  unfold get_available_parameters. cbn [fmap list_fmap fst].
  repeat apply Forall_cons_2; try apply Forall_nil_2;
    match goal with
    | |- ∃ _ _, _ ∧ _interpret_results ?code _ = _ ∧ _ =>
        destruct (Htypical code) as (interpretation & Hinterp & Htc);
        exists assessment, interpretation;
        split; [exact Hrun |]; split; [exact Hinterp |];
        rewrite Htc;
        let key := eval vm_compute in (str_lower (str_split colon code).1) in
        change (str_lower (str_split colon code).1) with key;
        cbv zeta;
        repeat match goal with
        | |- context [str_contains ?n ?h] =>
            let v := eval vm_compute in (str_contains n h) in
            change (str_contains n h) with v
        end;
        cbv iota
    end;
    (split; [split; [intros H; try (apply is_Some_None in H; destruct H);
                     cbn [In]; auto 10
                    | intros H; cbn [In] in H;
                      try (eexists; reflexivity);
                      repeat (destruct H as [H | H]; [discriminate H |]); destruct H]
            | intros H; try discriminate H; reflexivity]).
Qed.

(** ** Validation of the inputs *)

(** An integer of magnitude [2^1024] or more has no binary64 value. *)
Lemma binary_round_overflow (s : bool) (m : positive) :
  (2 ^ 1024 <= Z.pos m)%Z → binary_round prec emax s m 0 = S754_infinity s.
Proof.
  intros Hm. unfold binary_round.
  pose proof (digits2_pos_bounds m) as [Hlo Hhi].
  set (d := Z.pos (digits2_pos m)) in *.
  assert (Hd : (1024 < d)%Z) by (apply pow2_lt_inv; lia).
  rewrite fexp64_eq.
  assert (Hf : fexp64 (d + 0) = (d - 53)%Z) by (unfold fexp64; lia).
  rewrite Hf.
  pose proof (shl_align_spec m 0 (d - 53)) as Hsh.
  destruct (shl_align m 0 (d - 53)) as [mz ez].
  destruct Hsh as [-> Hmz].
  replace (Z.min 0 (d - 53)) with 0%Z in * by lia.
  assert (Hmz' : Z.pos mz = Z.pos m) by (rewrite Hmz; change (2 ^ (0 - 0))%Z with 1%Z; lia).
  clear Hmz. rename Hmz' into Hmz.
  destruct (binary_round_aux_normal_form s (Z.pos mz) 0 loc_Exact ltac:(lia))
    as (delta & Hdelta & _ & Hform).
  cbv zeta in Hform. rewrite Hform. clear Hform.
  assert (Hdig : Zdigits2 (Z.pos mz) = d) by (rewrite Hmz; reflexivity).
  rewrite Hdig, Hf.
  replace (Z.max (d - 53 - 0) 0) with (d - 53)%Z by lia.
  assert (Hd1 : Zdigits2 (Z.pos mz / 2 ^ (d - 53)) = 53%Z).
  { rewrite Zdigits2_shr by (rewrite ?Hdig; lia). rewrite Hdig. lia. }
  assert (Hm1 : (2 ^ 52 <= Z.pos mz / 2 ^ (d - 53) < 2 ^ 53)%Z).
  { assert (Hpos : (0 < Z.pos mz / 2 ^ (d - 53))%Z).
    { apply Z.div_str_pos. split; [apply pow2_pos; lia |].
      rewrite Hmz. etransitivity; [| exact Hlo]. apply pow2_le. lia. }
    pose proof (Zdigits2_bounds _ Hpos) as [_ Hb]. rewrite Hd1 in Hb. exact Hb. }
  set (m1 := (Z.pos mz / 2 ^ (d - 53))%Z) in *.
  set (m1' := (m1 + delta)%Z).
  assert (Hm1' : (2 ^ 52 <= m1' <= 2 ^ 53)%Z) by (unfold m1'; lia).
  assert (Hd1' : (53 <= Zdigits2 m1' <= 54)%Z).
  { split.
    - rewrite <- Hd1. apply Zdigits2_mono. unfold m1'. lia.
    - replace 54%Z with (Zdigits2 (2 ^ 53)) by reflexivity.
      apply Zdigits2_mono. lia. }
  set (k2 := Z.max (fexp64 (Zdigits2 m1' + (0 + (d - 53))) - (0 + (d - 53))) 0).
  assert (Hk2 : (0 <= k2 <= 1)%Z) by (unfold k2, fexp64; lia).
  assert (Hm2 : (0 < m1' / 2 ^ k2)%Z).
  { apply Z.div_str_pos. split; [apply pow2_pos; lia |].
    etransitivity; [| exact (proj1 Hm1')].
    apply (pow2_le k2 52). lia. }
  destruct (m1' / 2 ^ k2)%Z as [| m2 | m2]; try lia.
  destruct (Z.leb_spec (0 + (d - 53) + k2) 971); [lia | reflexivity].
Qed.

Lemma py_float_overflow (z : Z) :
  (2 ^ 1024 <= Z.abs z)%Z →
  py_float z = Raised (OverflowError "int too large to convert to float").
Proof.
  intros Hz. unfold py_float, float_of_Z.
  destruct z as [| m | m]; cbn [Z.abs] in Hz.
  - exfalso. revert Hz. apply Z.lt_nge. apply pow2_pos. lia.
  - cbn [binary_normalize]. rewrite binary_round_overflow by exact Hz. reflexivity.
  - cbn [binary_normalize]. rewrite binary_round_overflow by exact Hz. reflexivity.
Qed.

Lemma is_available_In (param : string) :
  is_available param = true ↔ In param (fst <$> get_available_parameters).
Proof.
  unfold is_available. rewrite bool_decide_eq_true. apply list_elem_of_In.
Qed.

(** The loop over the parameters appends one message for every parameter
    that is not available, in the order of the parameters. *)
Lemma unknown_parameters_fold (parameters : list string) :
  ∀ errors : list string,
    foldl (λ errors param,
             if is_available param then errors
             else errors ++ ["Unknown parameter: " +:+ param])
          errors parameters =
    errors ++ ((λ param, "Unknown parameter: " +:+ param) <$>
               List.filter (λ param, negb (is_available param)) parameters).
Proof.
  induction parameters as [| p rest IH]; intros errors; cbn [foldl List.filter].
  - cbn. rewrite app_nil_r. reflexivity.
  - rewrite IH. destruct (is_available p); cbn [negb fmap list_fmap].
    + reflexivity.
    + rewrite <- app_assoc. reflexivity.
Qed.

Lemma filter_unavailable_nil (parameters : list string) :
  List.filter (λ param, negb (is_available param)) parameters = [] ↔
  ∀ p, In p parameters → In p (fst <$> get_available_parameters).
Proof.
  induction parameters as [| p rest IH]; cbn [List.filter In].
  - intuition.
  - destruct (is_available p) eqn:E; cbn [negb].
    + rewrite IH. apply is_available_In in E. split.
      * intros H q [<- | Hq]; auto.
      * intros H q Hq. apply H. auto.
    + split; [discriminate |]. intros H. exfalso.
      assert (is_available p = true) by (apply is_available_In, H; auto). congruence.
Qed.

(** [validate_inputs] after the location: the messages of the date, of an
    empty selection and of the unknown parameters follow those of the
    location. *)
Lemma validate_inputs_unfold (services : Services) (location : pyobj) (date : string)
    (parameters : list string) (located : list string) :
  location_errors location = Some (Returned located) →
  validate_inputs services location date parameters =
    Some (Returned
      (located ++
       (match day_of_year services date with
        | Some _ => []
        | None => ["Date must be in format YYYY-MM-DD"]
        end) ++
       (match parameters with
        | [] => ["At least one parameter must be selected"]
        | _ => []
        end) ++
       ((λ param, "Unknown parameter: " +:+ param) <$>
        List.filter (λ param, negb (is_available param)) parameters))).
Proof.
  intros H. unfold validate_inputs. rewrite H. cbn [mbind option_bind].
  rewrite unknown_parameters_fold. do 2 f_equal.
  destruct (day_of_year services date), parameters;
    rewrite <- ?app_assoc, ?app_nil_r; reflexivity.
Qed.

(** For coordinates that are numbers, [validate_inputs] returns no
    message exactly when the latitude is between -90 and 90, the
    longitude between -180 and 180, the date has the format YYYY-MM-DD,
    some parameter is selected and every selected parameter is one that
    the data client offers.  A coordinate that is NaN is out of range, and
    every unknown parameter is named. *)
Theorem validation_accepts_exactly_valid_inputs
    (services : Services) (place : gmap string pyobj) (lat_value lon_value : pyobj)
    (lat lon : float) (date : string) (requested : list string) :
  place !! "lat" = Some lat_value → place !! "lon" = Some lon_value →
  float_of_pyobj lat_value = Some (Returned lat) →
  float_of_pyobj lon_value = Some (Returned lon) →
  ∃ errors : list string,
    validate_inputs services (PDict place) date requested = Some (Returned errors) ∧
    (errors = [] ↔
       (-90 <=? lat)%float = true ∧ (lat <=? 90)%float = true ∧
       (-180 <=? lon)%float = true ∧ (lon <=? 180)%float = true ∧
       is_Some (day_of_year services date) ∧ requested ≠ [] ∧
       ∀ p, In p requested → In p (fst <$> get_available_parameters)) ∧
    (np_isnan lat = true → In "Latitude must be between -90 and 90" errors) ∧
    (np_isnan lon = true → In "Longitude must be between -180 and 180" errors) ∧
    (∀ p, In p requested → ¬ In p (fst <$> get_available_parameters) →
          In ("Unknown parameter: " +:+ p) errors).
Proof.
  intros Hlat Hlon Hflat Hflon.
  assert (Hloc : location_errors (PDict place) = Some (Returned (coordinate_errors lat lon))).
  { unfold location_errors. rewrite Hlat, Hlon, Hflat. cbn [mbind option_bind].
    rewrite Hflon. reflexivity. }
  eexists. split; [exact (validate_inputs_unfold services _ date requested _ Hloc) |].
  split; [| split; [| split]].
  - unfold coordinate_errors. split.
    + intros H.
      apply app_eq_nil in H as [H1 H]. apply app_eq_nil in H1 as [Ha Hb].
      apply app_eq_nil in H as [Hd H]. apply app_eq_nil in H as [He Hu].
      destruct (-90 <=? lat)%float, (lat <=? 90)%float; try discriminate Ha.
      destruct (-180 <=? lon)%float, (lon <=? 180)%float; try discriminate Hb.
      destruct (day_of_year services date) as [day |]; [| discriminate Hd].
      apply fmap_nil_inv in Hu.
      pose proof (proj1 (filter_unavailable_nil _) Hu) as Hall.
      do 4 (split; [reflexivity |]). split; [eauto |].
      split; [| exact Hall]. intros ->. discriminate He.
    + intros (-> & -> & -> & -> & [day ->] & Hne & Hall).
      rewrite (proj2 (filter_unavailable_nil _) Hall).
      destruct requested; [contradiction | reflexivity].
  - intros Hnan. apply in_or_app. left. apply in_or_app. left.
    unfold coordinate_errors.
    destruct (float_nan_incomparable lat 90%float Hnan) as (_ & _ & H & _).
    rewrite H, andb_false_r. left. reflexivity.
  - intros Hnan. apply in_or_app. left. apply in_or_app. right.
    unfold coordinate_errors.
    destruct (float_nan_incomparable lon 180%float Hnan) as (_ & _ & H & _).
    rewrite H, andb_false_r. left. reflexivity.
  - intros p Hp Hnot. apply in_or_app. right. apply in_or_app. right. apply in_or_app. right.
    apply in_map. apply filter_In. split; [exact Hp |].
    destruct (is_available p) eqn:E; [| reflexivity].
    apply is_available_In in E. contradiction.
Qed.

Lemma validation_accepts_exactly_valid_inputs_witness :
  ∃ errors : list string,
    validate_inputs sample_services (PDict sample_location) "2024-07-14"
      ["t_2m:C"; "precip_24h:mm"] = Some (Returned errors) ∧
    errors = [].
Proof.
  destruct (validation_accepts_exactly_valid_inputs sample_services sample_location
              (PFloat 40.7128) (PFloat (-74.006)) 40.7128 (-74.006) "2024-07-14"
              ["t_2m:C"; "precip_24h:mm"] eq_refl eq_refl eq_refl eq_refl)
    as (errors & Hrun & Hiff & _).
  exists errors. split; [exact Hrun |]. apply Hiff.
  do 4 (split; [reflexivity |]).
  split; [eexists; reflexivity |].
  split; [discriminate |].
  intros p [<- | [<- | []]]; cbn; auto.
Defined.

(** A conversion that raises: either the value is an integer without
    binary64 value, or the exception is one that [validate_inputs]
    catches. *)
Lemma float_of_pyobj_raised (value : pyobj) (e : exn) :
  float_of_pyobj value = Some (Raised e) →
  (∃ z, value = PInt z ∧ py_float z = Raised e ∧
        e = OverflowError "int too large to convert to float" ∧ numeric_handler e = Raised e) ∨
  numeric_handler e = Returned ["Latitude and longitude must be numeric"].
Proof.
  destruct value as [f | z | b | s | | items | entries]; cbn [float_of_pyobj];
    try discriminate; try (intros [= <-]; right; reflexivity).
  intros [= H]. left. exists z. split; [reflexivity |]. split; [exact H |].
  unfold py_float in H. destruct (PrimFloat.is_infinity _); [| discriminate].
  injection H as <-. split; reflexivity.
Qed.

Lemma location_errors_raised (location : pyobj) (e : exn) :
  location_errors location = Some (Raised e) →
  ∃ (place : gmap string pyobj) (z : Z),
    location = PDict place ∧ py_float z = Raised e ∧
    e = OverflowError "int too large to convert to float" ∧
    (place !! "lat" = Some (PInt z) ∨ place !! "lon" = Some (PInt z)).
Proof.
  destruct location as [f | z | b | s | | items | place]; try discriminate.
  cbn [location_errors].
  destruct (place !! "lat") as [lat_value |] eqn:Hlat; [| discriminate].
  destruct (place !! "lon") as [lon_value |] eqn:Hlon; [| discriminate].
  destruct (float_of_pyobj lat_value) as [[lat | e1] |] eqn:Hflat;
    cbn [mbind option_bind]; [| | discriminate].
  - destruct (float_of_pyobj lon_value) as [[lon | e2] |] eqn:Hflon;
      cbn [mbind option_bind]; [discriminate | | discriminate].
    destruct (float_of_pyobj_raised _ _ Hflon) as [(z & -> & Hz & He & Hh) | Hh];
      rewrite Hh; [| discriminate].
    intros [= <-]. exists place, z. auto.
  - destruct (float_of_pyobj_raised _ _ Hflat) as [(z & -> & Hz & He & Hh) | Hh];
      rewrite Hh; [| discriminate].
    intros [= <-]. exists place, z. auto.
Qed.

(** [validate_inputs] reports the problems of the location instead of
    raising, with one exception: a coordinate that is an integer too large
    for a binary64 number (of magnitude [2^1024] or more, for instance)
    makes the conversion raise an OverflowError, which is not among the
    exceptions caught and leaves [validate_inputs].  A location that is not
    a dictionary, lacks a coordinate or has the coordinate [None] gives the
    corresponding message, which comes first in the list. *)
Theorem validation_raises_only_on_huge_integers
    (services : Services) (location : pyobj) (date : string) (requested : list string) :
  (∀ e, validate_inputs services location date requested = Some (Raised e) →
     ∃ (place : gmap string pyobj) (z : Z),
       location = PDict place ∧ py_float z = Raised e ∧
       e = OverflowError "int too large to convert to float" ∧
       (place !! "lat" = Some (PInt z) ∨ place !! "lon" = Some (PInt z))) ∧
  (∀ place z, location = PDict place →
     place !! "lat" = Some (PInt z) → is_Some (place !! "lon") → (2 ^ 1024 <= Z.abs z)%Z →
     validate_inputs services location date requested =
       Some (Raised (OverflowError "int too large to convert to float"))) ∧
  ((∀ place, location ≠ PDict place) →
     ∃ rest, validate_inputs services location date requested =
               Some (Returned ("Location must be a dictionary" :: rest))) ∧
  (∀ place, location = PDict place → place !! "lat" = None ∨ place !! "lon" = None →
     ∃ rest, validate_inputs services location date requested =
               Some (Returned ("Location must contain 'lat' and 'lon' keys" :: rest))) ∧
  (∀ place, location = PDict place → place !! "lat" = Some PNone → is_Some (place !! "lon") →
     ∃ rest, validate_inputs services location date requested =
               Some (Returned ("Latitude and longitude must be numeric" :: rest))).
Proof.
  split; [| split; [| split; [| split]]].
  - intros e. unfold validate_inputs.
    destruct (location_errors location) as [[located | e'] |] eqn:Hloc;
      cbn [mbind option_bind]; [discriminate | | discriminate].
    intros [= <-]. exact (location_errors_raised _ _ Hloc).
  - intros place z -> Hlat [lon_value Hlon] Hz.
    unfold validate_inputs, location_errors. rewrite Hlat, Hlon.
    cbn [float_of_pyobj]. rewrite (py_float_overflow z Hz). reflexivity.
  - intros Hnot.
    assert (Hloc : location_errors location = Some (Returned ["Location must be a dictionary"])).
    { destruct location; try reflexivity. exfalso. exact (Hnot _ eq_refl). }
    rewrite (validate_inputs_unfold services _ date requested _ Hloc). eexists. reflexivity.
  - intros place -> Hmissing.
    assert (Hloc : location_errors (PDict place) =
                   Some (Returned ["Location must contain 'lat' and 'lon' keys"])).
    { cbn [location_errors]. destruct Hmissing as [-> | ->]; [reflexivity |].
      destruct (place !! "lat"); reflexivity. }
    rewrite (validate_inputs_unfold services _ date requested _ Hloc). eexists. reflexivity.
  - intros place -> Hlat [lon_value Hlon].
    assert (Hloc : location_errors (PDict place) =
                   Some (Returned ["Latitude and longitude must be numeric"])).
    { cbn [location_errors]. rewrite Hlat, Hlon. reflexivity. }
    rewrite (validate_inputs_unfold services _ date requested _ Hloc). eexists. reflexivity.
Qed.

(** The thresholds configured for a parameter are always read without
    error. *)
Lemma configured_thresholds_returned (param : string) :
  ∃ thresholds : ThresholdSet,
    read_thresholds (_get_thresholds PARAMETER_THRESHOLDS param) = Some (Returned thresholds).
Proof.
  unfold _get_thresholds.
  generalize (str_lower (str_split colon param).1). intros k.
  destruct (PARAMETER_THRESHOLDS !! k) as [d |] eqn:E; cbn [default].
  - unfold PARAMETER_THRESHOLDS in E.
    apply elem_of_list_to_map_2, list_elem_of_In in E. cbn [In] in E.
    repeat (destruct E as [[= <- <-] | E]; [vm_compute; eauto |]). contradiction.
  - eexists. reflexivity.
Qed.

(** With the configured thresholds, the entry of a parameter has no
    'error' exactly when the data client returns data from which an
    analyzer is constructed. *)
Lemma configured_analysis_succeeds_iff
    (services : Services) (L : Library) (place : gmap string pyobj) (param : string)
    (day years : Z) (lat lon : pyobj) (entry : gmap string pyobj) (emitted : list string) :
  place !! "lat" = Some lat → place !! "lon" = Some lon →
  analyse_parameter services L PARAMETER_THRESHOLDS place param day years =
    Some (entry, emitted) →
  entry !! "error" = None ↔
  ∃ historical_data analyzer warnings,
    get_historical_data services lat lon param day years = Returned historical_data ∧
    __init__ historical_data = Returned (analyzer, warnings).
Proof.
  intros Hlat Hlon. unfold analyse_parameter. rewrite Hlat, Hlon.
  destruct (get_historical_data services lat lon param day years) as [historical_data | e].
  2: { intros [= <- <-]. rewrite error_entry_lookup. split; [discriminate |].
       intros (? & ? & ? & [=] & _). }
  destruct historical_data as [| x rest].
  { cbn [length Nat.ltb Nat.leb]. intros [= <- <-]. rewrite error_entry_lookup.
    split; [discriminate |]. intros (? & ? & ? & [= <-] & H). discriminate H. }
  cbn [length Nat.ltb Nat.leb].
  destruct (__init__ (x :: rest)) as [[analyzer warnings] | e] eqn:Hinit.
  2: { intros [= <- <-]. rewrite error_entry_lookup. split; [discriminate |].
       intros (? & ? & ? & [= <-] & H). congruence. }
  destruct (configured_thresholds_returned param) as [thresholds ->].
  cbn [mbind option_bind].
  destruct (parameter_units_total param) as [units ->].
  match goal with
  | |- context [<["parameter_info" := ?i]> _] =>
      destruct (analysis_entry_shape L param thresholds analyzer i)
        as (assessment & interpretation & Hrun & Hinterp & Hnoerr & _)
  end.
  rewrite Hrun. cbn [snd]. rewrite Hinterp. cbn [mbind option_bind].
  intros [= <- <-]. split; [| intros _; exact Hnoerr].
  intros _. eauto.
Qed.

(** Inputs that [validate_inputs] accepts are processed: the location is
    a dictionary with both coordinates, [process_query] returns a result
    for the configured thresholds, the result has an entry, every entry is
    that of a parameter that the data client offers, and an entry has no
    'error' exactly when the data client returned data with a valid
    observation, from which the analyzer is constructed.  No entry reports
    a missing coordinate. *)
Theorem validated_query_is_processed
    (services : Services) (L : Library) (location : pyobj) (date : string)
    (requested : list string) (years : Z) :
  validate_inputs services location date requested = Some (Returned []) →
  ∃ (place : gmap string pyobj) (day : Z) (results : QueryResults) (warnings : list string),
    location = PDict place ∧ day_of_year services date = Some day ∧
    process_query services L PARAMETER_THRESHOLDS place date requested years =
      Some (Returned results, warnings) ∧
    parameters results ≠ [] ∧
    ∀ p entry, In (p, entry) (parameters results) →
      In p (fst <$> get_available_parameters) ∧
      ∃ lat lon, place !! "lat" = Some lat ∧ place !! "lon" = Some lon ∧
        (entry !! "error" = None ↔
           ∃ historical_data analyzer emitted,
             get_historical_data services lat lon p day years = Returned historical_data ∧
             __init__ historical_data = Returned (analyzer, emitted)).
Proof.
  intros Hvalid.
  assert (∃ place lat lon, location = PDict place ∧
            place !! "lat" = Some lat ∧ place !! "lon" = Some lon ∧
            location_errors location = Some (Returned []))
    as (place & lat & lon & -> & Hlat & Hlon & Hloc).
  { unfold validate_inputs in Hvalid.
    destruct (location_errors location) as [[located | e] |] eqn:Hloc; try discriminate.
    cbn [mbind option_bind] in Hvalid. rewrite unknown_parameters_fold in Hvalid.
    injection Hvalid as Hvalid. apply app_eq_nil in Hvalid as [Hvalid _].
    assert (located = []) as ->.
    { destruct (day_of_year services date), requested, located; try discriminate Hvalid;
        reflexivity. }
    destruct location as [f | z | b | s | | items | place]; try discriminate Hloc.
    exists place. cbn [location_errors] in Hloc.
    destruct (place !! "lat") as [lat |]; [| discriminate Hloc].
    destruct (place !! "lon") as [lon |]; [| discriminate Hloc].
    exists lat, lon. auto. }
  rewrite (validate_inputs_unfold services _ date requested _ Hloc) in Hvalid.
  injection Hvalid as Hvalid. cbn [app] in Hvalid.
  apply app_eq_nil in Hvalid as [Hdate Hvalid]. apply app_eq_nil in Hvalid as [Hsome Hknown].
  destruct (day_of_year services date) as [day |] eqn:Hday; [| discriminate Hdate].
  apply fmap_nil_inv in Hknown.
  pose proof (proj1 (filter_unavailable_nil _) Hknown) as Hall.
  exists place, day.
  unfold process_query. rewrite Hday.
  destruct (store_parameters_total services L PARAMETER_THRESHOLDS place day years requested
              configured_thresholds_readable [] [])
    as [[entries warnings] Hrun].
  rewrite Hrun. cbn [mbind option_bind].
  destruct (store_parameters_spec services L PARAMETER_THRESHOLDS place day years requested
              [] [] entries warnings Hrun (NoDup_nil_2 : NoDup (@nil string)))
    as (_ & Hkeys & Hent).
  destruct (summarize_total entries) with (successful := 0) (failed := 0)
    (risk_levels := @nil string) (findings := @nil string)
    as (s' & f' & rl' & fs' & Hsum & _).
  { intros k e Hin. destruct (Hent k e Hin) as [[] | [emitted Ha]].
    exact (analyse_parameter_entry services L PARAMETER_THRESHOLDS place day years
             k e emitted Ha). }
  unfold _generate_summary. rewrite Hsum. cbn [mbind option_bind].
  eexists _, warnings. split; [reflexivity |]. split; [reflexivity |].
  split; [reflexivity |]. cbn [parameters]. split.
  - destruct requested as [| p rest]; [discriminate Hsome |].
    intros ->. apply (Hkeys p). right. left. reflexivity.
  - intros p entry Hin. split.
    + apply Hall. apply (in_map fst) in Hin. apply (Hkeys p) in Hin.
      destruct Hin as [[] | Hin]. exact Hin.
    + exists lat, lon. split; [exact Hlat |]. split; [exact Hlon |].
      destruct (Hent p entry Hin) as [[] | [emitted Ha]].
      exact (configured_analysis_succeeds_iff services L place p day years lat lon
               entry emitted Hlat Hlon Ha).
Qed.

Lemma validated_query_is_processed_witness :
  validate_inputs sample_services (PDict sample_location) "2024-07-14"
    ["t_2m:C"; "precip_24h:mm"] = Some (Returned []) ∧
  ∃ results warnings,
    process_query sample_services fitting_library PARAMETER_THRESHOLDS sample_location
      "2024-07-14" ["t_2m:C"; "precip_24h:mm"] 30 = Some (Returned results, warnings) ∧
    parameters results ≠ [].
Proof.
  assert (validate_inputs sample_services (PDict sample_location) "2024-07-14"
            ["t_2m:C"; "precip_24h:mm"] = Some (Returned [])) as H by reflexivity.
  split; [exact H |].
  destruct (validated_query_is_processed sample_services fitting_library _ _ _ 30 H)
    as (place & day & results & warnings & [= <-] & _ & Hrun & Hne & _).
  exists results, warnings. split; [exact Hrun | exact Hne].
Defined.
